(** * Isomorphic data flow: the CRUD orchestration layer

    A shallow embedding of

    - [lib/types/validation.ts]  : the validation contract and its Zod adapter,
    - [lib/services/crudService] : the infrastructure service [CrudService],
    - [useCRUD]                  : the per-verb state machine and its pipeline,
    - [createTypedCrud]          : the typed specialisation factory,

    followed by the properties of the pipeline.

    TypeScript types are erased at run time and the code casts freely between
    the DTO, service and UI shapes ([as unknown as]), so every run-time value
    is a [Value].  Caller-supplied functions (hooks, transformers, backend
    calls) may read and change the outside world and may throw: they are
    state-passing functions over an arbitrary type [W] of outside worlds.
    An [await] is a sequencing point; one call of [execute] is followed from
    its start to the point where its promise settles. *)

From Stdlib Require Import ZArith Ascii String.
From stdpp Require Import base strings gmap list pretty.

Local Open Scope string_scope.
Local Open Scope list_scope.

(** ** JavaScript values *)

(** Numbers are the integer-valued ones. Objects keep their keys in insertion
    order. *)
#[warnings="-register-all"]
Inductive Value : Type :=
| VUndefined
| VNull
| VBoolean (b : bool)
| VNumber (n : Z)
| VString (s : string)
| VArray (items : list Value)
| VObject (fields : list (string * Value)).

(** [if (v)] / [v && ...] *)
Definition truthy (v : Value) : bool :=
  match v with
  | VUndefined | VNull => false
  | VBoolean b => b
  | VNumber n => negb (n =? 0)%Z
  | VString s => negb (String.eqb s "")
  | VArray _ | VObject _ => true
  end.

(** A segment of a validation path: [(string | number)]; the numbers are
    array indices. *)
Inductive PathSegment : Type :=
| Key (s : string)
| Index (i : N).

Definition segmentToString (seg : PathSegment) : string :=
  match seg with
  | Key s => s
  | Index i => pretty i
  end.

(** [path.join(".")] *)
Definition join (path : list PathSegment) : string :=
  String.concat "." (map segmentToString path).

(** ** The schema library (zod), as far as the adapter looks at it *)
Module Zod.

(** One entry of [ZodError.errors]. *)
Record Issue : Type := mkIssue {
  path : list PathSegment;
  message : string
}.

End Zod.

(** ** validation.ts *)

(** [interface ValidationError] *)
Record ValidationError : Type := mkValidationError {
  message : string;
  path : option (list PathSegment);
  errors : option (gmap string string);
  code : option string
}.

(** What a [throw] can carry. *)
Inductive Thrown : Type :=
| JsError (msg : string)                    (* new Error(msg) *)
| ZodError (issues : list Zod.Issue)        (* the library's native error *)
| ValidationFailure (e : ValidationError)   (* the uniform error object *)
| JsTypeError                               (* a TypeError raised by the engine *)
| ThrownValue (v : Value).                  (* anything else *)

Inductive Outcome (A : Type) : Type :=
| Returned (a : A)
| Threw (t : Thrown).
Arguments Returned {A} a.
Arguments Threw {A} t.

(** State passing with exceptions, over a state of type [S]. *)
Definition ST (S A : Type) : Type := S -> Outcome A * S.

Section ST.
Context {S : Type}.

Definition ret {A : Type} (a : A) : ST S A := fun s => (Returned a, s).

Definition bind {A B : Type} (m : ST S A) (k : A -> ST S B) : ST S B :=
  fun s => match m s with
           | (Returned a, s') => k a s'
           | (Threw t, s') => (Threw t, s')
           end.

(** [throw t] *)
Definition throw {A : Type} (t : Thrown) : ST S A := fun s => (Threw t, s).

(** [try { m } catch (e) { handler e }] *)
Definition tryCatch {A : Type} (m : ST S A) (handler : Thrown -> ST S A) : ST S A :=
  fun s => match m s with
           | (Returned a, s') => (Returned a, s')
           | (Threw t, s') => handler t s'
           end.

End ST.

Declare Scope crud_scope.
Delimit Scope crud_scope with crud.
Notation "'let*' x ':=' m 'in' k" := (bind m (fun x => k))
  (at level 10, x name, m at level 100, k at level 200) : crud_scope.
Notation "m ';;;' k" := (bind m (fun _ => k))
  (at level 100, k at level 200, right associativity) : crud_scope.
Local Open Scope crud_scope.

(** A caller-supplied computation over the outside world [W]. *)
Definition Effect (W A : Type) : Type := ST W A.

(** [interface ValidationSchema]: the orchestrator only calls [parse]. *)
Record ValidationSchema (W : Type) : Type := mkValidationSchema {
  parse : Value -> Effect W Value
}.
Arguments mkValidationSchema {W} parse.
Arguments parse {W} v data w.

(** [record[key] = msg] on a record that started as the literal [{}]. The
    own string-valued properties of the record are a finite map. One key is
    special: [__proto__] is the accessor inherited from [Object.prototype],
    and its setter ignores a value that is a string, so that assignment
    stores nothing. Every other key, also one that names an inherited method
    such as [constructor], becomes an own property. *)
Definition assignKey (key msg : string) (record : gmap string string)
    : gmap string string :=
  if String.eqb key "__proto__" then record else <[ key := msg ]> record.

(** The body of [error.errors.forEach((err) => ...)]. The object literal
    [validationError] starts with [errors: {}] and [path: []]; the two fields
    the loop assigns are carried as a pair. *)
Definition forEachIssue (acc : gmap string string * list PathSegment)
    (err : Zod.Issue) : gmap string string * list PathSegment :=
  let '(errs, pth) := acc in
  let errs :=
    if (0 <? length (Zod.path err))%nat
    then assignKey (join (Zod.path err)) (Zod.message err) errs
    else errs in
  let pth :=
    if (length pth =? 0)%nat && (0 <? length (Zod.path err))%nat
    then Zod.path err
    else pth in
  (errs, pth).

Definition toValidationError (issues : list Zod.Issue) : ValidationError :=
  let '(errs, pth) := fold_left forEachIssue issues (∅, []) in
  {| message := "Validation failed";
     path := Some pth;
     errors := Some errs;
     code := None |}.

(** [createZodValidationSchema(schema).parse]; [schema] is the Zod schema's
    own [parse]. *)
Definition createZodValidationSchema {W : Type}
    (schema : Value -> Effect W Value) : ValidationSchema W :=
  {| parse := fun data w =>
       match schema data w with
       | (Returned v, w') => (Returned v, w')
       | (Threw (ZodError issues), w') =>
           (Threw (ValidationFailure (toValidationError issues)), w')
       | (Threw error, w') => (Threw error, w')
       end |}.

(** ** useCRUD: states, cells and the trace of one run *)

(** [interface OperationState]; [error = None] is [error: null], [data] is
    [VNull] for [data: null]. *)
Record OperationState : Type := mkOperationState {
  loading : bool;
  success : bool;
  error : option Thrown;
  data : Value
}.

(** [Partial<OperationState>]: each key present or not. *)
Record PartialOperationState : Type := mkPartial {
  loading_opt : option bool;
  success_opt : option bool;
  error_opt : option (option Thrown);
  data_opt : option Value
}.

(** [{ loading: false, success: false, error: null, data: null }] *)
Definition defaultState : OperationState :=
  {| loading := false; success := false; error := None; data := VNull |}.

(** [{ loading: true, success: false, error: null, data: null }] *)
Definition loadingState : OperationState :=
  {| loading := true; success := false; error := None; data := VNull |}.

(** [{ data: result, loading: false, error: null, success: true }] *)
Definition successState (result : Value) : OperationState :=
  {| loading := false; success := true; error := None; data := result |}.

(** The value of the [error] field after [error: typedError]: a thrown
    [null] is indistinguishable from no error. *)
Definition errorField (typedError : Thrown) : option Thrown :=
  match typedError with
  | ThrownValue VNull => None
  | _ => Some typedError
  end.

(** [{ data: null, loading: false, error: typedError, success: false }] *)
Definition errorState (typedError : Thrown) : OperationState :=
  {| loading := false; success := false; error := errorField typedError;
     data := VNull |}.

(** [{ loading: false, success: false, error: null, data: null,
       ...(initialState || {}) }] *)
Definition spreadInitial (initialState : option PartialOperationState)
    : OperationState :=
  match initialState with
  | None => defaultState
  | Some p =>
      {| loading := default false (loading_opt p);
         success := default false (success_opt p);
         error := default None (error_opt p);
         data := default VNull (data_opt p) |}
  end.

(** The five [useState] cells of one [useCRUD] instance. *)
Inductive Verb : Type := Create | Update | Delete | ReadOne | ReadMany.

Record Store : Type := mkStore {
  createState : OperationState;
  updateState : OperationState;
  deleteState : OperationState;
  readOneState : OperationState;
  readManyState : OperationState
}.

Definition cell (v : Verb) (st : Store) : OperationState :=
  match v with
  | Create => createState st
  | Update => updateState st
  | Delete => deleteState st
  | ReadOne => readOneState st
  | ReadMany => readManyState st
  end.

Definition setCell (v : Verb) (s : OperationState) (st : Store) : Store :=
  match v with
  | Create => mkStore s (updateState st) (deleteState st) (readOneState st) (readManyState st)
  | Update => mkStore (createState st) s (deleteState st) (readOneState st) (readManyState st)
  | Delete => mkStore (createState st) (updateState st) s (readOneState st) (readManyState st)
  | ReadOne => mkStore (createState st) (updateState st) (deleteState st) s (readManyState st)
  | ReadMany => mkStore (createState st) (updateState st) (deleteState st) (readOneState st) s
  end.

(** The places where the orchestrator calls into caller-supplied code. *)
Inductive CallSite : Type :=
| AtBeforeValidation | AtParse | AtTransformer | AtBeforeService | AtService
| AtResultTransformer | AtAfterService | AtOnSuccess | AtOnError
| AtGetOne | AtGetMany | AtAfterServiceOne | AtAfterServiceMany
| AtOnSuccessOne | AtOnSuccessMany | AtOnErrorOne | AtOnErrorMany.

(** What one run did, in order: every state write and every call, with the
    arguments of the call. *)
Inductive Event : Type :=
| StateSet (v : Verb) (s : OperationState)
| Call (site : CallSite) (args : list Value)
| CallWithError (site : CallSite) (error : Thrown) (arg : Value).

Record World (W : Type) : Type := mkWorld {
  store : Store;
  ext : W;
  trace : list Event
}.
Arguments mkWorld {W} store ext trace.
Arguments store {W} w.
Arguments ext {W} w.
Arguments trace {W} w.

(** ** The monad of the orchestrator: state and exceptions *)

Definition M (W A : Type) : Type := ST (World W) A.

Section Monad.
Context {W : Type}.

Definition record (ev : Event) : M W unit :=
  fun w => (Returned tt, mkWorld (store w) (ext w) (trace w ++ [ev])).

(** Running caller-supplied code: it sees and changes the outside world
    only. *)
Definition run {A : Type} (f : Effect W A) : M W A :=
  fun w => let '(o, e) := f (ext w) in (o, mkWorld (store w) e (trace w)).

(** [await f(args)] at call site [site]. *)
Definition call {A : Type} (site : CallSite) (args : list Value)
    (f : Effect W A) : M W A :=
  bind (record (Call site args)) (fun _ => run f).

Definition callWithError {A : Type} (site : CallSite) (error : Thrown)
    (arg : Value) (f : Effect W A) : M W A :=
  bind (record (CallWithError site error arg)) (fun _ => run f).

(** The dispatcher of a [useState] cell, called with a value. *)
Definition setState (v : Verb) (s : OperationState) : M W unit :=
  fun w => (Returned tt,
            mkWorld (setCell v s (store w)) (ext w) (trace w ++ [StateSet v s])).

End Monad.

(** ** useCRUD: options *)

(** [interface OperationOptions]. The type requires [service]; the code
    still tests it at run time, so it is optional here. *)
Record OperationOptions (W : Type) : Type := mkOperationOptions {
  validationSchema : option (ValidationSchema W);
  transformer : option (Value -> Effect W Value);
  resultTransformer : option (Value -> Effect W Value);
  service : option (Value -> Effect W Value);
  beforeValidation : option (Value -> Effect W Value);
  beforeService : option (Value -> Effect W Value);
  afterService : option (Value -> Value -> Effect W Value);
  onError : option (Thrown -> Value -> Effect W unit);
  onSuccess : option (Value -> Value -> Effect W unit);
  initialState : option PartialOperationState
}.
Arguments mkOperationOptions {W}.
Arguments validationSchema {W} o.
Arguments transformer {W} o.
Arguments resultTransformer {W} o.
Arguments service {W} o.
Arguments beforeValidation {W} o.
Arguments beforeService {W} o.
Arguments afterService {W} o.
Arguments onError {W} o.
Arguments onSuccess {W} o.
Arguments initialState {W} o.

(** [interface ReadOperationOptions] *)
Module Read.

(** [service?: { getOne?, getMany? }] *)
Record Service (W : Type) : Type := mkService {
  getOne : option (string -> Value -> Effect W Value);
  getMany : option (Value -> Effect W Value)
}.
Arguments mkService {W}.
Arguments getOne {W} s.
Arguments getMany {W} s.

Record Options (W : Type) : Type := mkOptions {
  validationSchema : option (ValidationSchema W);
  transformer : option (Value -> Effect W Value);
  service : option (Service W);
  beforeValidation : option (Value -> Effect W Value);
  beforeService : option (Value -> Effect W Value);
  afterServiceOne : option (Value -> string -> Effect W Value);
  afterServiceMany : option (Value -> Value -> Effect W Value);
  onErrorOne : option (Thrown -> string -> Effect W unit);
  onErrorMany : option (Thrown -> Value -> Effect W unit);
  onSuccessOne : option (Value -> string -> Effect W unit);
  onSuccessMany : option (Value -> Value -> Effect W unit);
  initialStateOne : option PartialOperationState;
  initialStateMany : option PartialOperationState
}.
Arguments mkOptions {W}.
Arguments validationSchema {W} o.
Arguments transformer {W} o.
Arguments service {W} o.
Arguments beforeValidation {W} o.
Arguments beforeService {W} o.
Arguments afterServiceOne {W} o.
Arguments afterServiceMany {W} o.
Arguments onErrorOne {W} o.
Arguments onErrorMany {W} o.
Arguments onSuccessOne {W} o.
Arguments onSuccessMany {W} o.
Arguments initialStateOne {W} o.
Arguments initialStateMany {W} o.

End Read.

(** [interface UseCRUDOptions] *)
Module Options.

Record t (W : Type) : Type := mk {
  create : option (OperationOptions W);
  update : option (OperationOptions W);
  delete : option (OperationOptions W);
  read : option (Read.Options W)
}.
Arguments mk {W}.
Arguments create {W} _.
Arguments update {W} _.
Arguments delete {W} _.
Arguments read {W} _.

End Options.

(** [interface CrudResult]: one entry per verb. [state] is what the next
    render reads from the cell. *)
Record Operation (W In : Type) : Type := mkOperation {
  state : Store -> OperationState;
  execute : In -> M W Value;
  reset : M W unit
}.
Arguments mkOperation {W In}.
Arguments state {W In} o st.
Arguments execute {W In} o i.
Arguments reset {W In} o.

Module Result.

Record ReadPair (W : Type) : Type := mkReadPair {
  one : Operation W (string * Value);
  many : Operation W Value
}.
Arguments mkReadPair {W}.
Arguments one {W} r.
Arguments many {W} r.

Record t (W : Type) : Type := mk {
  create : Operation W Value;
  update : Operation W Value;
  delete : Operation W Value;
  read : ReadPair W
}.
Arguments mk {W}.
Arguments create {W} _.
Arguments update {W} _.
Arguments delete {W} _.
Arguments read {W} _.

End Result.

(** ** useCRUD: the executors *)

Section UseCRUD.
Context {W : Type}.

(** *** [executeOperation], phase by phase *)

(** Phase 1: hook before validation. *)
Definition phase1 (opOptions : OperationOptions W) (data : Value) : M W Value :=
  match beforeValidation opOptions with
  | Some hook => call AtBeforeValidation [data] (hook data)
  | None => ret data
  end.

(** Phase 2: validation, with its own [try]/[catch]. *)
Definition phase2 (opOptions : OperationOptions W)
    (setState : OperationState -> M W unit) (processedData : Value) : M W Value :=
  match validationSchema opOptions with
  | Some schema =>
      tryCatch (call AtParse [processedData] (parse schema processedData))
        (fun validationError =>
           setState (errorState validationError) ;;;
           throw validationError)
  | None => ret processedData
  end.

(** Phase 3: [serviceData = processedData as unknown as TService], or the
    transformer's result. *)
Definition phase3 (opOptions : OperationOptions W) (processedData : Value) : M W Value :=
  match transformer opOptions with
  | Some f => call AtTransformer [processedData] (f processedData)
  | None => ret processedData
  end.

(** Phase 4: hook before service. *)
Definition phase4 (opOptions : OperationOptions W) (serviceData : Value) : M W Value :=
  match beforeService opOptions with
  | Some hook => call AtBeforeService [serviceData] (hook serviceData)
  | None => ret serviceData
  end.

(** Phase 5: the service call. *)
Definition phase5 (svc : Value -> Effect W Value) (serviceData : Value) : M W Value :=
  call AtService [serviceData] (svc serviceData).

(** Phase 6: result transformation. *)
Definition phase6 (opOptions : OperationOptions W) (serviceResult : Value) : M W Value :=
  match resultTransformer opOptions with
  | Some f => call AtResultTransformer [serviceResult] (f serviceResult)
  | None => ret serviceResult
  end.

(** Phase 7: hook after service. *)
Definition phase7 (opOptions : OperationOptions W) (result serviceData : Value) : M W Value :=
  match afterService opOptions with
  | Some hook => call AtAfterService [result; serviceData] (hook result serviceData)
  | None => ret result
  end.

(** Phase 8: the success state. *)
Definition phase8 (setState : OperationState -> M W unit) (result : Value) : M W unit :=
  setState (successState result).

(** Phase 9: hook on success. *)
Definition phase9 (opOptions : OperationOptions W) (result processedData : Value) : M W unit :=
  match onSuccess opOptions with
  | Some hook => call AtOnSuccess [result; processedData] (hook result processedData)
  | None => ret tt
  end.

(** The body of the outer [try]. *)
Definition tryBlock (opOptions : OperationOptions W) (svc : Value -> Effect W Value)
    (setState : OperationState -> M W unit) (data : Value) : M W Value :=
  let* processedData := phase1 opOptions data in
  let* processedData := phase2 opOptions setState processedData in
  let* serviceData := phase3 opOptions processedData in
  let* serviceData := phase4 opOptions serviceData in
  let* serviceResult := phase5 svc serviceData in
  let* result := phase6 opOptions serviceResult in
  let* result := phase7 opOptions result serviceData in
  phase8 setState result ;;;
  phase9 opOptions result processedData ;;;
  ret result.

(** The outer [catch (error)]. *)
Definition catchBlock (opOptions : OperationOptions W)
    (setState : OperationState -> M W unit) (data : Value) (error : Thrown) : M W Value :=
  setState (errorState error) ;;;
  match onError opOptions with
  | Some hook => callWithError AtOnError error data (hook error data)
  | None => ret tt
  end ;;;
  throw error.

Definition executeOperation (data : Value) (opOptions : option (OperationOptions W))
    (setState : OperationState -> M W unit) : M W Value :=
  match opOptions with
  | None => throw (JsError "Operation not configured")
  | Some opOptions =>
      match service opOptions with
      | None => throw (JsError "Operation not configured")
      | Some svc =>
          setState loadingState ;;;
          tryCatch (tryBlock opOptions svc setState data)
                   (catchBlock opOptions setState data)
      end
  end.

(** *** The read executors *)

(** Validation, transformation and [beforeService] of the read parameters;
    the same three statements open [executeReadOne] and [executeReadMany].
    Each is skipped when the parameters are falsy. *)
Definition readValidate (r : Read.Options W)
    (setState : OperationState -> M W unit) (processedParams : Value) : M W Value :=
  match Read.validationSchema r with
  | Some schema =>
      if truthy processedParams then
        tryCatch (call AtParse [processedParams] (parse schema processedParams))
          (fun validationError =>
             setState (errorState validationError) ;;;
             throw validationError)
      else ret processedParams
  | None => ret processedParams
  end.

Definition readTransform (r : Read.Options W) (processedParams : Value) : M W Value :=
  match Read.transformer r with
  | Some f =>
      if truthy processedParams
      then call AtTransformer [processedParams] (f processedParams)
      else ret processedParams
  | None => ret processedParams
  end.

Definition readBeforeService (r : Read.Options W) (processedParams : Value) : M W Value :=
  match Read.beforeService r with
  | Some hook =>
      if truthy processedParams
      then call AtBeforeService [processedParams] (hook processedParams)
      else ret processedParams
  | None => ret processedParams
  end.

Definition readOneTry (r : Read.Options W) (getOne : string -> Value -> Effect W Value)
    (id : string) (params : Value) : M W Value :=
  let* processedParams := readValidate r (setState ReadOne) params in
  let* processedParams := readTransform r processedParams in
  let* processedParams := readBeforeService r processedParams in
  let* result := call AtGetOne [VString id; processedParams] (getOne id processedParams) in
  let* processedResult :=
    match Read.afterServiceOne r with
    | Some hook => call AtAfterServiceOne [result; VString id] (hook result id)
    | None => ret result
    end in
  setState ReadOne (successState processedResult) ;;;
  match Read.onSuccessOne r with
  | Some hook => call AtOnSuccessOne [processedResult; VString id] (hook processedResult id)
  | None => ret tt
  end ;;;
  ret processedResult.

Definition readOneCatch (r : Read.Options W) (id : string) (error : Thrown) : M W Value :=
  setState ReadOne (errorState error) ;;;
  match Read.onErrorOne r with
  | Some hook => callWithError AtOnErrorOne error (VString id) (hook error id)
  | None => ret tt
  end ;;;
  throw error.

Definition executeReadOne (options : Options.t W) (id : string) (params : Value) : M W Value :=
  match Options.read options with
  | None => throw (JsError "Read operation not configured")
  | Some r =>
      match Read.service r with
      | None => throw (JsError "Read operation not configured")
      | Some s =>
          match Read.getOne s with
          | None => throw (JsError "Read operation not configured")
          | Some getOne =>
              setState ReadOne loadingState ;;;
              tryCatch (readOneTry r getOne id params) (readOneCatch r id)
          end
      end
  end.

Definition readManyTry (r : Read.Options W) (getMany : Value -> Effect W Value)
    (params : Value) : M W Value :=
  let* processedParams := readValidate r (setState ReadMany) params in
  let* processedParams := readTransform r processedParams in
  let* processedParams := readBeforeService r processedParams in
  let* result := call AtGetMany [processedParams] (getMany processedParams) in
  let* processedResult :=
    match Read.afterServiceMany r with
    | Some hook => call AtAfterServiceMany [result; processedParams] (hook result processedParams)
    | None => ret result
    end in
  setState ReadMany (successState processedResult) ;;;
  match Read.onSuccessMany r with
  | Some hook =>
      if truthy processedParams
      then call AtOnSuccessMany [processedResult; processedParams]
                (hook processedResult processedParams)
      else ret tt
  | None => ret tt
  end ;;;
  ret processedResult.

Definition readManyCatch (r : Read.Options W) (params : Value) (error : Thrown) : M W Value :=
  setState ReadMany (errorState error) ;;;
  match Read.onErrorMany r with
  | Some hook =>
      if truthy params
      then callWithError AtOnErrorMany error params (hook error params)
      else ret tt
  | None => ret tt
  end ;;;
  throw error.

Definition executeReadMany (options : Options.t W) (params : Value) : M W Value :=
  match Options.read options with
  | None => throw (JsError "Read many operation not configured")
  | Some r =>
      match Read.service r with
      | None => throw (JsError "Read many operation not configured")
      | Some s =>
          match Read.getMany s with
          | None => throw (JsError "Read many operation not configured")
          | Some getMany =>
              setState ReadMany loadingState ;;;
              tryCatch (readManyTry r getMany params) (readManyCatch r params)
          end
      end
  end.

(** *** [useCRUD] *)

(** The initial values given to the five [useState] calls. *)
Definition initialStore (options : Options.t W) : Store :=
  {| createState := spreadInitial (Options.create options ≫= initialState);
     updateState := spreadInitial (Options.update options ≫= initialState);
     deleteState := spreadInitial (Options.delete options ≫= initialState);
     readOneState := spreadInitial (Options.read options ≫= Read.initialStateOne);
     readManyState := spreadInitial (Options.read options ≫= Read.initialStateMany) |}.

(** The object [useCRUD] returns. A missing [params] is [VUndefined]. *)
Definition useCRUD (options : Options.t W) : Result.t W :=
  {| Result.create :=
       {| state := cell Create;
          execute := fun data => executeOperation data (Options.create options) (setState Create);
          reset := setState Create defaultState |};
     Result.update :=
       {| state := cell Update;
          execute := fun data => executeOperation data (Options.update options) (setState Update);
          reset := setState Update defaultState |};
     Result.delete :=
       {| state := cell Delete;
          execute := fun data => executeOperation data (Options.delete options) (setState Delete);
          reset := setState Delete defaultState |};
     Result.read :=
       {| Result.one :=
            {| state := cell ReadOne;
               execute := fun '(id, params) => executeReadOne options id params;
               reset := setState ReadOne defaultState |};
          Result.many :=
            {| state := cell ReadMany;
               execute := executeReadMany options;
               reset := setState ReadMany defaultState |} |} |}.

End UseCRUD.

(** ** createTypedCrud *)

(** Own-property lookup in an object literal. *)
Fixpoint lookupField (fields : list (string * Value)) (key : string) : Value :=
  match fields with
  | [] => VUndefined
  | (k, v) :: rest => if String.eqb k key then v else lookupField rest key
  end.

(** [v.key] for the keys the factory reads ([data], [meta]): a TypeError on
    [undefined] and [null], [undefined] where the key is missing. *)
Definition getProperty (v : Value) (key : string) : Outcome Value :=
  match v with
  | VUndefined | VNull => Threw JsTypeError
  | VObject fields => Returned (lookupField fields key)
  | _ => Returned VUndefined
  end.

Section Factories.
Context {W : Type}.

Definition getProp (v : Value) (key : string) : Effect W Value :=
  fun w => (getProperty v key, w).

(** The loop of [Array.prototype.map], left to right; a throwing callback
    ends it. *)
Fixpoint mapItems (f : Value -> Effect W Value) (items : list Value)
    : Effect W (list Value) :=
  match items with
  | [] => ret []
  | item :: rest =>
      let* item' := f item in
      let* rest' := mapItems f rest in
      ret (item' :: rest')
  end.

(** [v.map(f)]: only arrays have [map]. The callback is declared with one
    parameter and is given the element. *)
Definition arrayMap (v : Value) (f : Value -> Effect W Value) : Effect W Value :=
  match v with
  | VArray items => let* items' := mapItems f items in ret (VArray items')
  | _ => throw JsTypeError
  end.

(** The argument [transformOptions] of [createTypedCrud]. *)
Record TransformOptions : Type := mkTransformOptions {
  infraEntityToUI : Value -> Effect W Value;
  uiEntityToInfra : option (Value -> Effect W Value);
  infraReadManyToUI : option (Value -> Effect W Value)
}.

Definition transformEntityToUI (transformOptions : TransformOptions)
    : Value -> Effect W Value :=
  infraEntityToUI transformOptions.

Definition transformReadManyResult (transformOptions : TransformOptions)
    (result : Value) : Effect W Value :=
  match infraReadManyToUI transformOptions with
  | Some g => g result
  | None =>
      let* d := getProp result "data" in
      let* d' := arrayMap d (transformEntityToUI transformOptions) in
      let* m := getProp result "meta" in
      ret (VObject [("data", d'); ("meta", m)])
  end.

(** [createOptions] and [updateOptions]: the spread of the caller's
    options with [resultTransformer] and [afterService] replaced. *)
Definition typedWriteOptions (transformOptions : TransformOptions)
    (o : OperationOptions W) : OperationOptions W :=
  {| validationSchema := validationSchema o;
     transformer := transformer o;
     resultTransformer := Some (transformEntityToUI transformOptions);
     service := service o;
     beforeValidation := beforeValidation o;
     beforeService := beforeService o;
     afterService :=
       match afterService o with
       | Some hook =>
           Some (fun result originalData =>
                   let* transformedResult := transformEntityToUI transformOptions result in
                   hook transformedResult originalData)
       | None =>
           Some (fun result _ => transformEntityToUI transformOptions result)
       end;
     onError := onError o;
     onSuccess := onSuccess o;
     initialState := initialState o |}.

(** [readOptions]: the spread of the caller's read options with
    [afterServiceOne] and [afterServiceMany] replaced. *)
Definition typedReadOptions (transformOptions : TransformOptions)
    (r : Read.Options W) : Read.Options W :=
  {| Read.validationSchema := Read.validationSchema r;
     Read.transformer := Read.transformer r;
     Read.service := Read.service r;
     Read.beforeValidation := Read.beforeValidation r;
     Read.beforeService := Read.beforeService r;
     Read.afterServiceOne :=
       Some (fun result id =>
               let* transformedResult := transformEntityToUI transformOptions result in
               match Read.onSuccessOne r with
               | Some hook => hook transformedResult id
               | None => ret tt
               end ;;;
               ret transformedResult);
     Read.afterServiceMany :=
       Some (fun result params =>
               let* transformedResult := transformReadManyResult transformOptions result in
               match Read.onSuccessMany r with
               | Some hook => hook transformedResult params
               | None => ret tt
               end ;;;
               ret transformedResult);
     Read.onErrorOne := Read.onErrorOne r;
     Read.onErrorMany := Read.onErrorMany r;
     Read.onSuccessOne := Read.onSuccessOne r;
     Read.onSuccessMany := Read.onSuccessMany r;
     Read.initialStateOne := Read.initialStateOne r;
     Read.initialStateMany := Read.initialStateMany r |}.

Definition typedOptions (transformOptions : TransformOptions)
    (options : Options.t W) : Options.t W :=
  {| Options.create := typedWriteOptions transformOptions <$> Options.create options;
     Options.update := typedWriteOptions transformOptions <$> Options.update options;
     Options.delete := Options.delete options;
     Options.read := typedReadOptions transformOptions <$> Options.read options |}.

Definition createTypedCrud (transformOptions : TransformOptions)
    (options : Options.t W) : Result.t W :=
  useCRUD (typedOptions transformOptions options).

End Factories.
Arguments TransformOptions W : clear implicits.
Arguments mkTransformOptions {W}.

(** ** CrudService *)

Module CrudService.

Module Api.
Record t (W : Type) : Type := mk {
  create : option (Value -> Effect W Value);
  update : option (Value -> Effect W Value);
  delete : option (Value -> Effect W Value);
  getMany : option (Value -> Effect W Value)
}.
Arguments mk {W}.
Arguments create {W} _.
Arguments update {W} _.
Arguments delete {W} _.
Arguments getMany {W} _.
End Api.

Record Transformers (W : Type) : Type := mkTransformers {
  createDtoToEntity : option (Value -> Effect W Value);
  updateDtoToEntity : option (Value -> Effect W Value);
  deleteDtoToEntity : option (Value -> Effect W Value);
  readParamsToQuery : option (Value -> Effect W Value)
}.
Arguments mkTransformers {W}.
Arguments createDtoToEntity {W} _.
Arguments updateDtoToEntity {W} _.
Arguments deleteDtoToEntity {W} _.
Arguments readParamsToQuery {W} _.

(** The fields of the class. *)
Record t (W : Type) : Type := new {
  entityName : string;
  api : Api.t W;
  transformers : option (Transformers W)
}.
Arguments new {W}.
Arguments entityName {W} _.
Arguments api {W} _.
Arguments transformers {W} _.

Section Methods.
Context {W : Type}.

(** The shape shared by [create], [update] and [delete]: the guard on
    the API function, the optional DTO transformer, the API call. The
    [catch] logs and rethrows the same error; logging is left out. *)
Definition write (verbName : string) (this : t W)
    (apiFn : option (Value -> Effect W Value))
    (dtoToEntity : option (Value -> Effect W Value))
    (data : Value) : Effect W Value :=
  match apiFn with
  | None => throw (JsError (verbName ++ " API not implemented for " ++ entityName this))
  | Some f =>
      let* entityData :=
        match dtoToEntity with
        | Some g => g data
        | None => ret data
        end in
      f entityData
  end.

Definition create (this : t W) (data : Value) : Effect W Value :=
  write "Create" this (Api.create (api this))
        (transformers this ≫= createDtoToEntity) data.

Definition update (this : t W) (data : Value) : Effect W Value :=
  write "Update" this (Api.update (api this))
        (transformers this ≫= updateDtoToEntity) data.

Definition delete (this : t W) (data : Value) : Effect W Value :=
  write "Delete" this (Api.delete (api this))
        (transformers this ≫= deleteDtoToEntity) data.

Definition getMany (this : t W) (params : Value) : Effect W Value :=
  match Api.getMany (api this) with
  | None => throw (JsError ("GetMany API not implemented for " ++ entityName this))
  | Some f =>
      let* queryParams :=
        match transformers this ≫= readParamsToQuery with
        | Some g => if truthy params then g params else ret params
        | None => ret params
        end in
      f queryParams
  end.

End Methods.

End CrudService.

(** ** validation.ts: the other entry points *)

(** What the schema library's [safeParse] returns: [{success: true, data}]
    or [{success: false, error}] with [error] a [ZodError]. *)
Inductive ZodSafeParseReturn : Type :=
| ZodSuccess (data : Value)
| ZodFailure (issues : list Zod.Issue).

(** The three methods of a Zod schema the file calls. *)
Module ZodType.

Record t (W : Type) : Type := mk {
  parse : Value -> Effect W Value;
  parseAsync : Value -> Effect W Value;
  safeParse : Value -> Effect W ZodSafeParseReturn
}.
Arguments mk {W}.
Arguments parse {W} _.
Arguments parseAsync {W} _.
Arguments safeParse {W} _.

End ZodType.

(** What the adapter's [safeParse] returns. *)
Inductive SafeParseResult : Type :=
| SafeSuccess (data : Value)
| SafeFailure (error : ValidationError).

(** [createZodValidationSchema(schema).parseAsync] and [.safeParse]. *)
Module ZodAdapter.

Definition parseAsync {W : Type} (schema : ZodType.t W) : Value -> Effect W Value :=
  fun data w =>
    match ZodType.parseAsync schema data w with
    | (Returned v, w') => (Returned v, w')
    | (Threw (ZodError issues), w') =>
        (Threw (ValidationFailure (toValidationError issues)), w')
    | (Threw error, w') => (Threw error, w')
    end.

Definition safeParse {W : Type} (schema : ZodType.t W)
    : Value -> Effect W SafeParseResult :=
  fun data =>
    let* result := ZodType.safeParse schema data in
    match result with
    | ZodSuccess d => ret (SafeSuccess d)
    | ZodFailure issues => ret (SafeFailure (toValidationError issues))
    end.

End ZodAdapter.

(** *** [createValidator] *)

(** The argument [schemas]; [fields] is a record from field names to
    schemas. *)
Record ValidatorSchemas (W : Type) : Type := mkValidatorSchemas {
  submit : option (ZodType.t W);
  live : option (ZodType.t W);
  fields : option (gmap string (ZodType.t W))
}.
Arguments mkValidatorSchemas {W}.
Arguments submit {W} _.
Arguments live {W} _.
Arguments fields {W} _.

(** What [validateSubmit] and [toValidationSchema] throw: a plain throw, or
    the [Error("Validation failed")] that carries the record [errors]. *)
Inductive ValidatorThrown : Type :=
| Plain (t : Thrown)
| FailedWith (errors : gmap string string).

(** The body of the [forEach] of [validateSubmit]:
    [errors[err.path[0] as string] = err.message] for a non-empty path. *)
Definition forEachSubmitIssue (errs : gmap string string) (err : Zod.Issue)
    : gmap string string :=
  match Zod.path err with
  | seg :: _ => assignKey (segmentToString seg) (Zod.message err) errs
  | [] => errs
  end.

Definition validateSubmit {W : Type} (schemas : ValidatorSchemas W) (data : Value)
    : W -> (Value + ValidatorThrown) * W :=
  fun w =>
    match submit schemas with
    | None => (inr (Plain (JsError "Submit validation schema not defined")), w)
    | Some schema =>
        match ZodType.parse schema data w with
        | (Returned v, w') => (inl v, w')
        | (Threw (ZodError issues), w') =>
            (inr (FailedWith (fold_left forEachSubmitIssue issues ∅)), w')
        | (Threw error, w') => (inr (Plain error), w')
        end
    end.

(** [error.errors[0]?.message || ""] *)
Definition firstMessage (issues : list Zod.Issue) : string :=
  match issues with
  | iss :: _ => Zod.message iss
  | [] => ""
  end.

(** [err.path.length > 0 && err.path[0] === field] *)
Definition concernsField (field : string) (err : Zod.Issue) : bool :=
  match Zod.path err with
  | Key s :: _ => String.eqb s field
  | _ => false
  end.

(** [error.errors.find(...)?.message || ""] *)
Definition fieldMessage (field : string) (issues : list Zod.Issue) : string :=
  match List.find (concernsField field) issues with
  | Some iss => Zod.message iss
  | None => ""
  end.

(** The property names every plain object inherits from
    [Object.prototype]. *)
Definition objectPrototypeMembers : list string :=
  [ "constructor"; "__defineGetter__"; "__defineSetter__"; "hasOwnProperty";
    "__lookupGetter__"; "__lookupSetter__"; "isPrototypeOf";
    "propertyIsEnumerable"; "toString"; "valueOf"; "__proto__";
    "toLocaleString" ].

(** What [schemas.fields && schemas.fields[field]] finds in the plain object
    [fields]: the schema stored under [field], or else a member inherited
    from [Object.prototype] (a function or the prototype itself: truthy, and
    without a [parse] method), or nothing. *)
Inductive FieldSchema (W : Type) : Type :=
| OwnSchema (schema : ZodType.t W)
| InheritedMember
| NoSchema.
Arguments OwnSchema {W} schema.
Arguments InheritedMember {W}.
Arguments NoSchema {W}.

Definition fieldSchema {W : Type} (schemas : ValidatorSchemas W) (field : string)
    : FieldSchema W :=
  match fields schemas with
  | None => NoSchema
  | Some fs =>
      match fs !! field with
      | Some schema => OwnSchema schema
      | None =>
          if bool_decide (field ∈ objectPrototypeMembers)
          then InheritedMember
          else NoSchema
      end
  end.

(** [validateField(field, value)]: the field's own schema when there is one,
    otherwise the live schema on [{ [field]: value }], otherwise [""]. On an
    inherited member the call of [parse] raises a TypeError inside the [try],
    which the [catch] turns into the message for an unknown error. *)
Definition validateField {W : Type} (schemas : ValidatorSchemas W)
    (field : string) (value : Value) : Effect W string :=
  fun w =>
    match fieldSchema schemas field with
    | OwnSchema schema =>
        match ZodType.parse schema value w with
        | (Returned _, w') => (Returned "", w')
        | (Threw (ZodError issues), w') => (Returned (firstMessage issues), w')
        | (Threw _, w') => (Returned "Erreur inconnue", w')
        end
    | InheritedMember => (Returned "Erreur inconnue", w)
    | NoSchema =>
        match live schemas with
        | Some schema =>
            match ZodType.parse schema (VObject [(field, value)]) w with
            | (Returned _, w') => (Returned "", w')
            | (Threw (ZodError issues), w') => (Returned (fieldMessage field issues), w')
            | (Threw _, w') => (Returned "Erreur inconnue", w')
            end
        | None => (Returned "", w)
        end
    end.

(** [toValidationSchema()] *)
Definition toValidationSchema {W : Type} (schemas : ValidatorSchemas W)
    : ValidatorThrown + ValidationSchema W :=
  match submit schemas with
  | None => inl (Plain (JsError "Submit validation schema not defined"))
  | Some schema => inr (createZodValidationSchema (ZodType.parse schema))
  end.

(** ** CrudService: getOne *)

(** The own enumerable properties a spread [{...v}] copies: the fields of an
    object, the indexed elements of an array, the indexed characters of a
    string, nothing for the other values. *)
Definition ownProperties (v : Value) : list (string * Value) :=
  match v with
  | VObject fs => fs
  | VArray items => imap (fun i item => (pretty i, item)) items
  | VString s =>
      imap (fun i c => (pretty i, VString (String c EmptyString)))
           (list_ascii_of_string s)
  | _ => []
  end.

(** Writing [key: v] after a spread: an existing key keeps its place and
    takes the new value, a new key comes last. *)
Fixpoint setField (key : string) (v : Value) (fs : list (string * Value))
    : list (string * Value) :=
  match fs with
  | [] => [(key, v)]
  | (k, x) :: rest =>
      if String.eqb k key then (k, v) :: rest else (k, x) :: setField key v rest
  end.

(** [{ ...params, id }] *)
Definition spreadWithId (params : Value) (id : string) : Value :=
  VObject (setField "id" (VString id) (ownProperties params)).

Module CrudServiceRead.

(** [CrudService.getOne]; [apiGetOne] is [this.api.getOne]. As in the other
    methods, the [catch] logs and rethrows, and logging is left out. *)
Definition getOne {W : Type} (this : CrudService.t W)
    (apiGetOne : option (string -> Value -> Effect W Value))
    (id : string) (params : Value) : Effect W Value :=
  match apiGetOne with
  | None =>
      throw (JsError ("GetOne API not implemented for " ++ CrudService.entityName this))
  | Some f =>
      let* queryParams :=
        match CrudService.transformers this ≫= CrudService.readParamsToQuery with
        | Some g => if truthy params then g (spreadWithId params id) else ret params
        | None => ret params
        end in
      f id queryParams
  end.

End CrudServiceRead.

(** * Properties

    First the notions the statements use and the concrete inputs they are
    tried on, then the lemmas and theorems. *)

(** ** Notions and inputs: the validation adapter *)

(** A field-level failure is one that names a field: its path is not empty. *)
Definition fieldLevel (iss : Zod.Issue) : bool := (0 <? length (Zod.path iss))%nat.

(** The path of the first field-level failure, [[]] when there is none. *)
Definition firstFieldPath (issues : list Zod.Issue) : list PathSegment :=
  match List.find fieldLevel issues with
  | Some iss => Zod.path iss
  | None => []
  end.

(** The message of the last field-level failure whose joined path is [key]. *)
Definition lastMessageAt (key : string) (issues : list Zod.Issue) : option string :=
  Zod.message <$>
    last (List.filter (fun iss => fieldLevel iss && String.eqb (join (Zod.path iss)) key) issues).

(** A key under which an assignment to a plain record stores its value:
    every key but [__proto__]. *)
Definition storable (key : string) : bool := negb (String.eqb key "__proto__").

(** The reading of the adapter's rule in which every field-level failure
    finds its own message under its joined path. *)
Definition everyFailureRecorded (issues : list Zod.Issue) (errs : gmap string string) : Prop :=
  forall iss, iss ∈ issues -> Zod.path iss <> [] ->
    errs !! join (Zod.path iss) = Some (Zod.message iss).

(** Two failures on the same field, as a schema with two checks reports
    them. *)
Definition twoFailuresOneField : list Zod.Issue :=
  [ Zod.mkIssue [Key "email"] "Too short";
    Zod.mkIssue [Key "email"] "Invalid email" ].

(** ** Notions and inputs: the orchestrator *)

(** A verb is configured when the guard at the head of its executor lets the
    call through: its options and its service function were supplied. *)
Definition supplied {A : Type} (o : option A) : bool :=
  match o with Some _ => true | None => false end.

Definition operationConfigured {W : Type} (opOptions : option (OperationOptions W)) : bool :=
  match opOptions with
  | Some o => supplied (service o)
  | None => false
  end.

Definition configured {W : Type} (options : Options.t W) (v : Verb) : bool :=
  match v with
  | Create => operationConfigured (Options.create options)
  | Update => operationConfigured (Options.update options)
  | Delete => operationConfigured (Options.delete options)
  | ReadOne =>
      match Options.read options with
      | Some r =>
          match Read.service r with
          | Some s => supplied (Read.getOne s)
          | None => false
          end
      | None => false
      end
  | ReadMany =>
      match Options.read options with
      | Some r =>
          match Read.service r with
          | Some s => supplied (Read.getMany s)
          | None => false
          end
      | None => false
      end
  end.

(** [crud.<verb>.execute]; [id] is only used by read-one. *)
Definition executeVerb {W : Type} (crud : Result.t W) (v : Verb)
    (id : string) (input : Value) : M W Value :=
  match v with
  | Create => execute (Result.create crud) input
  | Update => execute (Result.update crud) input
  | Delete => execute (Result.delete crud) input
  | ReadOne => execute (Result.one (Result.read crud)) (id, input)
  | ReadMany => execute (Result.many (Result.read crud)) input
  end.

(** [crud.<verb>.reset] *)
Definition resetVerb {W : Type} (crud : Result.t W) (v : Verb) : M W unit :=
  match v with
  | Create => reset (Result.create crud)
  | Update => reset (Result.update crud)
  | Delete => reset (Result.delete crud)
  | ReadOne => reset (Result.one (Result.read crud))
  | ReadMany => reset (Result.many (Result.read crud))
  end.

(** [crud.<verb>.state] *)
Definition stateOf {W : Type} (crud : Result.t W) (v : Verb) : Store -> OperationState :=
  match v with
  | Create => state (Result.create crud)
  | Update => state (Result.update crud)
  | Delete => state (Result.delete crud)
  | ReadOne => state (Result.one (Result.read crud))
  | ReadMany => state (Result.many (Result.read crud))
  end.

(** A world before any call: the cells hold their initial values. *)
Definition initialWorld {W : Type} (options : Options.t W) (x : W) : World W :=
  mkWorld (initialStore options) x [].

(** Lifting a function without effects to a caller-supplied computation. *)
Definition pure {W : Type} (f : Value -> Value) : Value -> Effect W Value :=
  fun v => ret (f v).

(** Options with only a service function. *)
Definition onlyService {W : Type} (svc : Value -> Effect W Value) : OperationOptions W :=
  mkOperationOptions None None None (Some svc) None None None None None None.

(** A backend that answers every call with its argument. *)
Definition echo : Value -> Effect unit Value := pure (fun v => v).

(** Only [create] is configured. *)
Definition createOnly : Options.t unit :=
  Options.mk (Some (onlyService echo)) None None None.

#[global] Instance CallSite_eq_dec : EqDecision CallSite.
Proof. solve_decision. Defined.

(** The event is a call made at [site]. *)
Definition mentions (site : CallSite) (ev : Event) : bool :=
  match ev with
  | StateSet _ _ => false
  | Call s _ => bool_decide (s = site)
  | CallWithError s _ _ => bool_decide (s = site)
  end.

(** Whatever the outcome, the run only adds events that satisfy [P]. *)
Definition emitsOnly {W A : Type} (P : Event -> Prop) (m : M W A) : Prop :=
  forall w o w', m w = (o, w') ->
    exists evs, trace w' = trace w ++ evs /\ Forall P evs.

(** Whatever the outcome, the run leaves the cells as they were. *)
Definition keepsStore {W A : Type} (m : M W A) : Prop :=
  forall w o w', m w = (o, w') -> store w' = store w.

(** A terminal state that matches the way the call settled. *)
Definition settledIn {A : Type} (o : Outcome A) (s : OperationState)
    (dataOf : A -> Value) : Prop :=
  match o with
  | Returned r => s = successState (dataOf r)
  | Threw _ => exists e, s = errorState e
  end.

(** The world right after the executor has written the loading state. *)
Definition afterLoading {W : Type} (v : Verb) (w : World W) : World W :=
  mkWorld (setCell v loadingState (store w)) (ext w)
          (trace w ++ [StateSet v loadingState]).

(** The message of the configuration error of each executor. *)
Definition notConfiguredMessage (v : Verb) : string :=
  match v with
  | Create | Update | Delete => "Operation not configured"
  | ReadOne => "Read operation not configured"
  | ReadMany => "Read many operation not configured"
  end.

(** The name of a verb, as the options and the result spell it. *)
Definition verbName (v : Verb) : string :=
  match v with
  | Create => "create"
  | Update => "update"
  | Delete => "delete"
  | ReadOne => "getOne"
  | ReadMany => "getMany"
  end.

Definition lowerAscii (c : Ascii.ascii) : Ascii.ascii :=
  let n := Ascii.nat_of_ascii c in
  if ((65 <=? n) && (n <=? 90))%nat then Ascii.ascii_of_nat (n + 32) else c.

Fixpoint lower (s : string) : string :=
  match s with
  | EmptyString => EmptyString
  | String c rest => String (lowerAscii c) (lower rest)
  end.

(** [needle] occurs in [hay], whatever the case of the letters. *)
Definition occursIn (needle hay : string) : bool :=
  match String.index 0 (lower needle) (lower hay) with
  | Some _ => true
  | None => false
  end.

(** A message names a verb when the verb's name occurs in it. *)
Definition namesVerb (msg : string) (v : Verb) : bool := occursIn (verbName v) msg.

(** Create options with the initial override [{ data: [] }]. *)
Definition startsWithEmptyList : Options.t unit :=
  Options.mk
    (Some (mkOperationOptions None None None (Some echo) None None None None None
             (Some (mkPartial None None None (Some (VArray []))))))
    None None None.

(** Phases 1 to 8 of [tryBlock]: the pipeline up to the write of the success
    state, with the result and the validated input it hands to phase 9. *)
Definition throughPhase8 {W : Type} (opOptions : OperationOptions W)
    (svc : Value -> Effect W Value) (setSt : OperationState -> M W unit)
    (data : Value) : M W (Value * Value) :=
  let* processedData := phase1 opOptions data in
  let* processedData := phase2 opOptions setSt processedData in
  let* serviceData := phase3 opOptions processedData in
  let* serviceData := phase4 opOptions serviceData in
  let* serviceResult := phase5 svc serviceData in
  let* result := phase6 opOptions serviceResult in
  let* result := phase7 opOptions result serviceData in
  phase8 setSt result ;;;
  ret (result, processedData).

(** The events of the outer [catch] for the caught value [e]. *)
Definition catchEvents {W : Type} (opOptions : OperationOptions W) (v : Verb)
    (data : Value) (e : Thrown) : list Event :=
  StateSet v (errorState e) ::
  match onError opOptions with
  | Some _ => [CallWithError AtOnError e data]
  | None => []
  end.

(** How the outer [catch] ends for the caught value [e], from the outside
    world [x]: it rethrows [e], unless [onError] throws something itself. *)
Definition catchOutcome {W : Type} (opOptions : OperationOptions W)
    (data : Value) (e : Thrown) (x : W) (t : Thrown) (x' : W) : Prop :=
  match onError opOptions with
  | None => t = e /\ x' = x
  | Some hook =>
      (hook e data x = (Returned tt, x') /\ t = e)
      \/ hook e data x = (Threw t, x')
  end.

Definition boom : Thrown := JsError "boom".

(** Create options whose [onSuccess] throws; [onError] is configured. *)
Definition failingOnSuccess : Options.t unit :=
  Options.mk
    (Some (mkOperationOptions None None None (Some echo) None None None
             (Some (fun _ _ => ret tt))
             (Some (fun _ _ => throw boom))
             None))
    None None None.

(** A schema that rejects everything with the uniform error. *)
Definition invalid : ValidationError :=
  mkValidationError "Validation failed" (Some [Key "name"])
    (Some {[ "name" := "Required" ]}) None.

Definition rejecting : ValidationSchema unit :=
  mkValidationSchema (fun _ => throw (ValidationFailure invalid)).

(** Create options with a rejecting schema and an [onError] hook. *)
Definition rejectingCreate : Options.t unit :=
  Options.mk
    (Some (mkOperationOptions (Some rejecting) None None (Some echo) None None None
             (Some (fun _ _ => ret tt)) None None))
    None None None.

(** The argument lists of the calls made at [site], in order. *)
Fixpoint callsAt (site : CallSite) (evs : list Event) : list (list Value) :=
  match evs with
  | [] => []
  | Call s args :: rest =>
      if bool_decide (s = site) then args :: callsAt site rest else callsAt site rest
  | _ :: rest => callsAt site rest
  end.

(** Phases 6 to 9 of [tryBlock]: what follows the service call. *)
Definition fromPhase6 {W : Type} (opOptions : OperationOptions W)
    (setSt : OperationState -> M W unit)
    (serviceResult serviceData processedData : Value) : M W Value :=
  let* result := phase6 opOptions serviceResult in
  let* result := phase7 opOptions result serviceData in
  phase8 setSt result ;;;
  phase9 opOptions result processedData ;;;
  ret result.

(** What follows the backend call in [readManyTry]. *)
Definition afterGetMany {W : Type} (r : Read.Options W)
    (result processedParams : Value) : M W Value :=
  let* processedResult :=
    match Read.afterServiceMany r with
    | Some hook => call AtAfterServiceMany [result; processedParams] (hook result processedParams)
    | None => ret result
    end in
  setState ReadMany (successState processedResult) ;;;
  match Read.onSuccessMany r with
  | Some hook =>
      if truthy processedParams
      then call AtOnSuccessMany [processedResult; processedParams]
                (hook processedResult processedParams)
      else ret tt
  | None => ret tt
  end ;;;
  ret processedResult.

Definition namedA : Value := VObject [("name", VString "a")].

(** The query of the specification's example:
    [{pagination:{page:2,limit:10}, sort:[{field:"name",direction:"asc"}]}]. *)
Definition pageTwo : Value :=
  VObject [("pagination", VObject [("page", VNumber 2); ("limit", VNumber 10)]);
           ("sort", VArray [VObject [("field", VString "name");
                                     ("direction", VString "asc")]])].

(** Create and read-many with a service function only. *)
Definition plain : Options.t unit :=
  Options.mk (Some (onlyService echo)) None None
    (Some (Read.mkOptions None None (Some (Read.mkService None (Some echo)))
             None None None None None None None None None None)).

(** No transformer, but a [beforeService] hook that stamps the payload. *)
Definition stamping : Options.t unit :=
  Options.mk
    (Some (mkOperationOptions None None None (Some echo) None
             (Some (pure (fun d => match d with
                                   | VObject fields => VObject (fields ++ [("stamped", VBoolean true)])
                                   | _ => d
                                   end)))
             None None None None))
    None None None.

(** Read options whose notifiers are both configured; the backend answers
    with its argument, or fails. *)
Definition notifying (getMany : Value -> Effect unit Value) : Options.t unit :=
  Options.mk None None None
    (Some (Read.mkOptions None None (Some (Read.mkService None (Some getMany)))
             None None None None None
             (Some (fun _ _ => ret tt)) None (Some (fun _ _ => ret tt)) None None)).

(** The three parameter steps that open [readManyTry]. *)
Definition readManyParams {W : Type} (r : Read.Options W) (params : Value) : M W Value :=
  let* processedParams := readValidate r (setState ReadMany) params in
  let* processedParams := readTransform r processedParams in
  readBeforeService r processedParams.

(** The caller's [onSuccessMany], when there is one, returns normally on
    this result and these parameters. *)
Definition notifierReturns {W : Type} (r : Read.Options W) (ui pp : Value) : Prop :=
  match Read.onSuccessMany r with
  | None => True
  | Some hook => forall x, exists x', hook ui pp x = (Returned tt, x')
  end.

(** [n => n + 1] on numbers. *)
Definition increment (v : Value) : Value :=
  match v with
  | VNumber n => VNumber (n + 1)
  | _ => v
  end.

(** [createTypedCrud({ infraEntityToUI: increment })] *)
Definition counting : TransformOptions unit :=
  mkTransformOptions (pure increment) None None.

(** Create options whose backend resolves with [R]. *)
Definition answering (R : Value) : Options.t unit :=
  Options.mk (Some (onlyService (pure (fun _ => R)))) None None None.

(** A page of two entities with its metadata. *)
Definition twoOfTwo : Value :=
  VObject [("data", VArray [VNumber 1; VNumber 5]);
           ("meta", VObject [("total", VNumber 2)])].

(** Read options whose backend resolves with [R]. *)
Definition answeringService (R : Value) : Read.Service unit :=
  Read.mkService None (Some (pure (fun _ => R))).

Definition listingRead (R : Value) : Read.Options unit :=
  Read.mkOptions None None (Some (answeringService R))
    None None None None None None None None None None.

Definition listing (R : Value) : Options.t unit :=
  Options.mk None None None (Some (listingRead R)).

(** ** Notions and inputs: the other validation entry points *)

(** The message of the last field-level failure whose first path segment,
    as a key, is [key]. *)
Definition lastMessageUnder (key : string) (issues : list Zod.Issue) : option string :=
  Zod.message <$>
    last (List.filter (fun iss => match Zod.path iss with
                                  | seg :: _ => String.eqb (segmentToString seg) key
                                  | [] => false
                                  end) issues).

(** A schema that fails on everything with [issues], through [parse],
    [parseAsync] and [safeParse] alike. *)
Definition failingWith (issues : list Zod.Issue) : ZodType.t unit :=
  ZodType.mk (fun _ => throw (ZodError issues))
             (fun _ => throw (ZodError issues))
             (fun _ => ret (ZodFailure issues)).

(** Two failures below the same top-level field. *)
Definition twoFailuresBelowAddress : list Zod.Issue :=
  [ Zod.mkIssue [Key "address"; Key "street"] "Street is required";
    Zod.mkIssue [Key "address"; Key "city"] "City is required" ].

(** ** Notions and inputs: CrudService *)

(** The query transformer of the service is out of play for these
    parameters: none is configured, or the parameters are falsy. *)
Definition queryUntransformed {W : Type} (this : CrudService.t W) (params : Value) : Prop :=
  CrudService.transformers this ≫= CrudService.readParamsToQuery = None
  \/ truthy params = false.

(** A service for tasks whose query transformer returns its argument. *)
Definition taskService : CrudService.t unit :=
  CrudService.new "Task"
    (CrudService.Api.mk (Some echo) (Some echo) (Some echo) (Some echo))
    (Some (CrudService.mkTransformers None None None (Some echo))).

(** Parameters that carry an [id] of their own. *)
Definition withOwnId : Value :=
  VObject [("id", VString "other"); ("includes", VArray [VString "owner"])].

(** ** Notions and inputs: state writes *)

(** Whatever the outcome, the run leaves the cells of the other verbs as
    they were. *)
Definition confined {W A : Type} (v : Verb) (m : M W A) : Prop :=
  forall w o w', m w = (o, w') ->
    forall v', v' <> v -> cell v' (store w') = cell v' (store w).

(** The event is no state write, or it writes a non-loading state to the
    cell of [v]. *)
Definition ownTerminalWrite (v : Verb) (ev : Event) : Prop :=
  match ev with
  | StateSet v' s => v' = v /\ loading s = false
  | _ => True
  end.

(** The invariants of [OperationState]: a loading state has no outcome,
    success and an error exclude each other, and there is data only on
    success. *)
Definition coherent (s : OperationState) : Prop :=
  (loading s = true -> success s = false /\ error s = None /\ data s = VNull)
  /\ (success s = true -> error s = None)
  /\ (data s <> VNull -> success s = true).

(** The event is no state write, or it writes a coherent state. *)
Definition coherentWrite (ev : Event) : Prop :=
  match ev with
  | StateSet _ s => coherent s
  | _ => True
  end.

(** Whatever the outcome, the run keeps the property [I] of the cells. *)
Definition maintains {W A : Type} (I : Store -> Prop) (m : M W A) : Prop :=
  forall w o w', m w = (o, w') -> I (store w) -> I (store w').

#[global] Instance Verb_eq_dec : EqDecision Verb.
Proof. solve_decision. Defined.

(** Every cell holds a coherent state. *)
Definition storeCoherent (st : Store) : Prop := forall v, coherent (cell v st).

(** ** Notions and inputs: runs of the pipeline *)

(** Phases 1 to 4 of [tryBlock]: the pipeline up to the service call, with
    the payload for the service and the validated input. *)
Definition throughPhase4 {W : Type} (opOptions : OperationOptions W)
    (setSt : OperationState -> M W unit) (data : Value) : M W (Value * Value) :=
  let* processedData := phase1 opOptions data in
  let* processedData := phase2 opOptions setSt processedData in
  let* serviceData := phase3 opOptions processedData in
  let* serviceData := phase4 opOptions serviceData in
  ret (serviceData, processedData).

(** Options whose hooks are functions without effects that do not throw;
    no notifier is configured. *)
Definition pureOptions {W : Type}
    (beforeValidationFn parseFn transformerFn beforeServiceFn : option (Value -> Value))
    (serviceFn : Value -> Value)
    (resultTransformerFn : option (Value -> Value))
    (afterServiceFn : option (Value -> Value -> Value)) : OperationOptions W :=
  {| validationSchema := (fun f => mkValidationSchema (pure f)) <$> parseFn;
     transformer := pure <$> transformerFn;
     resultTransformer := pure <$> resultTransformerFn;
     service := Some (pure serviceFn);
     beforeValidation := pure <$> beforeValidationFn;
     beforeService := pure <$> beforeServiceFn;
     afterService := (fun f result d => ret (f result d)) <$> afterServiceFn;
     onError := None;
     onSuccess := None;
     initialState := None |}.

(** The step of an optional function: the function when there is one,
    nothing otherwise. *)
Definition step (h : option (Value -> Value)) (x : Value) : Value :=
  match h with
  | Some f => f x
  | None => x
  end.

(** The event of an optional hook: recorded when there is one. *)
Definition whenSome {A : Type} (h : option A) (ev : Event) : list Event :=
  match h with
  | Some _ => [ev]
  | None => []
  end.

(** Options whose backend rejects and whose [onError] throws in turn. *)
Definition doublyFailing : Options.t unit :=
  Options.mk
    (Some (mkOperationOptions None None None (Some (fun _ => throw boom)) None None None
             (Some (fun _ _ => throw (JsError "while reporting"))) None None))
    None None None.

(** Read options with both read-one notifiers; the backend answers with
    its parameters. *)
Definition notifyingOne : Options.t unit :=
  Options.mk None None None
    (Some (Read.mkOptions None None (Some (Read.mkService (Some (fun _ => echo)) None))
             None None None None
             (Some (fun _ _ => ret tt)) None (Some (fun _ _ => ret tt)) None None None)).

(** ** Notions and inputs: the typed factory *)

(** Phases 1 to 5 of [tryBlock]: the pipeline up to the backend's answer,
    with the raw result, the payload and the validated input. *)
Definition throughPhase5 {W : Type} (opOptions : OperationOptions W)
    (svc : Value -> Effect W Value) (setSt : OperationState -> M W unit)
    (data : Value) : M W (Value * Value * Value) :=
  let* processedData := phase1 opOptions data in
  let* processedData := phase2 opOptions setSt processedData in
  let* serviceData := phase3 opOptions processedData in
  let* serviceData := phase4 opOptions serviceData in
  let* serviceResult := phase5 svc serviceData in
  ret (serviceResult, serviceData, processedData).

(** The caller's own [afterService] on a value, or the value itself when
    the caller configured none. *)
Definition callerAfterService {W : Type} (opOptions : OperationOptions W)
    (u serviceData : Value) : Effect W Value :=
  match afterService opOptions with
  | Some hook => hook u serviceData
  | None => ret u
  end.

(** The caller's [onSuccess], when there is one, returns normally on this
    result and this input. *)
Definition successNotifierReturns {W : Type} (opOptions : OperationOptions W)
    (result pd : Value) : Prop :=
  match onSuccess opOptions with
  | None => True
  | Some hook => forall x, exists x', hook result pd x = (Returned tt, x')
  end.

(** The three parameter steps that open [readOneTry]. *)
Definition readOneParams {W : Type} (r : Read.Options W) (params : Value) : M W Value :=
  let* processedParams := readValidate r (setState ReadOne) params in
  let* processedParams := readTransform r processedParams in
  readBeforeService r processedParams.

(** Read-one options over a counter as outside world: the backend answers
    [10], and [onSuccessOne] counts its calls. *)
Definition countingNotifier : Options.t nat :=
  Options.mk None None None
    (Some (Read.mkOptions None None
             (Some (Read.mkService (Some (fun _ _ => ret (VNumber 10))) None))
             None None None None None None
             (Some (fun _ _ n => (Returned tt, S n))) None None None)).

(** Update options whose backend resolves with [R]. *)
Definition answeringUpdate (R : Value) : Options.t unit :=
  Options.mk None (Some (onlyService (pure (fun _ => R)))) None None.

(** A service for tasks with transformers but no API function at all. *)
Definition disconnected : CrudService.t unit :=
  CrudService.new "Task" (CrudService.Api.mk None None None None)
    (Some (CrudService.mkTransformers (Some echo) (Some echo) (Some echo) (Some echo))).

(** A schema that accepts everything as it is. *)
Definition accepting : ZodType.t unit :=
  ZodType.mk (pure (fun v => v)) (pure (fun v => v)) (fun v => ret (ZodSuccess v)).

(** ** Notions and inputs: read-many without parameters *)

(** The options with other functions, or none, as [onSuccessMany] and
    [onErrorMany]; everything else is kept. *)
Definition withManyNotifiers {W : Type} (options : Options.t W)
    (onSuccessMany : option (Value -> Value -> Effect W unit))
    (onErrorMany : option (Thrown -> Value -> Effect W unit)) : Options.t W :=
  {| Options.create := Options.create options;
     Options.update := Options.update options;
     Options.delete := Options.delete options;
     Options.read :=
       (fun r =>
          {| Read.validationSchema := Read.validationSchema r;
             Read.transformer := Read.transformer r;
             Read.service := Read.service r;
             Read.beforeValidation := Read.beforeValidation r;
             Read.beforeService := Read.beforeService r;
             Read.afterServiceOne := Read.afterServiceOne r;
             Read.afterServiceMany := Read.afterServiceMany r;
             Read.onErrorOne := Read.onErrorOne r;
             Read.onErrorMany := onErrorMany;
             Read.onSuccessOne := Read.onSuccessOne r;
             Read.onSuccessMany := onSuccessMany;
             Read.initialStateOne := Read.initialStateOne r;
             Read.initialStateMany := Read.initialStateMany r |})
       <$> Options.read options |}.

(** The configured [afterServiceMany] on a result, or the result itself when
    none is configured. *)
Definition manyAfterService {W : Type} (r : Read.Options W)
    (result params : Value) : Effect W Value :=
  match Read.afterServiceMany r with
  | Some hook => hook result params
  | None => ret result
  end.

(** The world a read-many call leaves behind: the cell of read-many holds
    [s], the outside world is [x], and [evs] followed the loading write. *)
Definition afterReadMany {W : Type} (w : World W) (s : OperationState) (x : W)
    (evs : list Event) : World W :=
  mkWorld (setCell ReadMany s (store w)) x
          (trace w ++ StateSet ReadMany loadingState :: evs ++ [StateSet ReadMany s]).

(** Read-many options over a counter as outside world: the backend answers
    with a page of two, and both notifiers count their calls. *)
Definition countingManyNotifier : Options.t nat :=
  Options.mk None None None
    (Some (Read.mkOptions None None
             (Some (Read.mkService None (Some (fun _ => ret twoOfTwo))))
             None None None None None
             (Some (fun _ _ n => (Returned tt, S n))) None
             (Some (fun _ _ n => (Returned tt, S n))) None None)).

(** [createTypedCrud({ infraEntityToUI: increment })] over the counter. *)
Definition incrementing : TransformOptions nat :=
  mkTransformOptions (pure increment) None None.

(** ** The validation adapter *)

Lemma fieldLevel_true iss : fieldLevel iss = true <-> Zod.path iss <> [].
Proof.
  unfold fieldLevel. destruct (Zod.path iss); simpl; split; intros; done.
Qed.

Lemma fold_forEachIssue_path issues : forall errs pth,
  (fold_left forEachIssue issues (errs, pth)).2 =
  match pth with [] => firstFieldPath issues | _ => pth end.
Proof.
  induction issues as [|a issues IH]; intros errs pth; simpl.
  - by destruct pth.
  - unfold firstFieldPath; simpl. fold (fieldLevel a).
    destruct pth as [|p pth]; simpl.
    + destruct (fieldLevel a) eqn:Ha; rewrite IH.
      * apply fieldLevel_true in Ha. by destruct (Zod.path a).
      * reflexivity.
    + by rewrite IH.
Qed.

Lemma assignKey_lookup key' msg record key :
  assignKey key' msg record !! key =
  if String.eqb key' key && storable key then Some msg else record !! key.
Proof.
  unfold assignKey, storable.
  destruct (String.eqb key' key) eqn:E2; simpl.
  - apply String.eqb_eq in E2. subst key'.
    destruct (String.eqb key "__proto__"); simpl; [done|]. apply lookup_insert_eq.
  - apply String.eqb_neq in E2.
    destruct (String.eqb key' "__proto__"); [done|]. by apply lookup_insert_ne.
Qed.

Lemma fold_forEachIssue_errors issues : forall errs pth key,
  (fold_left forEachIssue issues (errs, pth)).1 !! key =
  if storable key
  then match lastMessageAt key issues with
       | Some m => Some m
       | None => errs !! key
       end
  else errs !! key.
Proof.
  induction issues as [|a issues IH] using rev_ind; intros errs pth key.
  - simpl. by destruct (storable key).
  - rewrite fold_left_app. simpl.
    destruct (fold_left forEachIssue issues (errs, pth)) as [errs1 pth1] eqn:E.
    pose proof (IH errs pth key) as IH'. rewrite E in IH'. simpl in IH'.
    unfold lastMessageAt in *. rewrite List.filter_app. simpl.
    fold (fieldLevel a). destruct (fieldLevel a) eqn:Ha; simpl.
    + rewrite assignKey_lookup.
      destruct (String.eqb (join (Zod.path a)) key) eqn:Hk; simpl.
      * destruct (storable key); [|exact IH'].
        by rewrite last_snoc.
      * by rewrite app_nil_r.
    + by rewrite app_nil_r.
Qed.

Lemma lastMessageAt_unshadowed issues i iss :
  issues !! i = Some iss -> Zod.path iss <> [] ->
  (forall j later, (i < j)%nat -> issues !! j = Some later ->
     Zod.path later <> [] -> join (Zod.path later) <> join (Zod.path iss)) ->
  lastMessageAt (join (Zod.path iss)) issues = Some (Zod.message iss).
Proof.
  revert i. induction issues as [|a issues IH] using rev_ind; intros i Hi Hp Hlater.
  - done.
  - unfold lastMessageAt in *. rewrite List.filter_app. simpl.
    destruct (decide (i = length issues)) as [->|Hne].
    + rewrite list_lookup_middle in Hi by done. injection Hi as ->.
      apply fieldLevel_true in Hp. rewrite Hp, String.eqb_refl. simpl.
      by rewrite last_snoc.
    + assert (Hlt : (i < length issues)%nat).
      { apply lookup_lt_Some in Hi. rewrite length_app in Hi. simpl in Hi. lia. }
      rewrite lookup_app_l in Hi by done.
      assert (Ha : fieldLevel a && String.eqb (join (Zod.path a)) (join (Zod.path iss)) = false).
      { destruct (fieldLevel a) eqn:Hfa; [|done]. simpl.
        apply String.eqb_neq. apply (Hlater (length issues) a Hlt).
        - by rewrite list_lookup_middle.
        - by apply fieldLevel_true. }
      rewrite Ha, app_nil_r. apply (IH i Hi Hp).
      intros j later Hij Hj. apply (Hlater j later Hij).
      apply lookup_app_l_Some. exact Hj.
Qed.

(** C8, as the code has it. When the underlying schema fails with its native
    error, [parse] throws the uniform [ValidationError] instead: its [errors]
    record holds, under each key but [__proto__], the message of the last
    field-level failure whose dot-joined path is that key, and nothing under
    [__proto__] (that assignment falls on the accessor of the prototype); so
    a field-level failure is found under its joined path with its own message
    whenever that path is not [__proto__] and no later failure has the same
    joined path. Its [path] is the path of the first field-level failure and
    no later failure changes it. *)
Theorem parse_translates_schema_failure {W : Type}
    (schema : Value -> Effect W Value) (data : Value) (w w' : W)
    (issues : list Zod.Issue) :
  schema data w = (Threw (ZodError issues), w') ->
  exists ve errs,
    parse (createZodValidationSchema schema) data w = (Threw (ValidationFailure ve), w')
    /\ message ve = "Validation failed"
    /\ errors ve = Some errs
    /\ (forall key,
          errs !! key = if storable key then lastMessageAt key issues else None)
    /\ (forall i iss, issues !! i = Some iss -> Zod.path iss <> [] ->
          storable (join (Zod.path iss)) = true ->
          (forall j later, (i < j)%nat -> issues !! j = Some later ->
             Zod.path later <> [] -> join (Zod.path later) <> join (Zod.path iss)) ->
          errs !! join (Zod.path iss) = Some (Zod.message iss))
    /\ path ve = Some (firstFieldPath issues).
Proof.
  intros Hs. simpl. rewrite Hs. unfold toValidationError.
  destruct (fold_left forEachIssue issues (∅, [])) as [errs pth] eqn:E.
  exists {| message := "Validation failed"; path := Some pth;
            errors := Some errs; code := None |}, errs.
  assert (Herrs : forall key,
             errs !! key = if storable key then lastMessageAt key issues else None).
  { intros key. pose proof (fold_forEachIssue_errors issues ∅ [] key) as H.
    rewrite E in H. simpl in H. rewrite H, lookup_empty.
    by destruct (storable key), (lastMessageAt key issues). }
  repeat split; simpl; try done.
  - intros i iss Hi Hp Hst Hlater. rewrite Herrs, Hst.
    by apply (lastMessageAt_unshadowed issues i).
  - pose proof (fold_forEachIssue_path issues ∅ []) as H.
    rewrite E in H. simpl in H. by rewrite H.
Qed.

Lemma parse_translates_schema_failure_witness :
  exists ve errs,
    parse (createZodValidationSchema
             (fun _ (w : unit) => (Threw (ZodError twoFailuresOneField), w)))
          VNull tt = (Threw (ValidationFailure ve), tt)
    /\ message ve = "Validation failed"
    /\ errors ve = Some errs
    /\ (forall key,
          errs !! key
          = if storable key then lastMessageAt key twoFailuresOneField else None)
    /\ (forall i iss, twoFailuresOneField !! i = Some iss -> Zod.path iss <> [] ->
          storable (join (Zod.path iss)) = true ->
          (forall j later, (i < j)%nat -> twoFailuresOneField !! j = Some later ->
             Zod.path later <> [] -> join (Zod.path later) <> join (Zod.path iss)) ->
          errs !! join (Zod.path iss) = Some (Zod.message iss))
    /\ path ve = Some (firstFieldPath twoFailuresOneField).
Proof.
  apply (parse_translates_schema_failure
           (fun _ (w : unit) => (Threw (ZodError twoFailuresOneField), w)) VNull tt tt).
  reflexivity.
Defined.

(** A failure on a field named [__proto__], next to one on [name]: the
    record keeps the second only, while [path] is the path of the first. *)
Example proto_failure_is_not_recorded :
  let ve := toValidationError [ Zod.mkIssue [Key "__proto__"] "Unexpected";
                                Zod.mkIssue [Key "name"] "Required" ] in
  errors ve = Some {[ "name" := "Required" ]}
  /\ path ve = Some [Key "__proto__"].
Proof. by vm_compute. Qed.

(** C8, counterexample. With two failures on the field [email], [parse]
    throws a [ValidationError] whose [errors] record has the second message
    under [email]: the first failure does not find its message there. *)
Lemma parse_overwrites_same_field :
  exists ve errs,
    parse (createZodValidationSchema
             (fun _ (w : unit) => (Threw (ZodError twoFailuresOneField), w)))
          VNull tt = (Threw (ValidationFailure ve), tt)
    /\ errors ve = Some errs
    /\ errs !! "email" = Some "Invalid email"
    /\ ~ everyFailureRecorded twoFailuresOneField errs.
Proof.
  eexists _, _. split; [reflexivity|]. split; [reflexivity|].
  assert (H : (<["email":="Invalid email"]> (<["email":="Too short"]> (∅ : gmap string string)))
                !! "email" = Some "Invalid email") by apply lookup_insert_eq.
  split; [exact H|].
  intros Hall.
  specialize (Hall (Zod.mkIssue [Key "email"] "Too short")).
  assert (Some "Invalid email" = Some "Too short") as Heq.
  { rewrite <- H. apply Hall; [apply list_elem_of_here | discriminate]. }
  discriminate Heq.
Qed.

(** ** The monad *)

Section MonadFacts.
Context {W : Type}.

Lemma bind_Returned_inv {S A B : Type} (m : ST S A) (k : A -> ST S B) s b s' :
  bind m k s = (Returned b, s') ->
  exists a s1, m s = (Returned a, s1) /\ k a s1 = (Returned b, s').
Proof.
  unfold bind. destruct (m s) as [[a|t] s1]; intros H; [eauto | discriminate].
Qed.

Lemma bind_Returned {S A B : Type} (m : ST S A) (k : A -> ST S B) s a s1 :
  m s = (Returned a, s1) -> bind m k s = k a s1.
Proof. unfold bind. by intros ->. Qed.

Lemma bind_Threw {S A B : Type} (m : ST S A) (k : A -> ST S B) s t s1 :
  m s = (Threw t, s1) -> bind m k s = (Threw t, s1).
Proof. unfold bind. by intros ->. Qed.

Lemma tryCatch_Returned {S A : Type} (m : ST S A) h s a s1 :
  m s = (Returned a, s1) -> tryCatch m h s = (Returned a, s1).
Proof. unfold tryCatch. by intros ->. Qed.

Lemma tryCatch_Threw {S A : Type} (m : ST S A) h s t s1 :
  m s = (Threw t, s1) -> tryCatch m h s = h t s1.
Proof. unfold tryCatch. by intros ->. Qed.

Lemma cell_setCell v s st : cell v (setCell v s st) = s.
Proof. by destruct v. Qed.

Lemma cell_setCell_ne v v' s st : v <> v' -> cell v' (setCell v s st) = cell v' st.
Proof. by destruct v, v'. Qed.

(** What a call does to the world: the cells are untouched, the call is
    recorded, and the callee ran on the outside world. *)
Lemma call_spec {A : Type} site args (f : Effect W A) (w : World W) o w' :
  call site args f w = (o, w') ->
  store w' = store w /\ trace w' = trace w ++ [Call site args]
  /\ f (ext w) = (o, ext w').
Proof.
  unfold call, bind, record, run. simpl.
  destruct (f (ext w)) as [o1 x] eqn:E. intros [= <- <-]. by simpl.
Qed.

Lemma call_eq {A : Type} site args (f : Effect W A) (w : World W) o x :
  f (ext w) = (o, x) ->
  call site args f w = (o, mkWorld (store w) x (trace w ++ [Call site args])).
Proof. unfold call, bind, record, run. simpl. by intros ->. Qed.

Lemma call_eq_mk {A : Type} site args (f : Effect W A) st (x : W) tr o x' :
  f x = (o, x') ->
  call site args f (mkWorld st x tr) = (o, mkWorld st x' (tr ++ [Call site args])).
Proof. intros H. by apply call_eq. Qed.

Lemma callWithError_spec {A : Type} site e arg (f : Effect W A) (w : World W) o w' :
  callWithError site e arg f w = (o, w') ->
  store w' = store w /\ trace w' = trace w ++ [CallWithError site e arg]
  /\ f (ext w) = (o, ext w').
Proof.
  unfold callWithError, bind, record, run. simpl.
  destruct (f (ext w)) as [o1 x] eqn:E. intros [= <- <-]. by simpl.
Qed.

End MonadFacts.

(** ** Cells and traces of the pieces of the pipeline *)

Section PipelineFacts.
Context {W : Type}.

Lemma keepsStore_ret {A : Type} (a : A) : keepsStore (W := W) (ret a).
Proof. by intros w o w' [= <- <-]. Qed.

Lemma keepsStore_call {A : Type} site args (f : Effect W A) :
  keepsStore (call site args f).
Proof. intros w o w' H. by apply call_spec in H as (? & _). Qed.

Lemma keepsStore_callWithError {A : Type} site e arg (f : Effect W A) :
  keepsStore (callWithError site e arg f).
Proof. intros w o w' H. by apply callWithError_spec in H as (? & _). Qed.

Lemma keepsStore_bind {A B : Type} (m : M W A) (k : A -> M W B) :
  keepsStore m -> (forall a, keepsStore (k a)) -> keepsStore (bind m k).
Proof.
  intros Hm Hk w o w'. unfold bind.
  destruct (m w) as [[a|t] w1] eqn:E; intros H.
  - rewrite (Hk a _ _ _ H). by apply (Hm _ _ _ E).
  - injection H as <- <-. by apply (Hm _ _ _ E).
Qed.

Lemma emitsOnly_ret {A : Type} P (a : A) : emitsOnly (W := W) P (ret a).
Proof. intros w o w' [= <- <-]. exists []. by rewrite app_nil_r. Qed.

Lemma emitsOnly_throw {A : Type} P t : emitsOnly (W := W) (A := A) P (throw t).
Proof. intros w o w' [= <- <-]. exists []. by rewrite app_nil_r. Qed.

Lemma emitsOnly_setState (P : Event -> Prop) v s :
  P (StateSet v s) -> emitsOnly (W := W) P (setState v s).
Proof. intros HP w o w' [= <- <-]. exists [StateSet v s]. by repeat constructor. Qed.

Lemma emitsOnly_call {A : Type} (P : Event -> Prop) site args (f : Effect W A) :
  P (Call site args) -> emitsOnly P (call site args f).
Proof.
  intros HP w o w' H. apply call_spec in H as (_ & Ht & _).
  exists [Call site args]. by repeat constructor.
Qed.

Lemma emitsOnly_callWithError {A : Type} (P : Event -> Prop) site e arg (f : Effect W A) :
  P (CallWithError site e arg) -> emitsOnly P (callWithError site e arg f).
Proof.
  intros HP w o w' H. apply callWithError_spec in H as (_ & Ht & _).
  exists [CallWithError site e arg]. by repeat constructor.
Qed.

Lemma emitsOnly_bind {A B : Type} P (m : M W A) (k : A -> M W B) :
  emitsOnly P m -> (forall a, emitsOnly P (k a)) -> emitsOnly P (bind m k).
Proof.
  intros Hm Hk w o w'. unfold bind.
  destruct (m w) as [[a|t] w1] eqn:E; intros H.
  - destruct (Hm _ _ _ E) as (e1 & T1 & F1).
    destruct (Hk a _ _ _ H) as (e2 & T2 & F2).
    exists (e1 ++ e2). rewrite T2, T1, app_assoc. split; [done|].
    by apply Forall_app.
  - injection H as <- <-. by apply (Hm _ _ _ E).
Qed.

Lemma emitsOnly_tryCatch {A : Type} P (m : M W A) (h : Thrown -> M W A) :
  emitsOnly P m -> (forall t, emitsOnly P (h t)) -> emitsOnly P (tryCatch m h).
Proof.
  intros Hm Hh w o w'. unfold tryCatch.
  destruct (m w) as [[a|t] w1] eqn:E; intros H.
  - injection H as <- <-. by apply (Hm _ _ _ E).
  - destruct (Hm _ _ _ E) as (e1 & T1 & F1).
    destruct (Hh t _ _ _ H) as (e2 & T2 & F2).
    exists (e1 ++ e2). rewrite T2, T1, app_assoc. split; [done|].
    by apply Forall_app.
Qed.

End PipelineFacts.

Create HintDb crud discriminated.
#[export] Hint Resolve keepsStore_ret keepsStore_call keepsStore_callWithError : crud.
#[export] Hint Resolve emitsOnly_ret emitsOnly_throw emitsOnly_setState
  emitsOnly_call emitsOnly_callWithError : crud.

(** Breaks a pipeline into its pieces and closes each piece with the facts
    above; the side conditions on single events are left to [tac]. *)
Ltac pieces tac :=
  repeat first
    [ progress auto with crud
    | apply emitsOnly_setState; tac
    | apply emitsOnly_call; tac
    | apply emitsOnly_callWithError; tac
    | apply keepsStore_bind; [|intros ?]
    | apply emitsOnly_bind; [|intros ?]
    | apply emitsOnly_tryCatch; [|intros ?]
    | match goal with
      | |- context [match ?x with _ => _ end] => destruct x
      end ].

(** ** The executors *)

Section ExecutorFacts.
Context {W : Type}.
Implicit Types (o : OperationOptions W) (r : Read.Options W) (w : World W).

Lemma phase9_keepsStore o result pd : keepsStore (phase9 o result pd).
Proof. unfold phase9. pieces idtac. Qed.

(** The outer [catch]: it always rethrows, and leaves the error state of the
    value it caught; [onError], when there is one, is called with that value
    and the original input. *)
Lemma catchBlock_spec o v data e w :
  exists t w',
    catchBlock o (setState v) data e w = (Threw t, w')
    /\ store w' = setCell v (errorState e) (store w)
    /\ trace w' = trace w ++ catchEvents o v data e
    /\ catchOutcome o data e (ext w) t (ext w').
Proof.
  unfold catchBlock, catchEvents, catchOutcome, bind, setState. simpl.
  destruct (onError o) as [hook|].
  - unfold callWithError, bind, record, run. simpl.
    destruct (hook e data (ext w)) as [[[]|t] x] eqn:E;
      eexists _, _; (split; [reflexivity|]); simpl;
      rewrite <- app_assoc; simpl; auto.
  - eexists _, _. split; [reflexivity|]. simpl. auto.
Qed.

Lemma tryBlock_Returned o svc v data w res w' :
  tryBlock o svc (setState v) data w = (Returned res, w') ->
  cell v (store w') = successState res.
Proof.
  unfold tryBlock. intros H.
  do 7 (apply bind_Returned_inv in H as (? & ? & _ & H)).
  apply bind_Returned_inv in H as ([] & w8 & H8 & H).
  apply bind_Returned_inv in H as ([] & w9 & H9 & H).
  injection H as <- <-.
  rewrite (phase9_keepsStore _ _ _ _ _ _ H9).
  injection H8 as <-. simpl. apply cell_setCell.
Qed.

Lemma executeOperation_eq o svc v data w :
  service o = Some svc ->
  executeOperation data (Some o) (setState v) w =
  tryCatch (tryBlock o svc (setState v) data) (catchBlock o (setState v) data)
           (afterLoading v w).
Proof. intros Hs. unfold executeOperation. by rewrite Hs. Qed.

(** A configured operation settles in a terminal state. *)
Lemma executeOperation_settles o svc v data w :
  service o = Some svc ->
  settledIn (executeOperation data (Some o) (setState v) w).1
            (cell v (store (executeOperation data (Some o) (setState v) w).2))
            (fun res => res).
Proof.
  intros Hs. rewrite (executeOperation_eq _ _ _ _ _ Hs). unfold tryCatch.
  destruct (tryBlock o svc (setState v) data (afterLoading v w)) as [[res|t] w2] eqn:E.
  - simpl. by apply tryBlock_Returned in E.
  - destruct (catchBlock_spec o v data t w2) as (t' & w3 & -> & Hst & _).
    simpl. exists t. rewrite Hst. apply cell_setCell.
Qed.

Lemma readOneCatch_spec r id e w :
  exists t w',
    readOneCatch r id e w = (Threw t, w')
    /\ store w' = setCell ReadOne (errorState e) (store w).
Proof.
  unfold readOneCatch, bind, setState. simpl.
  destruct (Read.onErrorOne r) as [hook|].
  - unfold callWithError, bind, record, run. simpl.
    destruct (hook e id (ext w)) as [[[]|t] x] eqn:E; eexists _, _; by split.
  - eexists _, _. by split.
Qed.

Lemma readManyCatch_spec r params e w :
  exists t w',
    readManyCatch r params e w = (Threw t, w')
    /\ store w' = setCell ReadMany (errorState e) (store w).
Proof.
  unfold readManyCatch, bind, setState. simpl.
  destruct (Read.onErrorMany r) as [hook|]; [destruct (truthy params)|].
  - unfold callWithError, bind, record, run. simpl.
    destruct (hook e params (ext w)) as [[[]|t] x] eqn:E; eexists _, _; by split.
  - eexists _, _. by split.
  - eexists _, _. by split.
Qed.

Lemma readOneTry_Returned r getOne id params w res w' :
  readOneTry r getOne id params w = (Returned res, w') ->
  cell ReadOne (store w') = successState res.
Proof.
  unfold readOneTry. intros H.
  do 5 (apply bind_Returned_inv in H as (? & ? & _ & H)).
  apply bind_Returned_inv in H as ([] & w8 & H8 & H).
  apply bind_Returned_inv in H as ([] & w9 & H9 & H).
  injection H as <- <-.
  assert (Hk : store w9 = store w8).
  { match type of H9 with ?m _ = _ =>
      apply (fun K : keepsStore m => K _ _ _ H9) end.
    pieces idtac. }
  rewrite Hk. injection H8 as <-. reflexivity.
Qed.

Lemma readManyTry_Returned r getMany params w res w' :
  readManyTry r getMany params w = (Returned res, w') ->
  cell ReadMany (store w') = successState res.
Proof.
  unfold readManyTry. intros H.
  do 5 (apply bind_Returned_inv in H as (? & ? & _ & H)).
  apply bind_Returned_inv in H as ([] & w8 & H8 & H).
  apply bind_Returned_inv in H as ([] & w9 & H9 & H).
  injection H as <- <-.
  assert (Hk : store w9 = store w8).
  { match type of H9 with ?m _ = _ =>
      apply (fun K : keepsStore m => K _ _ _ H9) end.
    pieces idtac. }
  rewrite Hk. injection H8 as <-. reflexivity.
Qed.

Lemma executeReadOne_eq options r s getOne id params w :
  Options.read options = Some r -> Read.service r = Some s ->
  Read.getOne s = Some getOne ->
  executeReadOne options id params w =
  tryCatch (readOneTry r getOne id params) (readOneCatch r id) (afterLoading ReadOne w).
Proof. intros Hr Hs Hg. unfold executeReadOne. by rewrite Hr, Hs, Hg. Qed.

Lemma executeReadMany_eq options r s getMany params w :
  Options.read options = Some r -> Read.service r = Some s ->
  Read.getMany s = Some getMany ->
  executeReadMany options params w =
  tryCatch (readManyTry r getMany params) (readManyCatch r params) (afterLoading ReadMany w).
Proof. intros Hr Hs Hg. unfold executeReadMany. by rewrite Hr, Hs, Hg. Qed.

(** Every configured verb settles in a terminal state of its own cell. *)
Lemma executeVerb_settles (options : Options.t W) v id input w :
  configured options v = true ->
  settledIn (executeVerb (useCRUD options) v id input w).1
            (cell v (store (executeVerb (useCRUD options) v id input w).2))
            (fun res => res).
Proof.
  intros Hc.
  destruct v; simpl in *.
  - destruct (Options.create options) as [o|]; [|done]. simpl in Hc.
    destruct (service o) as [svc|] eqn:Hs; [|done].
    by apply (executeOperation_settles o svc).
  - destruct (Options.update options) as [o|]; [|done]. simpl in Hc.
    destruct (service o) as [svc|] eqn:Hs; [|done].
    by apply (executeOperation_settles o svc).
  - destruct (Options.delete options) as [o|]; [|done]. simpl in Hc.
    destruct (service o) as [svc|] eqn:Hs; [|done].
    by apply (executeOperation_settles o svc).
  - destruct (Options.read options) as [r|] eqn:Hr; [|done].
    destruct (Read.service r) as [s|] eqn:Hs; [|done].
    destruct (Read.getOne s) as [g|] eqn:Hg; [|done].
    rewrite (executeReadOne_eq _ _ _ _ _ _ _ Hr Hs Hg). unfold tryCatch.
    destruct (readOneTry r g id input (afterLoading ReadOne w)) as [[res|t] w2] eqn:E.
    + simpl. by apply readOneTry_Returned in E.
    + destruct (readOneCatch_spec r id t w2) as (t' & w3 & -> & Hst).
      simpl. exists t. by rewrite Hst.
  - destruct (Options.read options) as [r|] eqn:Hr; [|done].
    destruct (Read.service r) as [s|] eqn:Hs; [|done].
    destruct (Read.getMany s) as [g|] eqn:Hg; [|done].
    rewrite (executeReadMany_eq _ _ _ _ _ _ Hr Hs Hg). unfold tryCatch.
    destruct (readManyTry r g input (afterLoading ReadMany w)) as [[res|t] w2] eqn:E.
    + simpl. by apply readManyTry_Returned in E.
    + destruct (readManyCatch_spec r input t w2) as (t' & w3 & -> & Hst).
      simpl. exists t. by rewrite Hst.
Qed.

End ExecutorFacts.

(** C1. For every configured verb, whatever the hooks and the backend do and
    whether [execute] resolves or rejects, the verb's state after the call is
    not loading: it is the success state of the returned result or the error
    state of a thrown value. *)
Theorem execute_settles_not_loading {W : Type} (options : Options.t W)
    (v : Verb) (id : string) (input : Value) (w : World W) :
  configured options v = true ->
  let out := executeVerb (useCRUD options) v id input w in
  loading (stateOf (useCRUD options) v (store out.2)) = false
  /\ settledIn out.1 (stateOf (useCRUD options) v (store out.2)) (fun res => res).
Proof.
  intros Hc out.
  assert (Hst : stateOf (useCRUD options) v = cell v) by by destruct v.
  rewrite Hst.
  pose proof (executeVerb_settles options v id input w Hc) as H.
  fold out in H. split; [|exact H].
  destruct out.1 as [res|t]; simpl in H.
  - by rewrite H.
  - destruct H as (e & ->). done.
Qed.

Lemma execute_settles_not_loading_witness :
  let out := executeVerb (useCRUD createOnly) Create "" (VNumber 7)
                         (initialWorld createOnly tt) in
  loading (stateOf (useCRUD createOnly) Create (store out.2)) = false
  /\ settledIn out.1 (stateOf (useCRUD createOnly) Create (store out.2)) (fun res => res).
Proof.
  apply (execute_settles_not_loading createOnly Create "" (VNumber 7)
           (initialWorld createOnly tt)).
  reflexivity.
Defined.

(** C3, as the code has it. Calling [execute] on a verb whose options or
    service function was not supplied rejects with a configuration error and
    leaves the world as it was: no state is written, so the verb's state is
    unchanged and never loading. The error of the orchestrator carries a fixed
    message that depends on the executor only; the error that names the entity
    and the verb is the one [CrudService] throws when the API function of the
    verb is missing. *)
Theorem unconfigured_execute_rejects {W : Type} (options : Options.t W)
    (v : Verb) (id : string) (input : Value) (w : World W) :
  configured options v = false ->
  executeVerb (useCRUD options) v id input w
    = (Threw (JsError (notConfiguredMessage v)), w)
  /\ (forall (this : CrudService.t W) (data : Value) (x : W),
        CrudService.Api.update (CrudService.api this) = None ->
        CrudService.update this data x
          = (Threw (JsError ("Update API not implemented for "
                               ++ CrudService.entityName this)), x)).
Proof.
  intros Hc. split.
  - destruct v; simpl in *.
    + unfold executeOperation. destruct (Options.create options) as [o|]; [|done].
      simpl in Hc. by destruct (service o).
    + unfold executeOperation. destruct (Options.update options) as [o|]; [|done].
      simpl in Hc. by destruct (service o).
    + unfold executeOperation. destruct (Options.delete options) as [o|]; [|done].
      simpl in Hc. by destruct (service o).
    + unfold executeReadOne. destruct (Options.read options) as [r|]; [|done].
      destruct (Read.service r) as [s|]; [|done]. by destruct (Read.getOne s).
    + unfold executeReadMany. destruct (Options.read options) as [r|]; [|done].
      destruct (Read.service r) as [s|]; [|done]. by destruct (Read.getMany s).
  - intros this data x Hu. unfold CrudService.update, CrudService.write.
    by rewrite Hu.
Qed.

Lemma unconfigured_execute_rejects_witness :
  executeVerb (useCRUD createOnly) Update "" (VNumber 1) (initialWorld createOnly tt)
    = (Threw (JsError (notConfiguredMessage Update)), initialWorld createOnly tt)
  /\ (forall (this : CrudService.t unit) (data : Value) (x : unit),
        CrudService.Api.update (CrudService.api this) = None ->
        CrudService.update this data x
          = (Threw (JsError ("Update API not implemented for "
                               ++ CrudService.entityName this)), x)).
Proof.
  apply (unconfigured_execute_rejects createOnly Update "" (VNumber 1)
           (initialWorld createOnly tt)).
  reflexivity.
Defined.

(** C3, counterexample. With [create] configured and [update] not,
    [update.execute] rejects with the message [Operation not configured]:
    it does not name the verb, and [delete.execute] rejects with the very same
    error. *)
Lemma unconfigured_update_error_is_anonymous :
  exists msg,
    executeVerb (useCRUD createOnly) Update "" (VNumber 1) (initialWorld createOnly tt)
      = (Threw (JsError msg), initialWorld createOnly tt)
    /\ namesVerb msg Update = false
    /\ executeVerb (useCRUD createOnly) Delete "" (VNumber 1) (initialWorld createOnly tt)
      = (Threw (JsError msg), initialWorld createOnly tt).
Proof. exists "Operation not configured". by vm_compute. Qed.

(** C6, as the code has it. For every verb, every prior state and every
    configured initial override, [reset] sets the verb's state to exactly
    [{loading:false, success:false, error:null, data:null}]; the override
    only decides the state the cell starts with. *)
Theorem reset_restores_default {W : Type} (options : Options.t W)
    (v : Verb) (w : World W) :
  exists w',
    resetVerb (useCRUD options) v w = (Returned tt, w')
    /\ stateOf (useCRUD options) v (store w') = defaultState
    /\ (forall v', v <> v' ->
          stateOf (useCRUD options) v' (store w') = stateOf (useCRUD options) v' (store w)).
Proof.
  eexists. split; [by destruct v|]. split.
  - by destruct v.
  - intros v' Hne. by destruct v, v'.
Qed.

(** C6, counterexample. With the initial override [{ data: [] }] on
    [create], the state after [reset] is the default one, whose [data] is
    [null], and not the state the override configured. *)
Lemma reset_ignores_initial_override :
  let crud := useCRUD startsWithEmptyList in
  let w := initialWorld startsWithEmptyList tt in
  stateOf crud Create (store w) = spreadInitial (Some (mkPartial None None None (Some (VArray []))))
  /\ data (stateOf crud Create (store w)) = VArray []
  /\ data (stateOf crud Create (store (resetVerb crud Create w).2)) = VNull
  /\ stateOf crud Create (store (resetVerb crud Create w).2) <> stateOf crud Create (store w).
Proof. repeat split. discriminate. Qed.

(** ** Failures inside the pipeline *)

Section FailureFacts.
Context {W : Type}.
Implicit Types (o : OperationOptions W) (w : World W).

Lemma tryBlock_split o svc setSt data w :
  tryBlock o svc setSt data w =
  (let* rp := throughPhase8 o svc setSt data in
   phase9 o rp.1 rp.2 ;;; ret rp.1) w.
Proof.
  unfold tryBlock, throughPhase8, bind.
  repeat match goal with
         | |- context [match ?m ?a with _ => _ end] =>
             destruct (m a) as [[?|?] ?]; simpl
         end; reflexivity.
Qed.

Lemma throughPhase8_Returned o svc v data w res pd w' :
  throughPhase8 o svc (setState v) data w = (Returned (res, pd), w') ->
  cell v (store w') = successState res.
Proof.
  unfold throughPhase8. intros H.
  do 7 (apply bind_Returned_inv in H as (? & ? & _ & H)).
  apply bind_Returned_inv in H as ([] & w8 & H8 & H).
  injection H as <- <- <-. injection H8 as <-. simpl. apply cell_setCell.
Qed.

End FailureFacts.

(** C4, as the code has it. When [onSuccess] throws after the success state
    has been written, the throw is caught by the enclosing [catch]: [execute]
    rejects instead of returning the pipeline's result, the success state is
    overwritten by the error state of the thrown value, and [onError], when
    configured, is called with that value and the original input. The
    rejection carries the thrown value unless [onError] throws itself. *)
Theorem onSuccess_failure_rejects {W : Type} (o : OperationOptions W)
    (svc : Value -> Effect W Value) (hook : Value -> Value -> Effect W unit)
    (v : Verb) (data res pd : Value) (w w1 : World W) (e : Thrown) (x : W) :
  service o = Some svc ->
  onSuccess o = Some hook ->
  throughPhase8 o svc (setState v) data (afterLoading v w) = (Returned (res, pd), w1) ->
  hook res pd (ext w1) = (Threw e, x) ->
  cell v (store w1) = successState res
  /\ exists t w',
       executeOperation data (Some o) (setState v) w = (Threw t, w')
       /\ cell v (store w') = errorState e
       /\ trace w' = trace w1 ++ Call AtOnSuccess [res; pd] :: catchEvents o v data e
       /\ catchOutcome o data e x t (ext w').
Proof.
  intros Hs Hh H8 Hthrow. split; [by apply throughPhase8_Returned in H8|].
  rewrite (executeOperation_eq _ _ _ _ _ Hs).
  set (w2 := mkWorld (store w1) x (trace w1 ++ [Call AtOnSuccess [res; pd]])).
  assert (Htry : tryBlock o svc (setState v) data (afterLoading v w) = (Threw e, w2)).
  { rewrite tryBlock_split. rewrite (bind_Returned _ _ _ _ _ H8). simpl.
    apply bind_Threw. unfold phase9. rewrite Hh. by apply call_eq. }
  rewrite (tryCatch_Threw _ _ _ _ _ Htry).
  destruct (catchBlock_spec o v data e w2) as (t & w' & Hc & Hst & Htr & Hout).
  exists t, w'. split; [exact Hc|]. split; [|split].
  - rewrite Hst. apply cell_setCell.
  - rewrite Htr. simpl. by rewrite <- app_assoc.
  - exact Hout.
Qed.

Lemma onSuccess_failure_rejects_witness :
  let o := mkOperationOptions None None None (Some echo) None None None
             (Some (fun _ _ => ret tt)) (Some (fun _ _ => throw boom)) None in
  let w := initialWorld failingOnSuccess tt in
  let w1 := mkWorld (setCell Create (successState (VNumber 1)) (store w)) tt
              [StateSet Create loadingState; Call AtService [VNumber 1];
               StateSet Create (successState (VNumber 1))] in
  cell Create (store w1) = successState (VNumber 1)
  /\ exists t w',
       executeOperation (VNumber 1) (Some o) (setState Create) w = (Threw t, w')
       /\ cell Create (store w') = errorState boom
       /\ trace w' = trace w1 ++ Call AtOnSuccess [VNumber 1; VNumber 1]
                               :: catchEvents o Create (VNumber 1) boom
       /\ catchOutcome o (VNumber 1) boom tt t (ext w').
Proof.
  apply (onSuccess_failure_rejects
           (mkOperationOptions None None None (Some echo) None None None
              (Some (fun _ _ => ret tt)) (Some (fun _ _ => throw boom)) None)
           echo (fun _ _ => throw boom) Create (VNumber 1) (VNumber 1) (VNumber 1)
           (initialWorld failingOnSuccess tt)
           (mkWorld (setCell Create (successState (VNumber 1)) (initialStore failingOnSuccess)) tt
              [StateSet Create loadingState; Call AtService [VNumber 1];
               StateSet Create (successState (VNumber 1))])
           boom tt); reflexivity.
Defined.

(** C4, counterexample. A create whose [onSuccess] throws: the service is
    called and the success state is written, then [execute] rejects with the
    thrown value and the state ends as the error state. *)
Lemma onSuccess_throw_changes_outcome :
  let crud := useCRUD failingOnSuccess in
  let out := execute (Result.create crud) (VNumber 1) (initialWorld failingOnSuccess tt) in
  out.1 = Threw boom
  /\ state (Result.create crud) (store out.2) = errorState boom
  /\ success (state (Result.create crud) (store out.2)) = false
  /\ trace out.2 = [StateSet Create loadingState; Call AtService [VNumber 1];
                    StateSet Create (successState (VNumber 1));
                    Call AtOnSuccess [VNumber 1; VNumber 1];
                    StateSet Create (errorState boom);
                    CallWithError AtOnError boom (VNumber 1)].
Proof. by vm_compute. Qed.

(** C5, as the code has it. A rejection by the validation schema writes the
    error state of the thrown error at the validation step and rethrows; no
    later step of the pipeline runs (no transformer, no service call, no
    success state). The rethrown error is caught by the enclosing [catch],
    which writes the same error state again and calls [onError], when
    configured, with the error and the original input, before [execute]
    rejects. *)
Theorem validation_failure_runs_catch {W : Type} (o : OperationOptions W)
    (svc : Value -> Effect W Value) (schema : ValidationSchema W)
    (v : Verb) (data pd : Value) (w w1 : World W) (e : Thrown) (x : W) :
  service o = Some svc ->
  validationSchema o = Some schema ->
  phase1 o data (afterLoading v w) = (Returned pd, w1) ->
  parse schema pd (ext w1) = (Threw e, x) ->
  exists t w',
    executeOperation data (Some o) (setState v) w = (Threw t, w')
    /\ cell v (store w') = errorState e
    /\ trace w' = trace w1 ++ Call AtParse [pd] :: StateSet v (errorState e)
                             :: catchEvents o v data e
    /\ catchOutcome o data e x t (ext w').
Proof.
  intros Hs Hv H1 Hp.
  rewrite (executeOperation_eq _ _ _ _ _ Hs).
  set (w2 := mkWorld (setCell v (errorState e) (store w1)) x
                     (trace w1 ++ [Call AtParse [pd]; StateSet v (errorState e)])).
  assert (Htry : tryBlock o svc (setState v) data (afterLoading v w) = (Threw e, w2)).
  { unfold tryBlock. rewrite (bind_Returned _ _ _ _ _ H1).
    apply bind_Threw. unfold phase2. rewrite Hv. unfold tryCatch.
    rewrite (call_eq _ _ _ _ _ _ Hp). unfold bind, setState, throw. simpl.
    unfold w2. by rewrite <- app_assoc. }
  rewrite (tryCatch_Threw _ _ _ _ _ Htry).
  destruct (catchBlock_spec o v data e w2) as (t & w' & Hc & Hst & Htr & Hout).
  exists t, w'. split; [exact Hc|]. split; [|split].
  - rewrite Hst. apply cell_setCell.
  - rewrite Htr. simpl. by rewrite <- app_assoc.
  - exact Hout.
Qed.

Lemma validation_failure_runs_catch_witness :
  let o := mkOperationOptions (Some rejecting) None None (Some echo) None None None
             (Some (fun _ _ => ret tt)) None None in
  let w := initialWorld rejectingCreate tt in
  let e := ValidationFailure invalid in
  exists t w',
    executeOperation (VNumber 1) (Some o) (setState Create) w = (Threw t, w')
    /\ cell Create (store w') = errorState e
    /\ trace w' = trace (afterLoading Create w)
                  ++ Call AtParse [VNumber 1] :: StateSet Create (errorState e)
                     :: catchEvents o Create (VNumber 1) e
    /\ catchOutcome o (VNumber 1) e tt t (ext w').
Proof.
  apply (validation_failure_runs_catch
           (mkOperationOptions (Some rejecting) None None (Some echo) None None None
              (Some (fun _ _ => ret tt)) None None)
           echo rejecting Create (VNumber 1) (VNumber 1)
           (initialWorld rejectingCreate tt)
           (afterLoading Create (initialWorld rejectingCreate tt))
           (ValidationFailure invalid) tt); reflexivity.
Defined.

(** C5, counterexample. A create with a rejecting schema and an [onError]
    hook: after the validation step has written the error state, the outer
    [catch] writes it again and calls [onError] with the validation error. *)
Lemma validation_failure_invokes_onError :
  let crud := useCRUD rejectingCreate in
  let out := execute (Result.create crud) (VNumber 1) (initialWorld rejectingCreate tt) in
  out.1 = Threw (ValidationFailure invalid)
  /\ trace out.2 = [StateSet Create loadingState;
                    Call AtParse [VNumber 1];
                    StateSet Create (errorState (ValidationFailure invalid));
                    StateSet Create (errorState (ValidationFailure invalid));
                    CallWithError AtOnError (ValidationFailure invalid) (VNumber 1)]
  /\ Exists (fun ev => mentions AtOnError ev = true) (trace out.2).
Proof.
  split; [reflexivity|]. split; [reflexivity|].
  do 4 apply Exists_cons_tl. by apply Exists_cons_hd.
Qed.

(** ** What reaches the backend *)

Section BackendFacts.
Context {W : Type}.
Implicit Types (o : OperationOptions W) (r : Read.Options W) (w : World W).

Lemma callsAt_app site evs1 evs2 :
  callsAt site (evs1 ++ evs2) = callsAt site evs1 ++ callsAt site evs2.
Proof.
  induction evs1 as [|[| s args |] evs1 IH]; simpl; try done.
  destruct (bool_decide (s = site)); simpl; by rewrite ?IH.
Qed.

Lemma callsAt_quiet site evs :
  Forall (fun ev => mentions site ev = false) evs -> callsAt site evs = [].
Proof.
  induction 1 as [|[| s args |] evs Hev _ IH]; simpl in *; try done.
  by rewrite Hev.
Qed.

(** One call at [site], then only events that are not calls at [site]. *)
Lemma once_then_quiet {A B : Type} site args (f : Effect W A)
    (rest : A -> M W B) (handler : Thrown -> M W B) w out w' :
  (forall a, emitsOnly (fun ev => mentions site ev = false) (rest a)) ->
  (forall t, emitsOnly (fun ev => mentions site ev = false) (handler t)) ->
  tryCatch (bind (call site args f) rest) handler w = (out, w') ->
  exists evs, trace w' = trace w ++ evs /\ callsAt site evs = [args].
Proof.
  intros Hrest Hhandler. unfold tryCatch, bind at 1.
  destruct (call site args f w) as [[a|t] w1] eqn:E;
    apply call_spec in E as (_ & Ht1 & _).
  - destruct (rest a w1) as [[b|t] w2] eqn:Er;
      destruct (Hrest a _ _ _ Er) as (e2 & Ht2 & Hq2).
    + intros [= <- <-]. exists (Call site args :: e2).
      rewrite Ht2, Ht1, <- app_assoc. split; [done|].
      change (Call site args :: e2) with ([Call site args] ++ e2).
      rewrite callsAt_app, (callsAt_quiet _ _ Hq2). simpl.
      by rewrite bool_decide_eq_true_2.
    + intros Hh. destruct (Hhandler t _ _ _ Hh) as (e3 & Ht3 & Hq3).
      exists (Call site args :: e2 ++ e3).
      rewrite Ht3, Ht2, Ht1, <- !app_assoc. split; [done|].
      change (Call site args :: e2 ++ e3) with ([Call site args] ++ e2 ++ e3).
      rewrite !callsAt_app, (callsAt_quiet _ _ Hq2), (callsAt_quiet _ _ Hq3). simpl.
      by rewrite bool_decide_eq_true_2.
  - intros Hh. destruct (Hhandler t _ _ _ Hh) as (e3 & Ht3 & Hq3).
    exists (Call site args :: e3).
    rewrite Ht3, Ht1, <- app_assoc. split; [done|].
    change (Call site args :: e3) with ([Call site args] ++ e3).
    rewrite callsAt_app, (callsAt_quiet _ _ Hq3). simpl.
    by rewrite bool_decide_eq_true_2.
Qed.

Lemma fromPhase6_quiet o v sr sd pd :
  emitsOnly (fun ev => mentions AtService ev = false)
            (fromPhase6 o (setState v) sr sd pd).
Proof. unfold fromPhase6, phase6, phase7, phase8, phase9. pieces ltac:(done). Qed.

Lemma catchBlock_quiet o v data t :
  emitsOnly (fun ev => mentions AtService ev = false)
            (catchBlock o (setState v) data t).
Proof. unfold catchBlock. pieces ltac:(done). Qed.

Lemma afterGetMany_quiet r result pp :
  emitsOnly (fun ev => mentions AtGetMany ev = false) (afterGetMany r result pp).
Proof. unfold afterGetMany. pieces ltac:(done). Qed.

Lemma readManyCatch_quiet r params t :
  emitsOnly (fun ev => mentions AtGetMany ev = false) (readManyCatch r params t).
Proof. unfold readManyCatch. pieces ltac:(done). Qed.

(** Without the steps that may rewrite the input, the body of the [try] is
    the service call on the input itself, followed by phases 6 to 9. *)
Lemma tryBlock_untransformed o svc setSt data :
  transformer o = None -> beforeValidation o = None ->
  validationSchema o = None -> beforeService o = None ->
  tryBlock o svc setSt data =
  bind (call AtService [data] (svc data)) (fun sr => fromPhase6 o setSt sr data data).
Proof.
  intros Ht Hbv Hv Hbs.
  unfold tryBlock, phase1, phase2, phase3, phase4, phase5, fromPhase6.
  by rewrite Ht, Hbv, Hv, Hbs.
Qed.

Lemma readManyTry_untransformed r getMany params :
  Read.transformer r = None -> Read.validationSchema r = None ->
  Read.beforeService r = None ->
  readManyTry r getMany params =
  bind (call AtGetMany [params] (getMany params)) (fun result => afterGetMany r result params).
Proof.
  intros Ht Hv Hbs.
  unfold readManyTry, readValidate, readTransform, readBeforeService, afterGetMany.
  by rewrite Ht, Hv, Hbs.
Qed.

End BackendFacts.

(** C7, as the code has it. Without an input transformer the transform step
    returns its argument and does nothing else. When in addition none of the
    other steps that may rewrite the input is configured ([beforeValidation],
    the validation schema and [beforeService] for create; the validation
    schema and [beforeService] for read-many), [create(dto)] calls the backend
    service once, with [dto] itself, and [getMany(params)] calls the backend
    [getMany] once, with [params] itself. *)
Theorem untransformed_input_reaches_backend {W : Type} (options : Options.t W)
    (o : OperationOptions W) (svc : Value -> Effect W Value)
    (r : Read.Options W) (s : Read.Service W) (getMany : Value -> Effect W Value)
    (dto params : Value) (w : World W) :
  Options.create options = Some o -> service o = Some svc ->
  transformer o = None ->
  beforeValidation o = None -> validationSchema o = None -> beforeService o = None ->
  Options.read options = Some r -> Read.service r = Some s ->
  Read.getMany s = Some getMany ->
  Read.transformer r = None ->
  Read.validationSchema r = None -> Read.beforeService r = None ->
  (forall pd w0, phase3 o pd w0 = (Returned pd, w0))
  /\ (forall p w0, readTransform r p w0 = (Returned p, w0))
  /\ (exists evs,
        trace (execute (Result.create (useCRUD options)) dto w).2 = trace w ++ evs
        /\ callsAt AtService evs = [[dto]])
  /\ (exists evs,
        trace (execute (Result.many (Result.read (useCRUD options))) params w).2 = trace w ++ evs
        /\ callsAt AtGetMany evs = [[params]]).
Proof.
  intros Hc Hs Ht Hbv Hv Hbs Hr Hrs Hg Hrt Hrv Hrbs.
  split; [|split; [|split]].
  - intros pd w0. unfold phase3. by rewrite Ht.
  - intros p w0. unfold readTransform. by rewrite Hrt.
  - simpl. rewrite Hc, (executeOperation_eq _ _ _ _ _ Hs).
    rewrite (tryBlock_untransformed _ _ _ _ Ht Hbv Hv Hbs).
    match goal with |- context [tryCatch ?m ?h ?w1] =>
      destruct (tryCatch m h w1) as [out w'] eqn:E end.
    apply once_then_quiet in E as (evs & Htr & Hcalls);
      [| intros; apply fromPhase6_quiet | intros; apply catchBlock_quiet].
    exists (StateSet Create loadingState :: evs). simpl in *.
    rewrite Htr, <- app_assoc. split; [done|].
    exact Hcalls.
  - simpl. rewrite (executeReadMany_eq _ _ _ _ _ _ Hr Hrs Hg).
    rewrite (readManyTry_untransformed _ _ _ Hrt Hrv Hrbs).
    match goal with |- context [tryCatch ?m ?h ?w1] =>
      destruct (tryCatch m h w1) as [out w'] eqn:E end.
    apply once_then_quiet in E as (evs & Htr & Hcalls);
      [| intros; apply afterGetMany_quiet | intros; apply readManyCatch_quiet].
    exists (StateSet ReadMany loadingState :: evs). simpl in *.
    rewrite Htr, <- app_assoc. split; [done|].
    exact Hcalls.
Qed.

Lemma untransformed_input_reaches_backend_witness :
  (forall pd w0, phase3 (onlyService echo) pd w0 = (Returned pd, w0))
  /\ (forall p w0,
        readTransform (Read.mkOptions None None (Some (Read.mkService None (Some echo)))
                         None None None None None None None None None None) p w0
        = (Returned p, w0))
  /\ (exists evs,
        trace (execute (Result.create (useCRUD plain)) namedA (initialWorld plain tt)).2
          = trace (initialWorld plain tt) ++ evs
        /\ callsAt AtService evs = [[namedA]])
  /\ (exists evs,
        trace (execute (Result.many (Result.read (useCRUD plain))) pageTwo
                 (initialWorld plain tt)).2
          = trace (initialWorld plain tt) ++ evs
        /\ callsAt AtGetMany evs = [[pageTwo]]).
Proof.
  apply (untransformed_input_reaches_backend plain (onlyService echo) echo
           (Read.mkOptions None None (Some (Read.mkService None (Some echo)))
              None None None None None None None None None None)
           (Read.mkService None (Some echo)) echo namedA pageTwo
           (initialWorld plain tt)); reflexivity.
Defined.

(** C7, counterexample. No input transformer is configured, yet the backend
    service does not receive the DTO unchanged: the [beforeService] hook has
    stamped it. *)
Lemma beforeService_rewrites_untransformed_input :
  let out := execute (Result.create (useCRUD stamping)) namedA (initialWorld stamping tt) in
  (Options.create stamping ≫= transformer) = None
  /\ callsAt AtService (trace out.2)
     = [[VObject [("name", VString "a"); ("stamped", VBoolean true)]]]
  /\ callsAt AtService (trace out.2) <> [[namedA]].
Proof. repeat split. discriminate. Qed.

(** ** Read-many without parameters *)

Section ReadManyFacts.
Context {W : Type}.
Implicit Types (r : Read.Options W) (w : World W).

Lemma bind_ret {S A B : Type} (a : A) (k : A -> ST S B) : bind (ret a) k = k a.
Proof. reflexivity. Qed.

(** Falsy parameters skip validation, transformation and [beforeService]. *)
Lemma readValidate_falsy r setSt params :
  truthy params = false -> readValidate r setSt params = ret params.
Proof. intros Hf. unfold readValidate. rewrite Hf. by destruct (Read.validationSchema r). Qed.

Lemma readTransform_falsy r params :
  truthy params = false -> readTransform r params = ret params.
Proof. intros Hf. unfold readTransform. rewrite Hf. by destruct (Read.transformer r). Qed.

Lemma readBeforeService_falsy r params :
  truthy params = false -> readBeforeService r params = ret params.
Proof. intros Hf. unfold readBeforeService. rewrite Hf. by destruct (Read.beforeService r). Qed.

Lemma readManyTry_falsy r getMany params :
  truthy params = false ->
  readManyTry r getMany params =
  bind (call AtGetMany [params] (getMany params)) (fun result => afterGetMany r result params).
Proof.
  intros Hf. unfold readManyTry.
  rewrite (readValidate_falsy _ _ _ Hf), bind_ret.
  rewrite (readTransform_falsy _ _ Hf), bind_ret.
  by rewrite (readBeforeService_falsy _ _ Hf), bind_ret.
Qed.

Lemma executeReadMany_falsy_quiet (options : Options.t W) params :
  truthy params = false ->
  emitsOnly (fun ev => mentions AtOnSuccessMany ev = false
                       /\ mentions AtOnErrorMany ev = false)
            (executeReadMany options params).
Proof.
  intros Hf. unfold executeReadMany.
  destruct (Options.read options) as [r|]; [|by pieces idtac].
  destruct (Read.service r) as [s|]; [|by pieces idtac].
  destruct (Read.getMany s) as [g|]; [|by pieces idtac].
  rewrite (readManyTry_falsy _ _ _ Hf).
  unfold afterGetMany, readManyCatch. rewrite Hf.
  pieces ltac:(by split).
Qed.

End ReadManyFacts.

Section ReadManyWithoutParams.
Context {W : Type}.
Implicit Types (r : Read.Options W) (w : World W).

(** A configured read-many call without parameters goes straight to the
    backend. *)
Lemma executeReadMany_falsy_eq (options : Options.t W) r s getMany params w :
  Options.read options = Some r -> Read.service r = Some s ->
  Read.getMany s = Some getMany ->
  truthy params = false ->
  executeReadMany options params w =
  tryCatch (bind (call AtGetMany [params] (getMany params))
                 (fun result => afterGetMany r result params))
           (readManyCatch r params) (afterLoading ReadMany w).
Proof.
  intros Hr Hs Hg Hf.
  by rewrite (executeReadMany_eq _ _ _ _ _ _ Hr Hs Hg), (readManyTry_falsy _ _ _ Hf).
Qed.

Lemma executeReadMany_falsy_resolves (options : Options.t W) r s getMany params w
    result x2 processed x3 :
  Options.read options = Some r -> Read.service r = Some s ->
  Read.getMany s = Some getMany ->
  truthy params = false ->
  getMany params (ext w) = (Returned result, x2) ->
  manyAfterService r result params x2 = (Returned processed, x3) ->
  executeReadMany options params w
  = (Returned processed,
     afterReadMany w (successState processed) x3
       (Call AtGetMany [params]
        :: whenSome (Read.afterServiceMany r) (Call AtAfterServiceMany [result; params]))).
Proof.
  intros Hr Hs Hg Hf Hget Hafter.
  rewrite (executeReadMany_falsy_eq _ _ _ _ _ _ Hr Hs Hg Hf).
  unfold tryCatch, bind, call, bind, record, run, afterLoading, afterGetMany,
    manyAfterService, afterReadMany in *. simpl. rewrite Hget.
  destruct (Read.afterServiceMany r) as [hook|]; simpl.
  - unfold bind, call, bind, record, run. simpl. rewrite Hafter. simpl.
    rewrite Hf.
    destruct (Read.onSuccessMany r); simpl; by rewrite <- !app_assoc.
  - injection Hafter as <- <-. unfold bind. simpl.
    rewrite Hf.
    destruct (Read.onSuccessMany r); simpl; by rewrite <- !app_assoc.
Qed.

Lemma executeReadMany_falsy_backend_rejects (options : Options.t W) r s getMany
    params w e x2 :
  Options.read options = Some r -> Read.service r = Some s ->
  Read.getMany s = Some getMany ->
  truthy params = false ->
  getMany params (ext w) = (Threw e, x2) ->
  executeReadMany options params w
  = (Threw e, afterReadMany w (errorState e) x2 [Call AtGetMany [params]]).
Proof.
  intros Hr Hs Hg Hf Hget.
  rewrite (executeReadMany_falsy_eq _ _ _ _ _ _ Hr Hs Hg Hf).
  unfold tryCatch, bind, call, bind, record, run, afterLoading, readManyCatch,
    afterReadMany. simpl. rewrite Hget. simpl.
  unfold bind, setState, throw. simpl. rewrite Hf.
  destruct (Read.onErrorMany r); simpl; by rewrite <- !app_assoc.
Qed.

Lemma executeReadMany_falsy_hook_rejects (options : Options.t W) r s getMany
    params w result x2 e x3 :
  Options.read options = Some r -> Read.service r = Some s ->
  Read.getMany s = Some getMany ->
  truthy params = false ->
  getMany params (ext w) = (Returned result, x2) ->
  manyAfterService r result params x2 = (Threw e, x3) ->
  executeReadMany options params w
  = (Threw e, afterReadMany w (errorState e) x3
                [Call AtGetMany [params]; Call AtAfterServiceMany [result; params]]).
Proof.
  intros Hr Hs Hg Hf Hget Hafter.
  rewrite (executeReadMany_falsy_eq _ _ _ _ _ _ Hr Hs Hg Hf).
  unfold tryCatch, bind, call, bind, record, run, afterLoading, afterGetMany,
    readManyCatch, manyAfterService, afterReadMany in *. simpl. rewrite Hget.
  destruct (Read.afterServiceMany r) as [hook|]; simpl; [|discriminate].
  unfold bind, call, bind, record, run. simpl. rewrite Hafter. simpl.
  unfold bind, setState, throw. simpl. rewrite Hf.
  destruct (Read.onErrorMany r); simpl; by rewrite <- !app_assoc.
Qed.

(** Without parameters the run does not depend on the two notifiers. *)
Lemma executeReadMany_falsy_ignores_notifiers (options : Options.t W) params w
    onSuccessMany onErrorMany :
  truthy params = false ->
  executeReadMany (withManyNotifiers options onSuccessMany onErrorMany) params w
  = executeReadMany options params w.
Proof.
  intros Hf. unfold executeReadMany, withManyNotifiers. simpl.
  destruct (Options.read options) as [r|]; simpl; [|done].
  destruct (Read.service r) as [s|]; [|done].
  destruct (Read.getMany s) as [g|]; [|done].
  rewrite !(readManyTry_falsy _ _ _ Hf).
  unfold bind, tryCatch, setState, call, bind, record, run, afterGetMany,
    readManyCatch. simpl. rewrite !Hf.
  destruct (g params (ext w)) as [[result|e] x2]; simpl.
  - destruct (Read.afterServiceMany r) as [hook|]; simpl.
    + unfold bind, call, bind, record, run. simpl.
      destruct (hook result params x2) as [[processed|e] x3]; simpl.
      * by destruct onSuccessMany, (Read.onSuccessMany r).
      * unfold bind, throw. simpl.
        by destruct onErrorMany, (Read.onErrorMany r).
    + by destruct onSuccessMany, (Read.onSuccessMany r).
  - unfold bind, throw. simpl.
    by destruct onErrorMany, (Read.onErrorMany r).
Qed.

End ReadManyWithoutParams.

(** C10, as the code has it. In read-many [execute] of the orchestrator, a
    call without parameters ([undefined], or any falsy value) does not reach
    the guarded calls of [onSuccessMany] and [onErrorMany]: the run is the
    same whatever functions are configured under these two names. A
    configured call whose backend resolves, and whose [afterServiceMany]
    (if any) returns, resolves with that result, leaves its success state and
    calls nothing else; when the backend or [afterServiceMany] throws, it
    rejects with that very error and leaves its error state, again with no
    further call. The typed factory, however, moves the caller's
    [onSuccessMany] into [afterServiceMany], which is not guarded: through
    [createTypedCrud] a successful call without parameters does run the
    caller's [onSuccessMany], once, on the transformed result and the missing
    parameters. *)
Theorem readMany_without_params_skips_guarded_notifiers {W : Type}
    (options : Options.t W) (params : Value) (w : World W) :
  truthy params = false ->
  let many := fun o => execute (Result.many (Result.read (useCRUD o))) params in
  (forall onSuccessMany onErrorMany,
     many (withManyNotifiers options onSuccessMany onErrorMany) w = many options w)
  /\ (forall r s getMany,
        Options.read options = Some r -> Read.service r = Some s ->
        Read.getMany s = Some getMany ->
        (forall result x2 processed x3,
           getMany params (ext w) = (Returned result, x2) ->
           manyAfterService r result params x2 = (Returned processed, x3) ->
           many options w
           = (Returned processed,
              afterReadMany w (successState processed) x3
                (Call AtGetMany [params]
                 :: whenSome (Read.afterServiceMany r)
                             (Call AtAfterServiceMany [result; params]))))
        /\ (forall e x2,
              getMany params (ext w) = (Threw e, x2) ->
              many options w
              = (Threw e, afterReadMany w (errorState e) x2 [Call AtGetMany [params]]))
        /\ (forall result x2 e x3,
              getMany params (ext w) = (Returned result, x2) ->
              manyAfterService r result params x2 = (Threw e, x3) ->
              many options w
              = (Threw e,
                 afterReadMany w (errorState e) x3
                   [Call AtGetMany [params]; Call AtAfterServiceMany [result; params]])))
  /\ (forall t r s getMany hook result x2 transformed x3 x4,
        Options.read options = Some r -> Read.service r = Some s ->
        Read.getMany s = Some getMany ->
        Read.onSuccessMany r = Some hook ->
        getMany params (ext w) = (Returned result, x2) ->
        transformReadManyResult t result x2 = (Returned transformed, x3) ->
        hook transformed params x3 = (Returned tt, x4) ->
        execute (Result.many (Result.read (createTypedCrud t options))) params w
        = (Returned transformed,
           afterReadMany w (successState transformed) x4
             [Call AtGetMany [params]; Call AtAfterServiceMany [result; params]])).
Proof.
  intros Hf many. split; [|split].
  - intros hs he. by apply executeReadMany_falsy_ignores_notifiers.
  - intros r s getMany Hr Hs Hg. split; [|split].
    + intros result x2 processed x3.
      by apply (executeReadMany_falsy_resolves options r s getMany).
    + intros e x2. by apply (executeReadMany_falsy_backend_rejects options r s getMany).
    + intros result x2 e x3.
      by apply (executeReadMany_falsy_hook_rejects options r s getMany).
  - intros t r s getMany hook result x2 transformed x3 x4 Hr Hs Hg Hh Hget Htr Hhook.
    assert (Hr' : Options.read (typedOptions t options) = Some (typedReadOptions t r)).
    { unfold typedOptions. simpl. by rewrite Hr. }
    assert (Hafter : manyAfterService (typedReadOptions t r) result params x2
                     = (Returned transformed, x4)).
    { unfold manyAfterService. simpl. rewrite Hh. unfold bind.
      by rewrite Htr, Hhook. }
    exact (executeReadMany_falsy_resolves (typedOptions t options) (typedReadOptions t r)
             s getMany params w result x2 transformed x4 Hr' Hs Hg Hf Hget Hafter).
Qed.

Lemma readMany_without_params_skips_guarded_notifiers_witness :
  let options := countingManyNotifier in
  let params := VUndefined in
  let w := initialWorld countingManyNotifier 0 in
  let many := fun o => execute (Result.many (Result.read (useCRUD o))) params in
  (forall onSuccessMany onErrorMany,
     many (withManyNotifiers options onSuccessMany onErrorMany) w = many options w)
  /\ (forall r s getMany,
        Options.read options = Some r -> Read.service r = Some s ->
        Read.getMany s = Some getMany ->
        (forall result x2 processed x3,
           getMany params (ext w) = (Returned result, x2) ->
           manyAfterService r result params x2 = (Returned processed, x3) ->
           many options w
           = (Returned processed,
              afterReadMany w (successState processed) x3
                (Call AtGetMany [params]
                 :: whenSome (Read.afterServiceMany r)
                             (Call AtAfterServiceMany [result; params]))))
        /\ (forall e x2,
              getMany params (ext w) = (Threw e, x2) ->
              many options w
              = (Threw e, afterReadMany w (errorState e) x2 [Call AtGetMany [params]]))
        /\ (forall result x2 e x3,
              getMany params (ext w) = (Returned result, x2) ->
              manyAfterService r result params x2 = (Threw e, x3) ->
              many options w
              = (Threw e,
                 afterReadMany w (errorState e) x3
                   [Call AtGetMany [params]; Call AtAfterServiceMany [result; params]])))
  /\ (forall t r s getMany hook result x2 transformed x3 x4,
        Options.read options = Some r -> Read.service r = Some s ->
        Read.getMany s = Some getMany ->
        Read.onSuccessMany r = Some hook ->
        getMany params (ext w) = (Returned result, x2) ->
        transformReadManyResult t result x2 = (Returned transformed, x3) ->
        hook transformed params x3 = (Returned tt, x4) ->
        execute (Result.many (Result.read (createTypedCrud t options))) params w
        = (Returned transformed,
           afterReadMany w (successState transformed) x4
             [Call AtGetMany [params]; Call AtAfterServiceMany [result; params]])).
Proof.
  apply (readMany_without_params_skips_guarded_notifiers countingManyNotifier VUndefined
           (initialWorld countingManyNotifier 0)).
  reflexivity.
Defined.

(** C10, counterexample. Both notifiers count their calls. Through the
    typed factory, a successful [getMany()] without parameters leaves the
    counter at 1: the caller's [onSuccessMany] was invoked, inside the
    factory's [afterServiceMany], although no parameters were supplied. The
    same call on the orchestrator itself leaves the counter at 0. *)
Lemma typed_getMany_without_params_invokes_onSuccessMany :
  let typed := execute (Result.many (Result.read (createTypedCrud incrementing
                                                    countingManyNotifier)))
                 VUndefined
                 (initialWorld (typedOptions incrementing countingManyNotifier) 0) in
  let direct := execute (Result.many (Result.read (useCRUD countingManyNotifier)))
                  VUndefined (initialWorld countingManyNotifier 0) in
  typed.1 = Returned (VObject [("data", VArray [VNumber 2; VNumber 6]);
                               ("meta", VObject [("total", VNumber 2)])])
  /\ ext typed.2 = 1
  /\ trace typed.2
     = [StateSet ReadMany loadingState; Call AtGetMany [VUndefined];
        Call AtAfterServiceMany [twoOfTwo; VUndefined];
        StateSet ReadMany
          (successState (VObject [("data", VArray [VNumber 2; VNumber 6]);
                                  ("meta", VObject [("total", VNumber 2)])]))]
  /\ direct.1 = Returned twoOfTwo
  /\ ext direct.2 = 0.
Proof. by vm_compute. Qed.

(** The two runs without parameters on concrete options with both notifiers
    configured, and the run with parameters for contrast. *)
Example getMany_undefined_resolves_silently :
  let out := execute (Result.many (Result.read (useCRUD (notifying echo)))) VUndefined
                     (initialWorld (notifying echo) tt) in
  out.1 = Returned VUndefined
  /\ trace out.2 = [StateSet ReadMany loadingState; Call AtGetMany [VUndefined];
                    StateSet ReadMany (successState VUndefined)].
Proof. by vm_compute. Qed.

Example getMany_undefined_rejects_silently :
  let out := execute (Result.many (Result.read (useCRUD (notifying (fun _ => throw boom)))))
                     VUndefined (initialWorld (notifying (fun _ => throw boom)) tt) in
  out.1 = Threw boom
  /\ trace out.2 = [StateSet ReadMany loadingState; Call AtGetMany [VUndefined];
                    StateSet ReadMany (errorState boom)].
Proof. by vm_compute. Qed.

Example getMany_with_params_notifies :
  let out := execute (Result.many (Result.read (useCRUD (notifying echo)))) pageTwo
                     (initialWorld (notifying echo) tt) in
  out.1 = Returned pageTwo
  /\ trace out.2 = [StateSet ReadMany loadingState; Call AtGetMany [pageTwo];
                    StateSet ReadMany (successState pageTwo);
                    Call AtOnSuccessMany [pageTwo; pageTwo]].
Proof. by vm_compute. Qed.

(** ** The typed factory *)

Section FactoryFacts.
Context {W : Type}.
Implicit Types (t : TransformOptions W) (o : OperationOptions W)
  (r : Read.Options W) (w : World W).

(** Phases 6 and 7 of a typed create or update whose caller supplied no
    [afterService]: [resultTransformer] and the factory's [afterService] both
    are the entity transformer, so it is applied twice. *)
Lemma typed_phases_6_7 t o f sr sd w :
  infraEntityToUI t = pure f ->
  afterService o = None ->
  (let* result := phase6 (typedWriteOptions t o) sr in
   phase7 (typedWriteOptions t o) result sd) w
  = (Returned (f (f sr)),
     mkWorld (store w) (ext w)
       (trace w ++ [Call AtResultTransformer [sr]; Call AtAfterService [f sr; sd]])).
Proof.
  intros Hf Ha. unfold phase6, phase7, typedWriteOptions, transformEntityToUI. simpl.
  rewrite Ha, Hf. unfold bind, call, bind, record, run, pure, ret. simpl.
  by rewrite <- app_assoc.
Qed.

Lemma mapItems_pure (f : Value -> Value) items (x : W) :
  mapItems (pure f) items x = (Returned (map f items), x).
Proof.
  induction items as [|item items IH]; [done|].
  simpl. unfold bind, pure, ret in *. simpl. by rewrite IH.
Qed.

(** The default transformation of a read-many result. *)
Lemma transformReadManyResult_default t f fields items (x : W) :
  infraReadManyToUI t = None ->
  infraEntityToUI t = pure f ->
  lookupField fields "data" = VArray items ->
  transformReadManyResult t (VObject fields) x
  = (Returned (VObject [("data", VArray (map f items));
                        ("meta", lookupField fields "meta")]), x).
Proof.
  intros Hg Hf Hd. unfold transformReadManyResult, transformEntityToUI.
  rewrite Hg, Hf. unfold bind, getProp. simpl. rewrite Hd. simpl.
  unfold bind. by rewrite mapItems_pure.
Qed.

(** A typed read-many resolves with what [transformReadManyResult] makes of
    the backend's result, and stores it. *)
Lemma typed_readMany_resolves t (options : Options.t W) r s getMany
    params pp w w1 result x2 ui x3 :
  Options.read options = Some r -> Read.service r = Some s ->
  Read.getMany s = Some getMany ->
  readManyParams r params (afterLoading ReadMany w) = (Returned pp, w1) ->
  getMany pp (ext w1) = (Returned result, x2) ->
  transformReadManyResult t result x2 = (Returned ui, x3) ->
  notifierReturns r ui pp ->
  exists w',
    executeReadMany (typedOptions t options) params w = (Returned ui, w')
    /\ cell ReadMany (store w') = successState ui.
Proof.
  intros Hr Hs Hg Hp Hget Htr Hn.
  assert (Hr' : Options.read (typedOptions t options) = Some (typedReadOptions t r)).
  { unfold typedOptions. simpl. by rewrite Hr. }
  rewrite (executeReadMany_eq _ _ s getMany _ _ Hr' Hs Hg).
  unfold readManyParams in Hp.
  apply bind_Returned_inv in Hp as (p1 & wa & Ha & Hp).
  apply bind_Returned_inv in Hp as (p2 & wb & Hb & Hc).
  match goal with |- context [tryCatch ?m ?h ?w0] =>
    assert (Htry : exists w', m w0 = (Returned ui, w')
                              /\ cell ReadMany (store w') = successState ui) end.
  { unfold readManyTry.
    change (readValidate (typedReadOptions t r)) with (readValidate r).
    change (readTransform (typedReadOptions t r)) with (readTransform r).
    change (readBeforeService (typedReadOptions t r)) with (readBeforeService r).
    rewrite (bind_Returned _ _ _ _ _ Ha), (bind_Returned _ _ _ _ _ Hb),
      (bind_Returned _ _ _ _ _ Hc).
    rewrite (bind_Returned _ _ _ _ _ (call_eq _ _ _ _ _ _ Hget)).
    unfold notifierReturns in Hn. simpl.
    destruct (Read.onSuccessMany r) as [hook|] eqn:Hh.
    - destruct (Hn x3) as (x4 & H4).
      assert (Hwrap : (let* transformedResult := transformReadManyResult t result in
                       hook transformedResult pp ;;; ret transformedResult) x2
                      = (Returned ui, x4)).
      { unfold bind. by rewrite Htr, H4. }
      rewrite (bind_Returned _ _ _ _ _ (call_eq_mk _ _ _ _ _ _ _ _ Hwrap)).
      unfold bind at 1. simpl.
      destruct (truthy pp).
      + destruct (Hn x4) as (x5 & H5).
        rewrite (bind_Returned _ _ _ _ _ (call_eq_mk _ _ _ _ _ _ _ _ H5)).
        eexists. split; [reflexivity|]. done.
      + eexists. split; [reflexivity|]. done.
    - assert (Hwrap : (let* transformedResult := transformReadManyResult t result in
                       ret tt ;;; ret transformedResult) x2
                      = (Returned ui, x3)).
      { unfold bind. by rewrite Htr. }
      rewrite (bind_Returned _ _ _ _ _ (call_eq_mk _ _ _ _ _ _ _ _ Hwrap)).
      eexists. split; [reflexivity|]. done. }
  destruct Htry as (w' & Htry & Hcell).
  exists w'. split; [|done]. by apply tryCatch_Returned.
Qed.

End FactoryFacts.

(** C2, on the code. For a typed create whose caller supplied no
    [afterService], with [infraEntityToUI = increment] and a backend that
    resolves with [10]: [execute] resolves with [increment (increment 10)],
    not with [increment 10], and that is what [state.data] holds. The
    transformer runs as [resultTransformer] on the backend's result and once
    more as the factory's [afterService] on the transformed result. *)
Theorem typed_create_transforms_twice :
  let options := typedOptions counting (answering (VNumber 10)) in
  let crud := createTypedCrud counting (answering (VNumber 10)) in
  let out := execute (Result.create crud) namedA (initialWorld options tt) in
  out.1 = Returned (increment (increment (VNumber 10)))
  /\ data (state (Result.create crud) (store out.2)) = increment (increment (VNumber 10))
  /\ out.1 <> Returned (increment (VNumber 10))
  /\ trace out.2 = [StateSet Create loadingState;
                    Call AtService [namedA];
                    Call AtResultTransformer [VNumber 10];
                    Call AtAfterService [VNumber 11; namedA];
                    StateSet Create (successState (VNumber 12))].
Proof. repeat split. discriminate. Qed.

(** C9. For a typed read-many whose backend resolves with [result]:
    when the caller supplied [infraReadManyToUI], [execute] resolves with what
    that transformer makes of the whole result; otherwise it resolves with
    [infraEntityToUI] mapped over the elements of [result.data], next to
    [result.meta] as it came. Either way this is what [state.data] holds. *)
Theorem typed_readMany_transforms_result {W : Type} (t : TransformOptions W)
    (options : Options.t W) (r : Read.Options W) (s : Read.Service W)
    (getMany : Value -> Effect W Value) (params pp result : Value)
    (w w1 : World W) (x2 : W) :
  Options.read options = Some r -> Read.service r = Some s ->
  Read.getMany s = Some getMany ->
  readManyParams r params (afterLoading ReadMany w) = (Returned pp, w1) ->
  getMany pp (ext w1) = (Returned result, x2) ->
  let crud := createTypedCrud t options in
  let out := execute (Result.many (Result.read crud)) params w in
  (forall g ui x3,
     infraReadManyToUI t = Some g -> g result x2 = (Returned ui, x3) ->
     notifierReturns r ui pp ->
     out.1 = Returned ui
     /\ data (state (Result.many (Result.read crud)) (store out.2)) = ui)
  /\ (forall f fields items,
        infraReadManyToUI t = None -> infraEntityToUI t = pure f ->
        result = VObject fields -> lookupField fields "data" = VArray items ->
        let ui := VObject [("data", VArray (map f items));
                           ("meta", lookupField fields "meta")] in
        notifierReturns r ui pp ->
        out.1 = Returned ui
        /\ data (state (Result.many (Result.read crud)) (store out.2)) = ui).
Proof.
  intros Hr Hs Hg Hp Hget crud out. split.
  - intros g ui x3 Hcustom Hui Hn.
    assert (Htr : transformReadManyResult t result x2 = (Returned ui, x3)).
    { unfold transformReadManyResult. by rewrite Hcustom. }
    destruct (typed_readMany_resolves t options r s getMany params pp w w1 result
                x2 ui x3 Hr Hs Hg Hp Hget Htr Hn) as (w' & Hex & Hcell).
    subst out crud. simpl. rewrite Hex. simpl in *. by rewrite Hcell.
  - intros f fields items Hnone Hf -> Hd ui Hn.
    pose proof (transformReadManyResult_default t f fields items x2 Hnone Hf Hd) as Htr.
    destruct (typed_readMany_resolves t options r s getMany params pp w w1 _
                x2 ui x2 Hr Hs Hg Hp Hget Htr Hn) as (w' & Hex & Hcell).
    subst out crud. simpl. rewrite Hex. simpl in *. by rewrite Hcell.
Qed.

Lemma typed_readMany_transforms_result_witness :
  let r := listingRead twoOfTwo in
  let crud := createTypedCrud counting (listing twoOfTwo) in
  let w := initialWorld (typedOptions counting (listing twoOfTwo)) tt in
  let out := execute (Result.many (Result.read crud)) pageTwo w in
  (forall g ui x3,
     infraReadManyToUI counting = Some g -> g twoOfTwo tt = (Returned ui, x3) ->
     notifierReturns r ui pageTwo ->
     out.1 = Returned ui
     /\ data (state (Result.many (Result.read crud)) (store out.2)) = ui)
  /\ (forall f fields items,
        infraReadManyToUI counting = None -> infraEntityToUI counting = pure f ->
        twoOfTwo = VObject fields -> lookupField fields "data" = VArray items ->
        let ui := VObject [("data", VArray (map f items));
                           ("meta", lookupField fields "meta")] in
        notifierReturns r ui pageTwo ->
        out.1 = Returned ui
        /\ data (state (Result.many (Result.read crud)) (store out.2)) = ui).
Proof.
  apply (typed_readMany_transforms_result counting (listing twoOfTwo)
           (listingRead twoOfTwo) (answeringService twoOfTwo)
           (pure (fun _ => twoOfTwo)) pageTwo pageTwo twoOfTwo
           (initialWorld (typedOptions counting (listing twoOfTwo)) tt)
           (afterLoading ReadMany (initialWorld (typedOptions counting (listing twoOfTwo)) tt))
           tt); reflexivity.
Defined.

(** The two cases of C9 on a page of two entities: the default mapping, and
    a caller-supplied whole-result transformer that takes its place. *)
Example typed_getMany_maps_elements :
  let crud := createTypedCrud counting (listing twoOfTwo) in
  let out := execute (Result.many (Result.read crud)) pageTwo
               (initialWorld (typedOptions counting (listing twoOfTwo)) tt) in
  out.1 = Returned (VObject [("data", VArray [VNumber 2; VNumber 6]);
                             ("meta", VObject [("total", VNumber 2)])])
  /\ state (Result.many (Result.read crud)) (store out.2)
     = successState (VObject [("data", VArray [VNumber 2; VNumber 6]);
                              ("meta", VObject [("total", VNumber 2)])]).
Proof. by vm_compute. Qed.

Example typed_getMany_prefers_whole_result_transformer :
  let custom := mkTransformOptions (pure increment) None
                  (Some (pure (fun _ => VString "whole result"))) in
  let crud := createTypedCrud custom (listing twoOfTwo) in
  let out := execute (Result.many (Result.read crud)) pageTwo
               (initialWorld (typedOptions custom (listing twoOfTwo)) tt) in
  out.1 = Returned (VString "whole result")
  /\ state (Result.many (Result.read crud)) (store out.2)
     = successState (VString "whole result").
Proof. by vm_compute. Qed.

(** The error of [CrudService.update] without an API function names the
    verb and the entity. *)
Example crudService_update_error_names_verb_and_entity :
  let this := CrudService.new "Task" (CrudService.Api.mk None None None None) None in
  CrudService.update this (VNumber 1) tt
    = (Threw (JsError "Update API not implemented for Task"), tt)
  /\ occursIn "update" "Update API not implemented for Task" = true
  /\ occursIn "Task" "Update API not implemented for Task" = true.
Proof. by vm_compute. Qed.

(** ** The other validation entry points *)

(** The uniform error made of a list of failures. *)
Lemma toValidationError_spec issues :
  exists errs,
    toValidationError issues
    = {| message := "Validation failed"; path := Some (firstFieldPath issues);
         errors := Some errs; code := None |}
    /\ forall key,
         errs !! key = if storable key then lastMessageAt key issues else None.
Proof.
  unfold toValidationError.
  destruct (fold_left forEachIssue issues (∅, [])) as [errs pth] eqn:E.
  exists errs. split.
  - pose proof (fold_forEachIssue_path issues ∅ []) as H.
    rewrite E in H. simpl in H. by rewrite H.
  - intros key. pose proof (fold_forEachIssue_errors issues ∅ [] key) as H.
    rewrite E in H. simpl in H. rewrite H, lookup_empty.
    by destruct (storable key), (lastMessageAt key issues).
Qed.

Lemma last_filter_Some {A : Type} (p : A -> bool) (l : list A) (x : A) :
  last (List.filter p l) = Some x -> x ∈ l /\ p x = true.
Proof.
  intros H. apply last_Some_elem_of in H.
  apply list_elem_of_In, List.filter_In in H as [Hin Hp].
  split; [by apply list_elem_of_In | done].
Qed.

Lemma last_filter_is_Some {A : Type} (p : A -> bool) (l : list A) (x : A) :
  x ∈ l -> p x = true -> is_Some (last (List.filter p l)).
Proof.
  intros Hin Hp.
  assert (Hf : x ∈ List.filter p l).
  { apply list_elem_of_In, List.filter_In. split; [by apply list_elem_of_In | done]. }
  destruct (List.filter p l) as [|y l'] eqn:E using rev_ind.
  - by apply elem_of_nil in Hf.
  - rewrite last_snoc. eauto.
Qed.

(** X1. The two ways of the adapter report the same failure: where the
    schema's [parse] throws its native error and its [safeParse] returns the
    same failures, the adapter's [parse] throws and the adapter's [safeParse]
    returns one and the same uniform error. *)
Theorem safeParse_agrees_with_parse {W : Type} (schema : ZodType.t W)
    (data : Value) (w w' : W) (issues : list Zod.Issue) :
  ZodType.parse schema data w = (Threw (ZodError issues), w') ->
  ZodType.safeParse schema data w = (Returned (ZodFailure issues), w') ->
  exists ve,
    parse (createZodValidationSchema (ZodType.parse schema)) data w
      = (Threw (ValidationFailure ve), w')
    /\ ZodAdapter.safeParse schema data w = (Returned (SafeFailure ve), w')
    /\ path ve = Some (firstFieldPath issues).
Proof.
  intros Hp Hs. exists (toValidationError issues). split; [|split].
  - simpl. by rewrite Hp.
  - unfold ZodAdapter.safeParse, bind. by rewrite Hs.
  - by destruct (toValidationError_spec issues) as (errs & -> & _).
Qed.

Lemma safeParse_agrees_with_parse_witness :
  exists ve,
    parse (createZodValidationSchema (ZodType.parse (failingWith twoFailuresOneField)))
          VNull tt = (Threw (ValidationFailure ve), tt)
    /\ ZodAdapter.safeParse (failingWith twoFailuresOneField) VNull tt
       = (Returned (SafeFailure ve), tt)
    /\ path ve = Some (firstFieldPath twoFailuresOneField).
Proof.
  apply (safeParse_agrees_with_parse (failingWith twoFailuresOneField) VNull tt tt
           twoFailuresOneField); reflexivity.
Defined.

(** X2. The library's native error never leaves the adapter: whatever the
    schema does, neither [parse] nor [parseAsync] throws a [ZodError], and
    [safeParse] throws only what the schema's own [safeParse] threw. *)
Theorem adapter_never_throws_native_error {W : Type} (schema : ZodType.t W)
    (data : Value) (w : W) :
  (forall issues,
     (parse (createZodValidationSchema (ZodType.parse schema)) data w).1
       <> Threw (ZodError issues))
  /\ (forall issues,
        (ZodAdapter.parseAsync schema data w).1 <> Threw (ZodError issues))
  /\ (forall t,
        (ZodAdapter.safeParse schema data w).1 = Threw t ->
        (ZodType.safeParse schema data w).1 = Threw t).
Proof.
  split; [|split].
  - intros issues. simpl.
    by destruct (ZodType.parse schema data w) as [[v|[]] w'].
  - intros issues. unfold ZodAdapter.parseAsync.
    by destruct (ZodType.parseAsync schema data w) as [[v|[]] w'].
  - intros t. unfold ZodAdapter.safeParse, bind.
    destruct (ZodType.safeParse schema data w) as [[[d|issues]|t'] w']; cbn;
      [discriminate | discriminate | by intros [= ->]].
Qed.

(** X3. What the record [errors] can hold. Every entry comes from a
    field-level failure: its key is that failure's joined path and its value
    that failure's message, and no entry has the key [__proto__], which an
    assignment cannot create. A non-empty [path] is a key of [errors] unless
    its joined form is [__proto__]. When all failures are at the root (empty
    paths), [errors] is empty and [path] is [[]]: the uniform error then
    carries no detail at all. *)
Theorem validation_error_entries (issues : list Zod.Issue) :
  exists errs p,
    errors (toValidationError issues) = Some errs
    /\ path (toValidationError issues) = Some p
    /\ (forall key m, errs !! key = Some m ->
          storable key = true
          /\ exists iss, iss ∈ issues /\ Zod.path iss <> []
                         /\ join (Zod.path iss) = key /\ Zod.message iss = m)
    /\ errs !! "__proto__" = None
    /\ (p <> [] -> storable (join p) = true -> is_Some (errs !! join p))
    /\ (Forall (fun iss => Zod.path iss = []) issues -> errs = ∅ /\ p = []).
Proof.
  destruct (toValidationError_spec issues) as (errs & -> & Herrs).
  exists errs, (firstFieldPath issues). simpl.
  split; [done|]. split; [done|]. split; [|split; [|split]].
  - intros key m. rewrite Herrs.
    destruct (storable key) eqn:Hst; [|done]. intros Hm. split; [done|].
    unfold lastMessageAt in Hm.
    destruct (last _) as [iss|] eqn:E; [|done]. injection Hm as <-.
    apply last_filter_Some in E as [Hin Hp].
    apply andb_true_iff in Hp as [Hf Hk].
    exists iss. split; [done|]. split; [by apply fieldLevel_true|].
    split; [by apply String.eqb_eq | done].
  - by rewrite Herrs.
  - unfold firstFieldPath.
    destruct (List.find fieldLevel issues) as [iss|] eqn:E; [|done].
    intros _ Hst. apply List.find_some in E as [Hin Hf].
    rewrite Herrs, Hst. unfold lastMessageAt. apply fmap_is_Some.
    apply (last_filter_is_Some _ _ iss); [by apply list_elem_of_In|].
    by rewrite Hf, String.eqb_refl.
  - intros Hroot. split.
    + apply map_eq. intros key. rewrite Herrs, lookup_empty.
      destruct (storable key); [|done]. unfold lastMessageAt.
      destruct (last _) as [iss|] eqn:E; [|done].
      apply last_filter_Some in E as [Hin Hp].
      apply andb_true_iff in Hp as [Hf _]. apply fieldLevel_true in Hf.
      rewrite Forall_forall in Hroot. by specialize (Hroot iss Hin).
    + unfold firstFieldPath.
      destruct (List.find fieldLevel issues) as [iss|] eqn:E; [|done].
      apply List.find_some in E as [Hin Hf]. apply fieldLevel_true in Hf.
      rewrite Forall_forall in Hroot.
      by specialize (Hroot iss (proj2 (list_elem_of_In _ _) Hin)).
Qed.

Lemma fold_forEachSubmitIssue issues : forall errs key,
  fold_left forEachSubmitIssue issues errs !! key =
  if storable key
  then match lastMessageUnder key issues with
       | Some m => Some m
       | None => errs !! key
       end
  else errs !! key.
Proof.
  induction issues as [|a issues IH] using rev_ind; intros errs key.
  - simpl. by destruct (storable key).
  - rewrite fold_left_app. simpl.
    pose proof (IH errs key) as IH'.
    unfold lastMessageUnder in *. rewrite List.filter_app. simpl.
    unfold forEachSubmitIssue at 1.
    destruct (Zod.path a) as [|seg rest]; simpl.
    + by rewrite app_nil_r.
    + rewrite assignKey_lookup.
      destruct (String.eqb (segmentToString seg) key) eqn:Hk; simpl.
      * destruct (storable key); [|exact IH'].
        by rewrite last_snoc.
      * by rewrite app_nil_r.
Qed.

Lemma lastMessageUnder_single_segments issues key :
  Forall (fun iss => length (Zod.path iss) <= 1) issues ->
  lastMessageUnder key issues = lastMessageAt key issues.
Proof.
  intros Hone. unfold lastMessageUnder, lastMessageAt. f_equal. f_equal.
  apply List.filter_ext_in. intros iss Hin.
  rewrite Forall_forall in Hone.
  specialize (Hone iss (proj2 (list_elem_of_In _ _) Hin)).
  unfold fieldLevel, join.
  destruct (Zod.path iss) as [|seg [|seg' rest]]; simpl in *; [done|done|lia].
Qed.

(** X4. [validateSubmit] keeps one message per top-level field: on a schema
    failure it throws the error whose record [errors] holds, under the first
    path segment of each field-level failure, the message of the last failure
    below that segment, so failures on different nested fields of one object
    replace each other; a first segment [__proto__] gives no entry. When every
    failure has a path of at most one segment, the record is the one the
    adapter's [parse] builds. *)
Theorem validateSubmit_keys_by_first_segment {W : Type}
    (schemas : ValidatorSchemas W) (schema : ZodType.t W) (data : Value)
    (w w' : W) (issues : list Zod.Issue) :
  submit schemas = Some schema ->
  ZodType.parse schema data w = (Threw (ZodError issues), w') ->
  exists errs,
    validateSubmit schemas data w = (inr (FailedWith errs), w')
    /\ (forall key,
          errs !! key = if storable key then lastMessageUnder key issues else None)
    /\ (Forall (fun iss => length (Zod.path iss) <= 1) issues ->
        errors (toValidationError issues) = Some errs).
Proof.
  intros Hs Hp. exists (fold_left forEachSubmitIssue issues ∅).
  assert (Hlook : forall key,
             fold_left forEachSubmitIssue issues ∅ !! key
             = if storable key then lastMessageUnder key issues else None).
  { intros key. rewrite fold_forEachSubmitIssue, lookup_empty.
    by destruct (storable key), (lastMessageUnder key issues). }
  split; [|split].
  - unfold validateSubmit. by rewrite Hs, Hp.
  - exact Hlook.
  - intros Hone. destruct (toValidationError_spec issues) as (errs & -> & Herrs).
    simpl. f_equal. apply map_eq. intros key.
    by rewrite Herrs, Hlook, lastMessageUnder_single_segments.
Qed.

Lemma validateSubmit_keys_by_first_segment_witness :
  exists errs,
    validateSubmit (mkValidatorSchemas (Some (failingWith twoFailuresBelowAddress)) None None)
                   VNull tt = (inr (FailedWith errs), tt)
    /\ (forall key,
          errs !! key
          = if storable key then lastMessageUnder key twoFailuresBelowAddress else None)
    /\ (Forall (fun iss => length (Zod.path iss) <= 1) twoFailuresBelowAddress ->
        errors (toValidationError twoFailuresBelowAddress) = Some errs).
Proof.
  apply (validateSubmit_keys_by_first_segment
           (mkValidatorSchemas (Some (failingWith twoFailuresBelowAddress)) None None)
           (failingWith twoFailuresBelowAddress) VNull tt tt twoFailuresBelowAddress);
    reflexivity.
Defined.

(** Two failures below [address]: [validateSubmit] keeps the second message
    under [address], the adapter keeps both under their joined paths. *)
Example validateSubmit_collapses_nested_fields :
  lastMessageUnder "address" twoFailuresBelowAddress = Some "City is required"
  /\ lastMessageUnder "address.street" twoFailuresBelowAddress = None
  /\ lastMessageAt "address.street" twoFailuresBelowAddress = Some "Street is required"
  /\ lastMessageAt "address.city" twoFailuresBelowAddress = Some "City is required".
Proof. by vm_compute. Qed.

Lemma fieldSchema_own {W : Type} (schemas : ValidatorSchemas W) field schema :
  fields schemas ≫= (fun fs => fs !! field) = Some schema ->
  fieldSchema schemas field = OwnSchema schema.
Proof.
  unfold fieldSchema. destruct (fields schemas) as [fs|]; simpl; [|done].
  by intros ->.
Qed.

Lemma fieldSchema_inherited {W : Type} (schemas : ValidatorSchemas W) field fs :
  fields schemas = Some fs -> fs !! field = None ->
  field ∈ objectPrototypeMembers ->
  fieldSchema schemas field = InheritedMember.
Proof.
  unfold fieldSchema. intros -> -> Hin. by rewrite bool_decide_eq_true_2.
Qed.

Lemma fieldSchema_none {W : Type} (schemas : ValidatorSchemas W) field :
  fields schemas ≫= (fun fs => fs !! field) = None ->
  fields schemas = None \/ field ∉ objectPrototypeMembers ->
  fieldSchema schemas field = NoSchema.
Proof.
  unfold fieldSchema. destruct (fields schemas) as [fs|]; simpl; [|done].
  intros -> [|Hnin]; [done|]. by rewrite bool_decide_eq_false_2.
Qed.

(** X5. [validateField] never throws: whatever the schemas do, it returns a
    message. The message is empty when the schema consulted accepts the
    value, and empty with nothing called when neither a schema for the field
    nor a live schema exists and the field's name is not one that the object
    [fields] inherits from its prototype. A schema for the field decides
    alone: the live schema is not consulted. When [fields] has no schema of
    its own for the field but the field's name is an inherited member
    ([constructor], [toString], ...), the message is the one for an unknown
    error, nothing is called and the live schema is not consulted either. *)
Theorem validateField_always_returns {W : Type} (schemas : ValidatorSchemas W)
    (field : string) (value : Value) (w : W) :
  exists msg w',
    validateField schemas field value w = (Returned msg, w')
    /\ (fields schemas ≫= (fun fs => fs !! field) = None ->
        fields schemas = None \/ field ∉ objectPrototypeMembers ->
        live schemas = None ->
        msg = "" /\ w' = w)
    /\ (forall schema,
          fields schemas ≫= (fun fs => fs !! field) = Some schema ->
          (forall v w1, ZodType.parse schema value w = (Returned v, w1) -> msg = "")
          /\ forall live',
               validateField (mkValidatorSchemas (submit schemas) live' (fields schemas))
                             field value w = (Returned msg, w'))
    /\ (forall schema v w1,
          fields schemas ≫= (fun fs => fs !! field) = None ->
          fields schemas = None \/ field ∉ objectPrototypeMembers ->
          live schemas = Some schema ->
          ZodType.parse schema (VObject [(field, value)]) w = (Returned v, w1) ->
          msg = "")
    /\ (forall fs,
          fields schemas = Some fs -> fs !! field = None ->
          field ∈ objectPrototypeMembers ->
          msg = "Erreur inconnue" /\ w' = w
          /\ forall live',
               validateField (mkValidatorSchemas (submit schemas) live' (fields schemas))
                             field value w = (Returned "Erreur inconnue", w)).
Proof.
  destruct (fieldSchema schemas field) as [schema| |] eqn:Hfs.
  - assert (Hown : fields schemas ≫= (fun fs => fs !! field) = Some schema).
    { unfold fieldSchema in Hfs. destruct (fields schemas) as [fs|]; simpl; [|done].
      destruct (fs !! field); [by injection Hfs as -> | by case_bool_decide]. }
    assert (Hany : forall live',
               validateField (mkValidatorSchemas (submit schemas) live' (fields schemas))
                             field value w
               = validateField schemas field value w).
    { intros live'. unfold validateField.
      change (fieldSchema (mkValidatorSchemas (submit schemas) live' (fields schemas)) field)
        with (fieldSchema schemas field). by rewrite Hfs. }
    unfold validateField at 1. rewrite Hfs.
    destruct (ZodType.parse schema value w) as [[v|t] w1] eqn:Hp.
    + exists "", w1. split; [done|]. split; [intros; congruence|].
      split; [|split; [intros; congruence|]].
      * intros schema' Hs'. split; [done|]. intros live'. rewrite Hany.
        unfold validateField. by rewrite Hfs, Hp.
      * intros fs Hf Hn. rewrite Hf in Hown. simpl in Hown. congruence.
    + assert (Hout : exists msg, validateField schemas field value w = (Returned msg, w1)
                /\ match t with
                   | ZodError issues => msg = firstMessage issues
                   | _ => msg = "Erreur inconnue"
                   end).
      { unfold validateField. rewrite Hfs, Hp. destruct t; eauto. }
      destruct Hout as (msg & Hout & _). exists msg, w1.
      split; [by unfold validateField in Hout; rewrite Hfs, Hp in Hout|].
      split; [intros; congruence|].
      split; [|split; [intros; congruence|]].
      * intros schema' Hs'. assert (schema' = schema) as -> by congruence.
        split; [intros; congruence|]. intros live'. by rewrite Hany.
      * intros fs Hf Hn. rewrite Hf in Hown. simpl in Hown. congruence.
  - assert (Hin : exists fs, fields schemas = Some fs /\ fs !! field = None
                             /\ field ∈ objectPrototypeMembers).
    { unfold fieldSchema in Hfs. destruct (fields schemas) as [fs|]; [|done].
      exists fs. destruct (fs !! field); [done|]. by case_bool_decide. }
    destruct Hin as (fs & Hf & Hn & Hin).
    exists "Erreur inconnue", w. unfold validateField at 1. rewrite Hfs.
    split; [done|]. split; [|split; [|split]].
    + intros _ [Hnone|Hnin] _; [congruence | done].
    + intros schema Hs. rewrite Hf in Hs. simpl in Hs. congruence.
    + intros schema v w1 _ [Hnone|Hnin]; [congruence | done].
    + intros _ _ _ _. split; [done|]. split; [done|]. intros live'.
      unfold validateField.
      change (fieldSchema (mkValidatorSchemas (submit schemas) live' (fields schemas)) field)
        with (fieldSchema schemas field). by rewrite Hfs.
  - assert (Hown : fields schemas ≫= (fun fs => fs !! field) = None).
    { unfold fieldSchema in Hfs. destruct (fields schemas) as [fs|]; simpl; [|done].
      by destruct (fs !! field). }
    assert (Hnin : forall fs, fields schemas = Some fs -> fs !! field = None ->
                     field ∈ objectPrototypeMembers -> False).
    { intros fs Hf Hn Hin.
      by rewrite (fieldSchema_inherited schemas field fs Hf Hn Hin) in Hfs. }
    unfold validateField. rewrite Hfs.
    destruct (live schemas) as [schema|] eqn:Hl.
    + destruct (ZodType.parse schema (VObject [(field, value)]) w) as [[v|t] w1] eqn:Hp.
      * exists "", w1. split; [done|]. split; [done|].
        split; [intros; congruence|]. split; [done|].
        intros fs Hf Hn Hin. by destruct (Hnin fs).
      * assert (Hout : exists msg,
                  match t with
                  | ZodError issues => (Returned (fieldMessage field issues), w1)
                  | _ => (Returned "Erreur inconnue", w1)
                  end = (Returned msg, w1)) by (destruct t; eauto).
        destruct Hout as (msg & Hout). exists msg, w1.
        split; [by destruct t|]. split; [done|].
        split; [intros; congruence|]. split; [intros; congruence|].
        intros fs Hf Hn Hin. by destruct (Hnin fs).
    + exists "", w. split; [done|]. split; [done|].
      split; [intros; congruence|]. split; [done|].
      intros fs Hf Hn Hin. by destruct (Hnin fs).
Qed.

(** A field named like an inherited member of [fields]: the live schema,
    which has a message for it, is not asked. *)
Example validateField_inherited_member :
  let live := failingWith [ Zod.mkIssue [Key "constructor"] "Required" ] in
  validateField (mkValidatorSchemas None (Some live) (Some ∅)) "constructor" VNull tt
    = (Returned "Erreur inconnue", tt)
  /\ validateField (mkValidatorSchemas None (Some live) None) "constructor" VNull tt
    = (Returned "Required", tt)
  /\ validateField (mkValidatorSchemas None (Some live) (Some ∅)) "name" VNull tt
    = (Returned "", tt).
Proof. by vm_compute. Qed.

(** ** CrudService *)

Lemma lookupField_setField_eq key v fs :
  lookupField (setField key v fs) key = v.
Proof.
  induction fs as [|[k x] fs IH]; simpl.
  - by rewrite String.eqb_refl.
  - destruct (String.eqb k key) eqn:E; simpl; by rewrite E.
Qed.

Lemma lookupField_setField_ne key key' v fs :
  key <> key' -> lookupField (setField key v fs) key' = lookupField fs key'.
Proof.
  intros Hne. induction fs as [|[k x] fs IH]; simpl.
  - by rewrite (proj2 (String.eqb_neq key key') Hne).
  - destruct (String.eqb k key) eqn:E; simpl.
    + apply String.eqb_eq in E. subst k.
      by rewrite (proj2 (String.eqb_neq key key') Hne).
    + by rewrite IH.
Qed.

(** X6. [getOne] merges the identifier into the parameters before it shapes
    the query: with a query transformer and truthy parameters, the
    transformer is given an object whose [id] is the identifier of the call
    (an [id] the caller put in the parameters is replaced) and whose other
    keys are those of the parameters, unchanged; the API is then called with
    the identifier and the transformer's result. *)
Theorem getOne_merges_id {W : Type} (this : CrudService.t W)
    (f : string -> Value -> Effect W Value) (g : Value -> Effect W Value)
    (id : string) (params : Value) :
  CrudService.transformers this ≫= CrudService.readParamsToQuery = Some g ->
  truthy params = true ->
  CrudServiceRead.getOne this (Some f) id params
    = (let* query := g (spreadWithId params id) in f id query)
  /\ getProperty (spreadWithId params id) "id" = Returned (VString id)
  /\ (forall key, key <> "id" ->
        getProperty (spreadWithId params id) key
        = Returned (lookupField (ownProperties params) key)).
Proof.
  intros Hg Ht. split; [|split].
  - unfold CrudServiceRead.getOne. by rewrite Hg, Ht.
  - simpl. by rewrite lookupField_setField_eq.
  - intros key Hne. simpl. by rewrite lookupField_setField_ne.
Qed.

Lemma getOne_merges_id_witness :
  CrudServiceRead.getOne taskService (Some (fun _ => echo)) "42" withOwnId
    = (let* query := echo (spreadWithId withOwnId "42") in (fun _ => echo) "42" query)
  /\ getProperty (spreadWithId withOwnId "42") "id" = Returned (VString "42")
  /\ (forall key, key <> "id" ->
        getProperty (spreadWithId withOwnId "42") key
        = Returned (lookupField (ownProperties withOwnId) key)).
Proof.
  apply (getOne_merges_id taskService (fun _ => echo) echo "42" withOwnId);
    reflexivity.
Defined.

(** X7. Without a transformer in play, every method of the service hands
    its argument to the API function as it is and returns what the API
    returns, errors included: [create], [update] and [delete] when the
    service has no DTO transformer for the verb, [getOne] and [getMany] when
    no query transformer is configured or the parameters are falsy. *)
Theorem service_passes_argument_through {W : Type} (this : CrudService.t W)
    (f : Value -> Effect W Value) (fOne : string -> Value -> Effect W Value)
    (id : string) (data params : Value) :
  queryUntransformed this params ->
  (CrudService.Api.create (CrudService.api this) = Some f ->
   CrudService.transformers this ≫= CrudService.createDtoToEntity = None ->
   CrudService.create this data = f data)
  /\ (CrudService.Api.update (CrudService.api this) = Some f ->
      CrudService.transformers this ≫= CrudService.updateDtoToEntity = None ->
      CrudService.update this data = f data)
  /\ (CrudService.Api.delete (CrudService.api this) = Some f ->
      CrudService.transformers this ≫= CrudService.deleteDtoToEntity = None ->
      CrudService.delete this data = f data)
  /\ (CrudService.Api.getMany (CrudService.api this) = Some f ->
      CrudService.getMany this params = f params)
  /\ CrudServiceRead.getOne this (Some fOne) id params = fOne id params.
Proof.
  intros Hq. repeat split.
  - intros Ha Ht. unfold CrudService.create, CrudService.write. by rewrite Ha, Ht.
  - intros Ha Ht. unfold CrudService.update, CrudService.write. by rewrite Ha, Ht.
  - intros Ha Ht. unfold CrudService.delete, CrudService.write. by rewrite Ha, Ht.
  - intros Ha. unfold CrudService.getMany. rewrite Ha.
    destruct Hq as [Hn | Hf]; [by rewrite Hn|]. rewrite Hf.
    by destruct (CrudService.transformers this ≫= CrudService.readParamsToQuery).
  - unfold CrudServiceRead.getOne.
    destruct Hq as [Hn | Hf]; [by rewrite Hn|]. rewrite Hf.
    by destruct (CrudService.transformers this ≫= CrudService.readParamsToQuery).
Qed.

Lemma service_passes_argument_through_witness :
  (CrudService.Api.create (CrudService.api taskService) = Some echo ->
   CrudService.transformers taskService ≫= CrudService.createDtoToEntity = None ->
   CrudService.create taskService namedA = echo namedA)
  /\ (CrudService.Api.update (CrudService.api taskService) = Some echo ->
      CrudService.transformers taskService ≫= CrudService.updateDtoToEntity = None ->
      CrudService.update taskService namedA = echo namedA)
  /\ (CrudService.Api.delete (CrudService.api taskService) = Some echo ->
      CrudService.transformers taskService ≫= CrudService.deleteDtoToEntity = None ->
      CrudService.delete taskService namedA = echo namedA)
  /\ (CrudService.Api.getMany (CrudService.api taskService) = Some echo ->
      CrudService.getMany taskService VUndefined = echo VUndefined)
  /\ CrudServiceRead.getOne taskService (Some (fun _ => echo)) "42" VUndefined
     = (fun _ => echo) "42" VUndefined.
Proof.
  apply (service_passes_argument_through taskService echo (fun _ => echo) "42"
           namedA VUndefined).
  right. reflexivity.
Defined.

(** A read of task 42 with parameters that carry their own [id]. *)
Example getOne_overrides_caller_id :
  spreadWithId withOwnId "42"
  = VObject [("id", VString "42"); ("includes", VArray [VString "owner"])].
Proof. reflexivity. Qed.

(** ** The state writes of a run *)

Section WriteFacts.
Context {W : Type}.
Implicit Types (o : OperationOptions W) (r : Read.Options W) (w : World W).

Lemma confined_ret {A : Type} v (a : A) : confined (W := W) v (ret a).
Proof. by intros w o w' [= <- <-]. Qed.

Lemma confined_throw {A : Type} v t : confined (W := W) (A := A) v (throw t).
Proof. by intros w o w' [= <- <-]. Qed.

Lemma confined_setState v s : confined (W := W) v (setState v s).
Proof.
  intros w o w' [= <- <-] v' Hne. simpl. by apply cell_setCell_ne.
Qed.

Lemma confined_call {A : Type} v site args (f : Effect W A) :
  confined v (call site args f).
Proof. intros w o w' H v' _. apply call_spec in H as (-> & _). done. Qed.

Lemma confined_callWithError {A : Type} v site e arg (f : Effect W A) :
  confined v (callWithError site e arg f).
Proof. intros w o w' H v' _. apply callWithError_spec in H as (-> & _). done. Qed.

Lemma confined_bind {A B : Type} v (m : M W A) (k : A -> M W B) :
  confined v m -> (forall a, confined v (k a)) -> confined v (bind m k).
Proof.
  intros Hm Hk w o w'. unfold bind.
  destruct (m w) as [[a|t] w1] eqn:E; intros H v' Hne.
  - rewrite (Hk a _ _ _ H v' Hne). by apply (Hm _ _ _ E).
  - injection H as <- <-. by apply (Hm _ _ _ E).
Qed.

Lemma confined_tryCatch {A : Type} v (m : M W A) (h : Thrown -> M W A) :
  confined v m -> (forall t, confined v (h t)) -> confined v (tryCatch m h).
Proof.
  intros Hm Hh w o w'. unfold tryCatch.
  destruct (m w) as [[a|t] w1] eqn:E; intros H v' Hne.
  - injection H as <- <-. by apply (Hm _ _ _ E).
  - rewrite (Hh t _ _ _ H v' Hne). by apply (Hm _ _ _ E).
Qed.

End WriteFacts.

#[export] Hint Resolve confined_ret confined_throw confined_setState
  confined_call confined_callWithError : crud.

(** Breaks an executor into its pieces for [confined]. *)
Ltac confine :=
  repeat first
    [ progress auto with crud
    | apply confined_bind; [|intros ?]
    | apply confined_tryCatch; [|intros ?]
    | match goal with
      | |- context [match ?x with _ => _ end] => destruct x
      end ].

Section ExecutorWrites.
Context {W : Type}.
Implicit Types (o : OperationOptions W) (r : Read.Options W) (w : World W).

Lemma executeOperation_confined v data (opOptions : option (OperationOptions W)) :
  confined v (executeOperation data opOptions (setState v)).
Proof.
  unfold executeOperation, tryBlock, catchBlock,
    phase1, phase2, phase3, phase4, phase5, phase6, phase7, phase8, phase9.
  confine.
Qed.

Lemma executeReadOne_confined (options : Options.t W) id params :
  confined ReadOne (executeReadOne options id params).
Proof.
  unfold executeReadOne, readOneTry, readOneCatch,
    readValidate, readTransform, readBeforeService.
  confine.
Qed.

Lemma executeReadMany_confined (options : Options.t W) params :
  confined ReadMany (executeReadMany options params).
Proof.
  unfold executeReadMany, readManyTry, readManyCatch,
    readValidate, readTransform, readBeforeService.
  confine.
Qed.

Lemma executeOperation_emits (P : Event -> Prop) v data
    (opOptions : option (OperationOptions W)) :
  (forall s, s = loadingState \/ (exists res, s = successState res)
             \/ (exists e, s = errorState e) -> P (StateSet v s)) ->
  (forall site args, P (Call site args)) ->
  (forall site e arg, P (CallWithError site e arg)) ->
  emitsOnly P (executeOperation data opOptions (setState v)).
Proof.
  intros Hs Hc He.
  unfold executeOperation, tryBlock, catchBlock,
    phase1, phase2, phase3, phase4, phase5, phase6, phase7, phase8, phase9.
  pieces ltac:(first [apply Hc | apply He | apply Hs; eauto]).
Qed.

Lemma executeReadOne_emits (P : Event -> Prop) (options : Options.t W) id params :
  (forall s, s = loadingState \/ (exists res, s = successState res)
             \/ (exists e, s = errorState e) -> P (StateSet ReadOne s)) ->
  (forall site args, P (Call site args)) ->
  (forall site e arg, P (CallWithError site e arg)) ->
  emitsOnly P (executeReadOne options id params).
Proof.
  intros Hs Hc He.
  unfold executeReadOne, readOneTry, readOneCatch,
    readValidate, readTransform, readBeforeService.
  pieces ltac:(first [apply Hc | apply He | apply Hs; eauto]).
Qed.

Lemma executeReadMany_emits (P : Event -> Prop) (options : Options.t W) params :
  (forall s, s = loadingState \/ (exists res, s = successState res)
             \/ (exists e, s = errorState e) -> P (StateSet ReadMany s)) ->
  (forall site args, P (Call site args)) ->
  (forall site e arg, P (CallWithError site e arg)) ->
  emitsOnly P (executeReadMany options params).
Proof.
  intros Hs Hc He.
  unfold executeReadMany, readManyTry, readManyCatch,
    readValidate, readTransform, readBeforeService.
  pieces ltac:(first [apply Hc | apply He | apply Hs; eauto]).
Qed.

(** Every state an executor writes is the loading state, a success state or
    an error state, and it goes to the executor's own cell. *)
Lemma executeVerb_emits (P : Event -> Prop) (options : Options.t W) v id input :
  (forall s, s = loadingState \/ (exists res, s = successState res)
             \/ (exists e, s = errorState e) -> P (StateSet v s)) ->
  (forall site args, P (Call site args)) ->
  (forall site e arg, P (CallWithError site e arg)) ->
  emitsOnly P (executeVerb (useCRUD options) v id input).
Proof.
  intros Hs Hc He. destruct v; simpl.
  - by apply executeOperation_emits.
  - by apply executeOperation_emits.
  - by apply executeOperation_emits.
  - by apply executeReadOne_emits.
  - by apply executeReadMany_emits.
Qed.

End ExecutorWrites.

(** X8. The five verbs keep their states apart: a call of [execute] on one
    verb, however it ends, leaves the state of every other verb as it was. *)
Theorem execute_leaves_other_verbs_alone {W : Type} (options : Options.t W)
    (v v' : Verb) (id : string) (input : Value) (w : World W) :
  v' <> v ->
  let crud := useCRUD options in
  stateOf crud v' (store (executeVerb crud v id input w).2) = stateOf crud v' (store w).
Proof.
  intros Hne crud.
  assert (Hc : confined v (executeVerb crud v id input)).
  { destruct v; simpl.
    - apply executeOperation_confined.
    - apply executeOperation_confined.
    - apply executeOperation_confined.
    - apply executeReadOne_confined.
    - apply executeReadMany_confined. }
  assert (Hst : stateOf crud v' = cell v') by by destruct v'.
  rewrite Hst.
  apply (Hc w (executeVerb crud v id input w).1 (executeVerb crud v id input w).2);
    [apply surjective_pairing | done].
Qed.

Lemma execute_leaves_other_verbs_alone_witness :
  let crud := useCRUD startsWithEmptyList in
  stateOf crud Create
    (store (executeVerb crud Update "" (VNumber 1) (initialWorld startsWithEmptyList tt)).2)
  = stateOf crud Create (store (initialWorld startsWithEmptyList tt)).
Proof.
  apply (execute_leaves_other_verbs_alone startsWithEmptyList Update Create ""
           (VNumber 1) (initialWorld startsWithEmptyList tt)).
  discriminate.
Defined.

Section OrderFacts.
Context {W : Type}.
Implicit Types (o : OperationOptions W) (r : Read.Options W) (w : World W).

Lemma operationBody_terminal o svc v data :
  emitsOnly (ownTerminalWrite v)
    (tryCatch (tryBlock o svc (setState v) data) (catchBlock o (setState v) data)).
Proof.
  unfold tryBlock, catchBlock,
    phase1, phase2, phase3, phase4, phase5, phase6, phase7, phase8, phase9.
  pieces ltac:(done).
Qed.

Lemma readOneBody_terminal r getOne id params :
  emitsOnly (ownTerminalWrite ReadOne)
    (tryCatch (readOneTry r getOne id params) (readOneCatch r id)).
Proof.
  unfold readOneTry, readOneCatch, readValidate, readTransform, readBeforeService.
  pieces ltac:(done).
Qed.

Lemma readManyBody_terminal r getMany params :
  emitsOnly (ownTerminalWrite ReadMany)
    (tryCatch (readManyTry r getMany params) (readManyCatch r params)).
Proof.
  unfold readManyTry, readManyCatch, readValidate, readTransform, readBeforeService.
  pieces ltac:(done).
Qed.

Lemma after_loading {A : Type} v (m : M W A) w :
  emitsOnly (ownTerminalWrite v) m ->
  exists evs,
    trace (m (afterLoading v w)).2 = trace w ++ StateSet v loadingState :: evs
    /\ Forall (ownTerminalWrite v) evs.
Proof.
  intros Hm.
  destruct (Hm (afterLoading v w) (m (afterLoading v w)).1 (m (afterLoading v w)).2)
    as (evs & Ht & Hf); [apply surjective_pairing|].
  exists evs. split; [|done]. rewrite Ht. simpl. by rewrite <- app_assoc.
Qed.

End OrderFacts.

(** X9. A configured call writes the loading state first, before it calls
    anything, and never again: every later state write of the run goes to
    the verb's own cell and is not loading. *)
Theorem loading_is_written_first_and_once {W : Type} (options : Options.t W)
    (v : Verb) (id : string) (input : Value) (w : World W) :
  configured options v = true ->
  exists evs,
    trace (executeVerb (useCRUD options) v id input w).2
      = trace w ++ StateSet v loadingState :: evs
    /\ Forall (ownTerminalWrite v) evs.
Proof.
  intros Hc. destruct v; simpl in *.
  - destruct (Options.create options) as [o|]; [|done]. simpl in Hc.
    destruct (service o) as [svc|] eqn:Hs; [|done].
    rewrite (executeOperation_eq _ _ _ _ _ Hs).
    apply after_loading, operationBody_terminal.
  - destruct (Options.update options) as [o|]; [|done]. simpl in Hc.
    destruct (service o) as [svc|] eqn:Hs; [|done].
    rewrite (executeOperation_eq _ _ _ _ _ Hs).
    apply after_loading, operationBody_terminal.
  - destruct (Options.delete options) as [o|]; [|done]. simpl in Hc.
    destruct (service o) as [svc|] eqn:Hs; [|done].
    rewrite (executeOperation_eq _ _ _ _ _ Hs).
    apply after_loading, operationBody_terminal.
  - destruct (Options.read options) as [r|] eqn:Hr; [|done].
    destruct (Read.service r) as [s|] eqn:Hs; [|done].
    destruct (Read.getOne s) as [g|] eqn:Hg; [|done].
    rewrite (executeReadOne_eq _ _ _ _ _ _ _ Hr Hs Hg).
    apply after_loading, readOneBody_terminal.
  - destruct (Options.read options) as [r|] eqn:Hr; [|done].
    destruct (Read.service r) as [s|] eqn:Hs; [|done].
    destruct (Read.getMany s) as [g|] eqn:Hg; [|done].
    rewrite (executeReadMany_eq _ _ _ _ _ _ Hr Hs Hg).
    apply after_loading, readManyBody_terminal.
Qed.

Lemma loading_is_written_first_and_once_witness :
  exists evs,
    trace (executeVerb (useCRUD failingOnSuccess) Create "" (VNumber 1)
             (initialWorld failingOnSuccess tt)).2
      = trace (initialWorld failingOnSuccess tt) ++ StateSet Create loadingState :: evs
    /\ Forall (ownTerminalWrite Create) evs.
Proof.
  apply (loading_is_written_first_and_once failingOnSuccess Create "" (VNumber 1)
           (initialWorld failingOnSuccess tt)).
  reflexivity.
Defined.

Section CoherenceFacts.
Context {W : Type}.

Lemma coherent_loadingState : coherent loadingState.
Proof. by repeat split. Qed.

Lemma coherent_defaultState : coherent defaultState.
Proof. by repeat split. Qed.

Lemma coherent_successState res : coherent (successState res).
Proof. by repeat split. Qed.

Lemma coherent_errorState e : coherent (errorState e).
Proof. by repeat split. Qed.

Lemma storeCoherent_setCell v s st :
  coherent s -> storeCoherent st -> storeCoherent (setCell v s st).
Proof.
  intros Hs Hst v'. destruct (decide (v = v')) as [<-|Hne].
  - by rewrite cell_setCell.
  - by rewrite cell_setCell_ne.
Qed.

Lemma maintains_ret {A : Type} I (a : A) : maintains (W := W) I (ret a).
Proof. by intros w o w' [= <- <-]. Qed.

Lemma maintains_throw {A : Type} I t : maintains (W := W) (A := A) I (throw t).
Proof. by intros w o w' [= <- <-]. Qed.

Lemma maintains_setState v s :
  coherent s -> maintains (W := W) storeCoherent (setState v s).
Proof.
  intros Hs w o w' [= <- <-] Hst. simpl. by apply storeCoherent_setCell.
Qed.

Lemma maintains_call {A : Type} I site args (f : Effect W A) :
  maintains I (call site args f).
Proof. intros w o w' H. by apply call_spec in H as (-> & _). Qed.

Lemma maintains_callWithError {A : Type} I site e arg (f : Effect W A) :
  maintains I (callWithError site e arg f).
Proof. intros w o w' H. by apply callWithError_spec in H as (-> & _). Qed.

Lemma maintains_bind {A B : Type} I (m : M W A) (k : A -> M W B) :
  maintains I m -> (forall a, maintains I (k a)) -> maintains I (bind m k).
Proof.
  intros Hm Hk w o w'. unfold bind.
  destruct (m w) as [[a|t] w1] eqn:E; intros H Hst.
  - apply (Hk a _ _ _ H). by apply (Hm _ _ _ E).
  - injection H as <- <-. by apply (Hm _ _ _ E).
Qed.

Lemma maintains_tryCatch {A : Type} I (m : M W A) (h : Thrown -> M W A) :
  maintains I m -> (forall t, maintains I (h t)) -> maintains I (tryCatch m h).
Proof.
  intros Hm Hh w o w'. unfold tryCatch.
  destruct (m w) as [[a|t] w1] eqn:E; intros H Hst.
  - injection H as <- <-. by apply (Hm _ _ _ E).
  - apply (Hh t _ _ _ H). by apply (Hm _ _ _ E).
Qed.

End CoherenceFacts.

#[export] Hint Resolve maintains_ret maintains_throw maintains_call
  maintains_callWithError coherent_loadingState coherent_defaultState
  coherent_successState coherent_errorState : crud.

(** Breaks an executor into its pieces for [maintains storeCoherent]. *)
Ltac maintain :=
  repeat first
    [ progress auto with crud
    | apply maintains_setState; auto with crud
    | apply maintains_bind; [|intros ?]
    | apply maintains_tryCatch; [|intros ?]
    | match goal with
      | |- context [match ?x with _ => _ end] => destruct x
      end ].

(** X10. The executors and [reset] keep the invariants of the operation
    state: when every cell is coherent (a loading state has no outcome,
    success and error exclude each other, data only on success), as the
    default initial states are, every cell is still coherent after any
    [execute] and any [reset], whatever the hooks did. *)
Theorem states_stay_coherent {W : Type} (options : Options.t W)
    (v : Verb) (id : string) (input : Value) (w : World W) :
  storeCoherent (store w) ->
  let crud := useCRUD options in
  storeCoherent (store (executeVerb crud v id input w).2)
  /\ storeCoherent (store (resetVerb crud v w).2).
Proof.
  intros Hst crud. split.
  - assert (Hm : maintains storeCoherent (executeVerb crud v id input)).
    { destruct v; simpl;
        unfold executeOperation, tryBlock, catchBlock,
          phase1, phase2, phase3, phase4, phase5, phase6, phase7, phase8, phase9,
          executeReadOne, readOneTry, readOneCatch,
          executeReadMany, readManyTry, readManyCatch,
          readValidate, readTransform, readBeforeService;
        maintain. }
    apply (Hm w (executeVerb crud v id input w).1); [apply surjective_pairing | done].
  - destruct v;
      match goal with
      | |- storeCoherent (store (resetVerb _ ?v0 _).2) =>
          apply (storeCoherent_setCell v0 defaultState (store w))
      end; auto with crud.
Qed.

Lemma states_stay_coherent_witness :
  let crud := useCRUD failingOnSuccess in
  let w := initialWorld failingOnSuccess tt in
  storeCoherent (store (executeVerb crud Create "" (VNumber 1) w).2)
  /\ storeCoherent (store (resetVerb crud Create w).2).
Proof.
  apply (states_stay_coherent failingOnSuccess Create "" (VNumber 1)
           (initialWorld failingOnSuccess tt)).
  intros v. by destruct v; repeat split.
Defined.

(** ** Failures and successes of [executeOperation] *)

Section OutcomeFacts.
Context {W : Type}.
Implicit Types (o : OperationOptions W) (r : Read.Options W) (w : World W).

(** Whatever step of the [try] body throws, the outer [catch] deals with
    the thrown value. *)
Lemma executeOperation_throw_spec o svc v data w e w2 :
  service o = Some svc ->
  tryBlock o svc (setState v) data (afterLoading v w) = (Threw e, w2) ->
  exists t w',
    executeOperation data (Some o) (setState v) w = (Threw t, w')
    /\ cell v (store w') = errorState e
    /\ trace w' = trace w2 ++ catchEvents o v data e
    /\ catchOutcome o data e (ext w2) t (ext w').
Proof.
  intros Hs Htry.
  rewrite (executeOperation_eq _ _ _ _ _ Hs), (tryCatch_Threw _ _ _ _ _ Htry).
  destruct (catchBlock_spec o v data e w2) as (t & w' & Hc & Hst & Htr & Hout).
  exists t, w'. split; [exact Hc|]. split; [|by split].
  rewrite Hst. apply cell_setCell.
Qed.

End OutcomeFacts.

(** X11. A rejection of the backend is recorded as it is and handed on as it
    is: when the service call throws [e], no later step runs (no result
    transformer, no [afterService], no success state, no [onSuccess]), the
    state becomes the error state of [e] itself, [onError] is called with [e]
    and the input [execute] was called with (not the transformed payload),
    and [execute] rejects with [e] unless [onError] throws. *)
Theorem service_failure_is_recorded_verbatim {W : Type} (o : OperationOptions W)
    (svc : Value -> Effect W Value) (v : Verb) (data sd pd : Value)
    (w w1 : World W) (e : Thrown) (x : W) :
  service o = Some svc ->
  throughPhase4 o (setState v) data (afterLoading v w) = (Returned (sd, pd), w1) ->
  svc sd (ext w1) = (Threw e, x) ->
  exists t w',
    executeOperation data (Some o) (setState v) w = (Threw t, w')
    /\ cell v (store w') = errorState e
    /\ trace w' = trace w1 ++ Call AtService [sd] :: catchEvents o v data e
    /\ catchOutcome o data e x t (ext w').
Proof.
  intros Hs H4 Hsvc.
  set (w2 := mkWorld (store w1) x (trace w1 ++ [Call AtService [sd]])).
  assert (Htry : tryBlock o svc (setState v) data (afterLoading v w) = (Threw e, w2)).
  { unfold throughPhase4 in H4.
    apply bind_Returned_inv in H4 as (p1 & wa & Ha & H4).
    apply bind_Returned_inv in H4 as (p2 & wb & Hb & H4).
    apply bind_Returned_inv in H4 as (s1 & wc & Hc & H4).
    apply bind_Returned_inv in H4 as (s2 & wd & Hd & H4).
    injection H4 as -> -> ->.
    unfold tryBlock.
    rewrite (bind_Returned _ _ _ _ _ Ha), (bind_Returned _ _ _ _ _ Hb),
      (bind_Returned _ _ _ _ _ Hc), (bind_Returned _ _ _ _ _ Hd).
    apply bind_Threw. unfold phase5. by apply call_eq. }
  destruct (executeOperation_throw_spec o svc v data w e w2 Hs Htry)
    as (t & w' & Hex & Hcell & Htr & Hout).
  exists t, w'. split; [exact Hex|]. split; [exact Hcell|]. split; [|exact Hout].
  rewrite Htr. simpl. by rewrite <- app_assoc.
Qed.

Lemma service_failure_is_recorded_verbatim_witness :
  let o := mkOperationOptions None None None (Some (fun _ => throw boom)) None None None
             (Some (fun _ _ => throw (JsError "while reporting"))) None None in
  let w := initialWorld doublyFailing tt in
  exists t w',
    executeOperation namedA (Some o) (setState Create) w = (Threw t, w')
    /\ cell Create (store w') = errorState boom
    /\ trace w' = trace (afterLoading Create w)
                  ++ Call AtService [namedA] :: catchEvents o Create namedA boom
    /\ catchOutcome o namedA boom tt t (ext w').
Proof.
  apply (service_failure_is_recorded_verbatim
           (mkOperationOptions None None None (Some (fun _ => throw boom)) None None None
              (Some (fun _ _ => throw (JsError "while reporting"))) None None)
           (fun _ => throw boom) Create namedA namedA namedA
           (initialWorld doublyFailing tt)
           (afterLoading Create (initialWorld doublyFailing tt)) boom tt);
    reflexivity.
Defined.

(** X12. An [onError] hook that throws masks the error for the caller but
    not in the state: when a step of the [try] body throws [e] and [onError]
    then throws [e'], [execute] rejects with [e'], while the state keeps the
    error state of the original [e]. *)
Theorem failing_onError_masks_rejection {W : Type} (o : OperationOptions W)
    (svc : Value -> Effect W Value)
    (hook : Thrown -> Value -> Effect W unit)
    (v : Verb) (data : Value) (w w2 : World W) (e e' : Thrown) (x : W) :
  service o = Some svc ->
  onError o = Some hook ->
  tryBlock o svc (setState v) data (afterLoading v w) = (Threw e, w2) ->
  hook e data (ext w2) = (Threw e', x) ->
  exists w',
    executeOperation data (Some o) (setState v) w = (Threw e', w')
    /\ cell v (store w') = errorState e
    /\ ext w' = x.
Proof.
  intros Hs Hh Htry Hhook.
  destruct (executeOperation_throw_spec o svc v data w e w2 Hs Htry)
    as (t & w' & Hex & Hcell & _ & Hout).
  unfold catchOutcome in Hout. rewrite Hh in Hout.
  destruct Hout as [[Hr _] | Ht]; [congruence|].
  rewrite Hhook in Ht. injection Ht as <- Hx.
  exists w'. by rewrite Hex.
Qed.

Lemma failing_onError_masks_rejection_witness :
  exists w',
    executeOperation namedA (Options.create doublyFailing) (setState Create)
                     (initialWorld doublyFailing tt)
      = (Threw (JsError "while reporting"), w')
    /\ cell Create (store w') = errorState boom
    /\ ext w' = tt.
Proof.
  apply (failing_onError_masks_rejection
           (mkOperationOptions None None None (Some (fun _ => throw boom)) None None None
              (Some (fun _ _ => throw (JsError "while reporting"))) None None)
           (fun _ => throw boom) (fun _ _ => throw (JsError "while reporting"))
           Create namedA (initialWorld doublyFailing tt)
           (mkWorld (store (afterLoading Create (initialWorld doublyFailing tt))) tt
              [StateSet Create loadingState; Call AtService [namedA]])
           boom (JsError "while reporting") tt); reflexivity.
Defined.

Lemma setCell_setCell v s1 s2 st : setCell v s2 (setCell v s1 st) = setCell v s2 st.
Proof. by destruct v. Qed.

(** X13. The success path composes the configured steps in a fixed order.
    With hooks that are plain functions, [execute] resolves with
    [afterService (resultTransformer (service payload)) payload], where
    [payload] is [beforeService (transformer (parse (beforeValidation input)))]
    and a step that is not configured is skipped; the state becomes the
    success state of that result, and the run consists of the loading state,
    the calls of the configured steps in that order, each with the value the
    previous step produced, and the success state. *)
Theorem success_path_composes_the_steps {W : Type}
    (beforeValidationFn parseFn transformerFn beforeServiceFn : option (Value -> Value))
    (serviceFn : Value -> Value)
    (resultTransformerFn : option (Value -> Value))
    (afterServiceFn : option (Value -> Value -> Value))
    (v : Verb) (data : Value) (w : World W) :
  let o := pureOptions beforeValidationFn parseFn transformerFn beforeServiceFn
                       serviceFn resultTransformerFn afterServiceFn in
  let d1 := step beforeValidationFn data in
  let d2 := step parseFn d1 in
  let d3 := step transformerFn d2 in
  let payload := step beforeServiceFn d3 in
  let raw := serviceFn payload in
  let r1 := step resultTransformerFn raw in
  let result := match afterServiceFn with Some f => f r1 payload | None => r1 end in
  let out := executeOperation data (Some o) (setState v) w in
  out.1 = Returned result
  /\ store out.2 = setCell v (successState result) (store w)
  /\ ext out.2 = ext w
  /\ trace out.2 = trace w
       ++ [StateSet v loadingState]
       ++ whenSome beforeValidationFn (Call AtBeforeValidation [data])
       ++ whenSome parseFn (Call AtParse [d1])
       ++ whenSome transformerFn (Call AtTransformer [d2])
       ++ whenSome beforeServiceFn (Call AtBeforeService [d3])
       ++ [Call AtService [payload]]
       ++ whenSome resultTransformerFn (Call AtResultTransformer [raw])
       ++ whenSome afterServiceFn (Call AtAfterService [r1; payload])
       ++ [StateSet v (successState result)].
Proof.
  destruct beforeValidationFn, parseFn, transformerFn, beforeServiceFn,
    resultTransformerFn, afterServiceFn; cbn;
    rewrite setCell_setCell, <- ?app_assoc; done.
Qed.

(** X14. Read-one notifies whatever the parameters: a resolved call with
    [onSuccessOne] configured ends with the call of that hook on the result
    and the identifier, and a rejected call with [onErrorOne] configured ends
    with the call of that hook on an error and the identifier, with or
    without parameters. *)
Theorem readOne_always_notifies {W : Type} (options : Options.t W)
    (r : Read.Options W) (s : Read.Service W)
    (getOne : string -> Value -> Effect W Value)
    (id : string) (params : Value) (w : World W) :
  Options.read options = Some r -> Read.service r = Some s ->
  Read.getOne s = Some getOne ->
  let out := execute (Result.one (Result.read (useCRUD options))) (id, params) w in
  (forall res hook,
     out.1 = Returned res -> Read.onSuccessOne r = Some hook ->
     last (trace out.2) = Some (Call AtOnSuccessOne [res; VString id]))
  /\ (forall t hook,
        out.1 = Threw t -> Read.onErrorOne r = Some hook ->
        exists e, last (trace out.2) = Some (CallWithError AtOnErrorOne e (VString id))).
Proof.
  intros Hr Hs Hg out. subst out. simpl.
  rewrite (executeReadOne_eq _ _ _ _ _ _ _ Hr Hs Hg). unfold tryCatch.
  destruct (readOneTry r getOne id params (afterLoading ReadOne w)) as [[res|e] w2] eqn:E.
  - split; [|by simpl]. simpl. intros res' hook [= <-] Hh.
    unfold readOneTry in E.
    do 5 (apply bind_Returned_inv in E as (? & ? & _ & E)).
    apply bind_Returned_inv in E as ([] & w8 & _ & E).
    apply bind_Returned_inv in E as ([] & w9 & H9 & E).
    injection E as <- <-. rewrite Hh in H9.
    apply call_spec in H9 as (_ & -> & _). by rewrite last_snoc.
  - split.
    + intros res hook Hres. exfalso.
      destruct (readOneCatch_spec r id e w2) as (t' & w3 & Hc & _).
      rewrite Hc in Hres. discriminate.
    + intros t hook _ Hh. exists e.
      unfold readOneCatch, bind, setState. simpl. rewrite Hh.
      unfold callWithError, bind, record, run. simpl.
      by destruct (hook e id (ext w2)) as [[[]|t'] x']; simpl; rewrite last_snoc.
Qed.

Lemma readOne_always_notifies_witness :
  let r := Read.mkOptions None None (Some (Read.mkService (Some (fun _ => echo)) None))
             None None None None
             (Some (fun _ _ => ret tt)) None (Some (fun _ _ => ret tt)) None None None in
  let out := execute (Result.one (Result.read (useCRUD notifyingOne))) ("42", VUndefined)
                     (initialWorld notifyingOne tt) in
  (forall res hook,
     out.1 = Returned res -> Read.onSuccessOne r = Some hook ->
     last (trace out.2) = Some (Call AtOnSuccessOne [res; VString "42"]))
  /\ (forall t hook,
        out.1 = Threw t -> Read.onErrorOne r = Some hook ->
        exists e, last (trace out.2) = Some (CallWithError AtOnErrorOne e (VString "42"))).
Proof.
  apply (readOne_always_notifies notifyingOne
           (Read.mkOptions None None (Some (Read.mkService (Some (fun _ => echo)) None))
              None None None None
              (Some (fun _ _ => ret tt)) None (Some (fun _ _ => ret tt)) None None None)
           (Read.mkService (Some (fun _ => echo)) None) (fun _ => echo)
           "42" VUndefined (initialWorld notifyingOne tt)); reflexivity.
Defined.

(** An id-only read-one, for contrast with read-many without parameters. *)
Example getOne_without_params_notifies :
  let out := execute (Result.one (Result.read (useCRUD notifyingOne))) ("42", VUndefined)
                     (initialWorld notifyingOne tt) in
  out.1 = Returned VUndefined
  /\ trace out.2 = [StateSet ReadOne loadingState;
                    Call AtGetOne [VString "42"; VUndefined];
                    StateSet ReadOne (successState VUndefined);
                    Call AtOnSuccessOne [VUndefined; VString "42"]].
Proof. by vm_compute. Qed.

(** ** The typed factory: writes and read-one *)

(** X15. A typed create or update transforms the backend's result twice,
    for every transformer without effects: when the pipeline reaches the
    backend and it resolves with [raw], the caller's [afterService] (when
    there is one) is handed [f (f raw)], and without it [execute] resolves
    with [f (f raw)]; the state holds what [execute] resolves with. *)
Theorem typed_write_applies_transformer_twice {W : Type}
    (t : TransformOptions W) (o : OperationOptions W)
    (svc : Value -> Effect W Value) (f : Value -> Value)
    (v : Verb) (data raw sd pd res : Value) (w w1 : World W) (x2 : W) :
  service o = Some svc ->
  infraEntityToUI t = pure f ->
  throughPhase5 o svc (setState v) data (afterLoading v w) = (Returned (raw, sd, pd), w1) ->
  callerAfterService o (f (f raw)) sd (ext w1) = (Returned res, x2) ->
  successNotifierReturns o res pd ->
  (afterService o = None -> res = f (f raw))
  /\ exists w',
       executeOperation data (Some (typedWriteOptions t o)) (setState v) w
         = (Returned res, w')
       /\ cell v (store w') = successState res.
Proof.
  intros Hs Hf H5 Hafter Hn. split.
  { intros Hnone. unfold callerAfterService in Hafter. rewrite Hnone in Hafter.
    by injection Hafter as <- _. }
  assert (Hs' : service (typedWriteOptions t o) = Some svc) by exact Hs.
  rewrite (executeOperation_eq _ _ _ _ _ Hs').
  unfold throughPhase5 in H5.
  apply bind_Returned_inv in H5 as (p1 & wa & Ha & H5).
  apply bind_Returned_inv in H5 as (p2 & wb & Hb & H5).
  apply bind_Returned_inv in H5 as (s1 & wc & Hc & H5).
  apply bind_Returned_inv in H5 as (s2 & wd & Hd & H5).
  apply bind_Returned_inv in H5 as (r0 & we & He & H5).
  injection H5 as -> -> -> ->.
  assert (Htry : exists w',
             tryBlock (typedWriteOptions t o) svc (setState v) data (afterLoading v w)
               = (Returned res, w')
             /\ cell v (store w') = successState res).
  { unfold tryBlock.
    change (phase1 (typedWriteOptions t o)) with (phase1 o).
    change (phase2 (typedWriteOptions t o)) with (phase2 o).
    change (phase3 (typedWriteOptions t o)) with (phase3 o).
    change (phase4 (typedWriteOptions t o)) with (phase4 o).
    rewrite (bind_Returned _ _ _ _ _ Ha), (bind_Returned _ _ _ _ _ Hb),
      (bind_Returned _ _ _ _ _ Hc), (bind_Returned _ _ _ _ _ Hd),
      (bind_Returned _ _ _ _ _ He).
    unfold phase6, phase7, phase8, phase9, typedWriteOptions, transformEntityToUI.
    simpl. rewrite Hf.
    assert (H6 : (pure f raw : Effect W Value) (ext w1) = (Returned (f raw), ext w1))
      by reflexivity.
    rewrite (bind_Returned _ _ _ _ _ (call_eq _ _ _ _ _ _ H6)).
    unfold callerAfterService, successNotifierReturns in *.
    destruct (afterService o) as [hook|].
    - assert (H7 : (let* transformedResult := pure f (f raw) in
                    hook transformedResult sd) (ext w1) = (Returned res, x2)).
      { unfold bind, pure, ret. exact Hafter. }
      rewrite (bind_Returned _ _ _ _ _ (call_eq_mk _ _ _ _ _ _ _ _ H7)).
      unfold bind at 1. simpl.
      destruct (onSuccess o) as [notifier|].
      + destruct (Hn x2) as (x3 & H9).
        rewrite (bind_Returned _ _ _ _ _ (call_eq_mk _ _ _ _ _ _ _ _ H9)).
        eexists. split; [reflexivity|]. simpl. apply cell_setCell.
      + eexists. split; [reflexivity|]. simpl. apply cell_setCell.
    - assert (H7 : (pure f (f raw) : Effect W Value) (ext w1) = (Returned res, x2))
        by exact Hafter.
      rewrite (bind_Returned _ _ _ _ _ (call_eq_mk _ _ _ _ _ _ _ _ H7)).
      unfold bind at 1. simpl.
      destruct (onSuccess o) as [notifier|].
      + destruct (Hn x2) as (x3 & H9).
        rewrite (bind_Returned _ _ _ _ _ (call_eq_mk _ _ _ _ _ _ _ _ H9)).
        eexists. split; [reflexivity|]. simpl. apply cell_setCell.
      + eexists. split; [reflexivity|]. simpl. apply cell_setCell. }
  destruct Htry as (w' & Htry & Hcell).
  exists w'. split; [|done]. by apply tryCatch_Returned.
Qed.

Lemma typed_write_applies_transformer_twice_witness :
  let o := onlyService (pure (fun _ => VNumber 10)) in
  let w := initialWorld (typedOptions counting (answeringUpdate (VNumber 10))) tt in
  (afterService o = None -> VNumber 12 = increment (increment (VNumber 10)))
  /\ exists w',
       executeOperation namedA (Some (typedWriteOptions counting o)) (setState Update) w
         = (Returned (VNumber 12), w')
       /\ cell Update (store w') = successState (VNumber 12).
Proof.
  apply (typed_write_applies_transformer_twice counting
           (onlyService (pure (fun _ => VNumber 10))) (pure (fun _ => VNumber 10))
           increment Update namedA (VNumber 10) namedA namedA (VNumber 12)
           (initialWorld (typedOptions counting (answeringUpdate (VNumber 10))) tt)
           (mkWorld (setCell Update loadingState
                       (initialStore (typedOptions counting (answeringUpdate (VNumber 10)))))
              tt [StateSet Update loadingState; Call AtService [namedA]])
           tt); reflexivity.
Defined.

(** X16. A typed read-one transforms the backend's result once and notifies
    twice: when the backend resolves with [raw], [execute] resolves with
    [f raw] and stores it, and the caller's [onSuccessOne] has run two times
    on [f raw] and the identifier, first inside the factory's
    [afterServiceOne] and then as the executor's own notifier, of which only
    the second is a call of the executor. *)
Theorem typed_readOne_notifies_twice {W : Type} (t : TransformOptions W)
    (options : Options.t W) (r : Read.Options W) (s : Read.Service W)
    (getOne : string -> Value -> Effect W Value) (f : Value -> Value)
    (hook : Value -> string -> Effect W unit)
    (id : string) (params pp raw : Value) (w w1 : World W) (x2 x3 x4 : W) :
  Options.read options = Some r -> Read.service r = Some s ->
  Read.getOne s = Some getOne ->
  infraEntityToUI t = pure f ->
  Read.onSuccessOne r = Some hook ->
  readOneParams r params (afterLoading ReadOne w) = (Returned pp, w1) ->
  getOne id pp (ext w1) = (Returned raw, x2) ->
  hook (f raw) id x2 = (Returned tt, x3) ->
  hook (f raw) id x3 = (Returned tt, x4) ->
  exists w',
    execute (Result.one (Result.read (createTypedCrud t options))) (id, params) w
      = (Returned (f raw), w')
    /\ cell ReadOne (store w') = successState (f raw)
    /\ ext w' = x4
    /\ trace w' = trace w1 ++ [Call AtGetOne [VString id; pp];
                               Call AtAfterServiceOne [raw; VString id];
                               StateSet ReadOne (successState (f raw));
                               Call AtOnSuccessOne [f raw; VString id]].
Proof.
  intros Hr Hs Hg Hf Hh Hp Hget H1 H2. simpl.
  assert (Hr' : Options.read (typedOptions t options) = Some (typedReadOptions t r)).
  { unfold typedOptions. simpl. by rewrite Hr. }
  rewrite (executeReadOne_eq _ _ s getOne _ _ _ Hr' Hs Hg).
  unfold readOneParams in Hp.
  apply bind_Returned_inv in Hp as (p1 & wa & Ha & Hp).
  apply bind_Returned_inv in Hp as (p2 & wb & Hb & Hc).
  eexists. split.
  - apply tryCatch_Returned. unfold readOneTry.
    change (readValidate (typedReadOptions t r)) with (readValidate r).
    change (readTransform (typedReadOptions t r)) with (readTransform r).
    change (readBeforeService (typedReadOptions t r)) with (readBeforeService r).
    rewrite (bind_Returned _ _ _ _ _ Ha), (bind_Returned _ _ _ _ _ Hb),
      (bind_Returned _ _ _ _ _ Hc).
    rewrite (bind_Returned _ _ _ _ _ (call_eq _ _ _ _ _ _ Hget)).
    simpl. rewrite Hh.
    assert (Hwrap : (let* transformedResult := transformEntityToUI t raw in
                     hook transformedResult id ;;; ret transformedResult) x2
                    = (Returned (f raw), x3)).
    { unfold transformEntityToUI. rewrite Hf. unfold bind, pure, ret. by rewrite H1. }
    rewrite (bind_Returned _ _ _ _ _ (call_eq_mk _ _ _ _ _ _ _ _ Hwrap)).
    unfold bind at 1. simpl.
    rewrite (bind_Returned _ _ _ _ _ (call_eq_mk _ _ _ _ _ _ _ _ H2)).
    reflexivity.
  - simpl. repeat split. by rewrite <- !app_assoc.
Qed.

Lemma typed_readOne_notifies_twice_witness :
  exists w',
    execute (Result.one (Result.read (createTypedCrud
               (mkTransformOptions (pure increment) None None) countingNotifier)))
            ("42", VUndefined)
            (initialWorld (typedOptions (mkTransformOptions (pure increment) None None)
                             countingNotifier) 0)
      = (Returned (increment (VNumber 10)), w')
    /\ cell ReadOne (store w') = successState (increment (VNumber 10))
    /\ ext w' = 2
    /\ trace w' = [StateSet ReadOne loadingState]
                  ++ [Call AtGetOne [VString "42"; VUndefined];
                      Call AtAfterServiceOne [VNumber 10; VString "42"];
                      StateSet ReadOne (successState (increment (VNumber 10)));
                      Call AtOnSuccessOne [increment (VNumber 10); VString "42"]].
Proof.
  apply (typed_readOne_notifies_twice
           (mkTransformOptions (pure increment) None None) countingNotifier
           (Read.mkOptions None None
              (Some (Read.mkService (Some (fun _ _ => ret (VNumber 10))) None))
              None None None None None None
              (Some (fun _ _ n => (Returned tt, S n))) None None None)
           (Read.mkService (Some (fun _ _ => ret (VNumber 10))) None)
           (fun _ _ => ret (VNumber 10)) increment
           (fun _ _ n => (Returned tt, S n))
           "42" VUndefined VUndefined (VNumber 10)
           (initialWorld (typedOptions (mkTransformOptions (pure increment) None None)
                            countingNotifier) 0)
           (afterLoading ReadOne
              (initialWorld (typedOptions (mkTransformOptions (pure increment) None None)
                               countingNotifier) 0))
           0 1 2); reflexivity.
Defined.

(** ** Missing API functions and the two submit validators *)

(** X17. A method of the service whose API function is missing fails before
    anything else happens: it throws the error that names the verb and the
    entity, no transformer runs even when one is configured, and the outside
    world is left as it was. *)
Theorem missing_api_fails_before_transforming {W : Type} (this : CrudService.t W)
    (id : string) (data : Value) (x : W) :
  let notImplemented verb :=
    (Threw (JsError (verb ++ " API not implemented for " ++ CrudService.entityName this)), x) in
  (CrudService.Api.create (CrudService.api this) = None ->
   CrudService.create this data x = notImplemented "Create")
  /\ (CrudService.Api.update (CrudService.api this) = None ->
      CrudService.update this data x = notImplemented "Update")
  /\ (CrudService.Api.delete (CrudService.api this) = None ->
      CrudService.delete this data x = notImplemented "Delete")
  /\ (CrudService.Api.getMany (CrudService.api this) = None ->
      CrudService.getMany this data x = notImplemented "GetMany")
  /\ CrudServiceRead.getOne this None id data x = notImplemented "GetOne".
Proof.
  repeat split.
  - intros H. unfold CrudService.create, CrudService.write. by rewrite H.
  - intros H. unfold CrudService.update, CrudService.write. by rewrite H.
  - intros H. unfold CrudService.delete, CrudService.write. by rewrite H.
  - intros H. unfold CrudService.getMany. by rewrite H.
Qed.

(** A service with every transformer and no API function. *)
Example disconnected_service_fails_everywhere :
  CrudService.create disconnected namedA tt
    = (Threw (JsError "Create API not implemented for Task"), tt)
  /\ CrudService.getMany disconnected pageTwo tt
    = (Threw (JsError "GetMany API not implemented for Task"), tt)
  /\ CrudServiceRead.getOne disconnected None "42" pageTwo tt
    = (Threw (JsError "GetOne API not implemented for Task"), tt).
Proof. by vm_compute. Qed.

(** X18. The two submit validators of [createValidator] accept the same
    inputs: [validateSubmit] returns a value exactly when the schema made by
    [toValidationSchema] parses the input to that value, and it fails with
    its keyed record exactly when that schema throws the uniform error; only
    the shape of the failure differs. *)
Theorem submit_validators_accept_alike {W : Type} (schemas : ValidatorSchemas W)
    (schema : ZodType.t W) (vs : ValidationSchema W) (data : Value) (w : W) :
  submit schemas = Some schema ->
  toValidationSchema schemas = inr vs ->
  (forall v w',
     validateSubmit schemas data w = (inl v, w') <-> parse vs data w = (Returned v, w'))
  /\ (forall w',
        (exists errs, validateSubmit schemas data w = (inr (FailedWith errs), w'))
        <-> (exists issues, ZodType.parse schema data w = (Threw (ZodError issues), w')
                            /\ parse vs data w
                               = (Threw (ValidationFailure (toValidationError issues)), w'))).
Proof.
  intros Hs Hvs. unfold toValidationSchema in Hvs. rewrite Hs in Hvs.
  injection Hvs as <-. unfold validateSubmit. rewrite Hs. simpl.
  destruct (ZodType.parse schema data w) as [[v0|t] w0] eqn:Hp.
  - split.
    + intros v w'. split; intros [= <- <-]; reflexivity.
    + intros w'. split.
      * intros (errs & H). discriminate.
      * intros (issues & H & _). discriminate.
  - destruct t as [msg|issues|ve| |tv]; split;
      try (intros v w'; split; intros H; discriminate);
      (intros w'; split;
       [ intros (errs & H); simplify_eq; eauto
       | intros (iss & H & H'); simplify_eq; eauto ]).
Qed.

Lemma submit_validators_accept_alike_witness :
  (forall v w',
     validateSubmit (mkValidatorSchemas (Some accepting) None None) namedA tt = (inl v, w')
     <-> parse (createZodValidationSchema (ZodType.parse accepting)) namedA tt
         = (Returned v, w'))
  /\ (forall w',
        (exists errs,
           validateSubmit (mkValidatorSchemas (Some accepting) None None) namedA tt
           = (inr (FailedWith errs), w'))
        <-> (exists issues,
               ZodType.parse accepting namedA tt = (Threw (ZodError issues), w')
               /\ parse (createZodValidationSchema (ZodType.parse accepting)) namedA tt
                  = (Threw (ValidationFailure (toValidationError issues)), w'))).
Proof.
  apply (submit_validators_accept_alike (mkValidatorSchemas (Some accepting) None None)
           accepting (createZodValidationSchema (ZodType.parse accepting)) namedA tt);
    reflexivity.
Defined.
